(** * Admission-and-dispatch pipeline of the log-analytics gateway

    A shallow embedding of [lambda_backend] (config.py, logger.py, auth.py,
    validators.py, intents.py, db_client.py, lambda_function.py) and the
    properties of the pipeline: credential check, payload and schema
    validation, intent routing and structured logging. *)

From Stdlib Require Import List String Ascii ZArith NArith QArith Bool Lia.
From Stdlib Require Import Numbers.DecimalString.
Import ListNotations.

Set Warnings "-register-all".

Local Open Scope Z_scope.

(** ** Python strings

    A [str] is a sequence of code points; [len] counts code points, while
    [encode('utf-8')] yields bytes.  Both lengths occur in the source. *)

Definition pystr := list N.

Definition lit (s : string) : pystr :=
  map N_of_ascii (list_ascii_of_string s).

Fixpoint str_eqb (a b : pystr) : bool :=
  match a, b with
  | [], [] => true
  | x :: a', y :: b' => N.eqb x y && str_eqb a' b'
  | _, _ => false
  end.

Definition py_len (s : pystr) : Z := Z.of_nat (List.length s).

(** [str(n)] for an [int]. *)
Definition str_of_Z (n : Z) : pystr :=
  lit (NilEmpty.string_of_int (Z.to_int n)).

(** [sub in s] for strings. *)
Fixpoint is_prefix (p s : pystr) : bool :=
  match p, s with
  | [], _ => true
  | x :: p', y :: s' => N.eqb x y && is_prefix p' s'
  | _ :: _, [] => false
  end.

Fixpoint str_contains (sub s : pystr) : bool :=
  is_prefix sub s ||
  match s with
  | [] => false
  | _ :: s' => str_contains sub s'
  end.

(** [str.startswith]. *)
Definition startswith (s p : pystr) : bool := is_prefix p s.

(** Code points for which [str.isspace] holds; [str.strip()] removes them
    from both ends. *)
Definition is_space (c : N) : bool :=
  ((9 <=? c) && (c <=? 13) || (28 <=? c) && (c <=? 32)
   || (c =? 133) || (c =? 160) || (c =? 5760)
   || (8192 <=? c) && (c <=? 8202) || (c =? 8232) || (c =? 8233)
   || (c =? 8239) || (c =? 8287) || (c =? 12288))%N.

Fixpoint lstrip (s : pystr) : pystr :=
  match s with
  | c :: s' => if is_space c then lstrip s' else s
  | [] => []
  end.

Definition strip (s : pystr) : pystr := rev (lstrip (rev (lstrip s))).

(** [s.split(sep)] for a one-character separator: the fields between the
    separators, never an empty list. *)
Fixpoint split_on (sep : N) (s : pystr) : list pystr :=
  match s with
  | [] => [[]]
  | c :: s' =>
      if N.eqb c sep then [] :: split_on sep s'
      else match split_on sep s' with
           | f :: fs => (c :: f) :: fs
           | [] => [[c]]
           end
  end.

(** [sep.join(parts)]. *)
Fixpoint join (sep : pystr) (parts : list pystr) : pystr :=
  match parts with
  | [] => []
  | [p] => p
  | p :: ps => p ++ sep ++ join sep ps
  end.

(** *** UTF-8

    [s.encode('utf-8')]: one to four bytes per code point; a surrogate
    (U+D800..U+DFFF) or a value beyond U+10FFFF has no encoding
    ([UnicodeEncodeError]). *)

Definition utf8_cp (c : N) : option (list N) :=
  (if c <? 128 then Some [c]
   else if c <? 2048 then Some [192 + c / 64; 128 + c mod 64]
   else if c <? 55296 then
     Some [224 + c / 4096; 128 + (c / 64) mod 64; 128 + c mod 64]
   else if c <? 57344 then None
   else if c <? 65536 then
     Some [224 + c / 4096; 128 + (c / 64) mod 64; 128 + c mod 64]
   else if c <? 1114112 then
     Some [240 + c / 262144; 128 + (c / 4096) mod 64;
           128 + (c / 64) mod 64; 128 + c mod 64]
   else None)%N.

Fixpoint utf8_encode (s : pystr) : option (list N) :=
  match s with
  | [] => Some []
  | c :: s' =>
      match utf8_cp c, utf8_encode s' with
      | Some bs, Some rest => Some (bs ++ rest)
      | _, _ => None
      end
  end.

(** A string every code point of which can be encoded. *)
Definition encodableb (s : pystr) : bool :=
  match utf8_encode s with Some _ => true | None => false end.

Definition encodable (s : pystr) : Prop := encodableb s = true.

(** [len(s.encode('utf-8'))] of an encodable string. *)
Definition utf8_length (s : pystr) : nat :=
  match utf8_encode s with
  | Some bytes => List.length bytes
  | None => O
  end.

(** ** Python values

    The values that [json.loads] produces and that the pipeline passes
    around.  A [dict] keeps its insertion order; lookup takes the first
    entry of a key. *)

Inductive pyfloat :=
| FFinite (q : Q)
| FInf (negative : bool)
| FNaN.

Inductive pyval :=
| VNone
| VBool (b : bool)
| VInt (n : Z)
| VFloat (f : pyfloat)
| VStr (s : pystr)
| VList (l : list pyval)
| VDict (d : list (pystr * pyval)).

Definition pydict := list (pystr * pyval).

Fixpoint dict_get {V : Type} (d : list (pystr * V)) (k : pystr) : option V :=
  match d with
  | [] => None
  | (k', v) :: d' => if str_eqb k' k then Some v else dict_get d' k
  end.

(** [k in d]. *)
Definition dict_has (d : pydict) (k : pystr) : bool :=
  match dict_get d k with Some _ => true | None => false end.

(** [d.get(k)], which is [None] for a missing key. *)
Definition get_or_none (d : pydict) (k : pystr) : pyval :=
  match dict_get d k with Some v => v | None => VNone end.

(** [d.get(k, default)]. *)
Definition get_or (d : pydict) (k : pystr) (default : pyval) : pyval :=
  match dict_get d k with Some v => v | None => default end.

(** Truth value of an object, as [if x], [not x] and [x or y] test it. *)
Definition truthy (v : pyval) : bool :=
  match v with
  | VNone => false
  | VBool b => b
  | VInt n => negb (n =? 0)
  | VFloat (FFinite q) => negb (Qnum q =? 0)
  | VFloat _ => true
  | VStr s => match s with [] => false | _ => true end
  | VList l => match l with [] => false | _ => true end
  | VDict d => match d with [] => false | _ => true end
  end.

(** ** Exceptions and results *)

Inductive exn :=
| KeyError
| TypeError
| ValueError
| AttributeError
| OverflowError
| UnicodeEncodeError
| JSONDecodeError (msg : pystr)
| ConfigError (msg : pystr)  (* the [ValueError] of [Config.validate] *)
| DriverError (msg : pystr). (* raised by the store driver *)

Inductive res (A : Type) :=
| Ret (a : A)
| Raise (e : exn).
Arguments Ret {A} a.
Arguments Raise {A} e.

(** ** The Python runtime

    Library functions of the interpreter that the pipeline calls and whose
    code is not part of the repository. *)

Record PyRuntime := {
  (** [json.loads]: the value, [JSONDecodeError] with its message, or
      another exception. *)
  json_loads : pystr -> res pyval;
  (** [int(s)] for a string; [None] stands for [ValueError]. *)
  int_of_str : pystr -> option Z;
  (** [str.lower]. *)
  str_lower : pystr -> pystr;
  (** [str(x)] for a float, a list or a dict. *)
  py_repr : pyval -> pystr
}.

(** [int(x)]. *)
Definition py_int (rt : PyRuntime) (v : pyval) : res Z :=
  match v with
  | VNone => Raise TypeError
  | VBool b => Ret (if b then 1 else 0)
  | VInt n => Ret n
  | VFloat (FFinite q) => Ret (Z.quot (Qnum q) (Zpos (Qden q)))
  | VFloat (FInf _) => Raise OverflowError
  | VFloat FNaN => Raise ValueError
  | VStr s => match int_of_str rt s with
              | Some n => Ret n
              | None => Raise ValueError
              end
  | VList _ | VDict _ => Raise TypeError
  end.

(** [str(x)], as an f-string formats a value. *)
Definition py_str (rt : PyRuntime) (v : pyval) : pystr :=
  match v with
  | VNone => lit "None"
  | VBool true => lit "True"
  | VBool false => lit "False"
  | VInt n => str_of_Z n
  | VStr s => s
  | _ => py_repr rt v
  end.

(** Whether [hash(x)] succeeds; a list or a dict is unhashable, and a
    membership test in a set raises [TypeError] for it. *)
Definition hashable (v : pyval) : bool :=
  match v with
  | VList _ | VDict _ => false
  | _ => true
  end.

(** [{**a, **b}]: the entries of [a], each with the value [b] gives its key
    when [b] has it, then the entries of [b] under new keys. *)
Definition dict_update (a b : pydict) : pydict :=
  map (fun kv => (fst kv, get_or b (fst kv) (snd kv))) a ++
  filter (fun kv => negb (dict_has a (fst kv))) b.

(** ** logger.py *)

Module Logger.

Definition REDACTED : pystr := lit "***REDACTED***".

Definition sensitive_keys : list pystr :=
  [lit "password"; lit "api_key"; lit "x-api-key"; lit "authorization";
   lit "token"; lit "secret"; lit "credential"; lit "db_password"].

(** What the except-clause of a caller hands to [error]: the exception's
    class name, [str(error)] and [traceback.format_exc()]. *)
Record exc_info := {
  error_type : pystr;
  error_message : pystr;
  stack_trace : pystr
}.

Section WithRuntime.
Variable rt : PyRuntime.

(** [any(sensitive in key_lower for sensitive in sensitive_keys)] *)
Definition is_sensitive (key : pystr) : bool :=
  existsb (fun sensitive => str_contains sensitive (str_lower rt key))
          sensitive_keys.

(** [StructuredLogger._sanitize] *)
Fixpoint _sanitize (data : pyval) : pyval :=
  match data with
  | VDict d =>
      VDict (map (fun kv =>
                    if is_sensitive (fst kv) then (fst kv, VStr REDACTED)
                    else (fst kv, _sanitize (snd kv))) d)
  | VList l => VList (map _sanitize l)
  | VStr s =>
      if 1000 <? py_len s
      then VStr (firstn 1000 s ++ lit "... [TRUNCATED]")
      else data
  | _ => data
  end.

(** The sanitized keyword arguments, a dict again. *)
Definition sanitize_fields (kwargs : pydict) : pydict :=
  match _sanitize (VDict kwargs) with
  | VDict d => d
  | _ => []
  end.

(** [StructuredLogger._log]: the record handed to [json.dumps].  [now] is
    [datetime.utcnow().isoformat() + 'Z'], [LEVEL] is [level.upper()]. *)
Definition _log (now LEVEL message : pystr) (kwargs : pydict) : pydict :=
  dict_update
    [(lit "timestamp", VStr now); (lit "level", VStr LEVEL);
     (lit "message", VStr message)]
    (sanitize_fields kwargs).

(** [d[k] = v] *)
Fixpoint dict_set (d : pydict) (k : pystr) (v : pyval) : pydict :=
  match d with
  | [] => [(k, v)]
  | (k', v') :: d' =>
      if str_eqb k' k then (k', v) :: d' else (k', v') :: dict_set d' k v
  end.

(** [StructuredLogger.error] (and [critical], which forwards to it). *)
Definition error (now message : pystr) (err : option exc_info)
    (kwargs : pydict) : pydict :=
  let log_data :=
    match err with
    | Some e =>
        dict_set (dict_set (dict_set kwargs
          (lit "error_type") (VStr (error_type e)))
          (lit "error_message") (VStr (error_message e)))
          (lit "stack_trace") (VStr (stack_trace e))
    | None => kwargs
    end in
  _log now (lit "ERROR") message log_data.

Definition warning (now message : pystr) (kwargs : pydict) : pydict :=
  _log now (lit "WARNING") message kwargs.

Definition info (now message : pystr) (kwargs : pydict) : pydict :=
  _log now (lit "INFO") message kwargs.

Definition debug (now message : pystr) (kwargs : pydict) : pydict :=
  _log now (lit "DEBUG") message kwargs.

End WithRuntime.

(** A position inside a value: dict keys and list indices from the root. *)
Inductive step :=
| Key (k : pystr)
| Idx (i : nat).

Fixpoint resolve (path : list step) (v : pyval) : option pyval :=
  match path with
  | [] => Some v
  | Key k :: rest =>
      match v with
      | VDict d => match dict_get d k with
                   | Some x => resolve rest x
                   | None => None
                   end
      | _ => None
      end
  | Idx i :: rest =>
      match v with
      | VList l => match nth_error l i with
                   | Some x => resolve rest x
                   | None => None
                   end
      | _ => None
      end
  end.

End Logger.

(** ** config.py

    The class attributes of [Config], read from the environment when the
    module is imported and fixed from then on. *)

Record Config := {
  DB_HOST : pystr;
  DB_PORT : Z;
  DB_NAME : pystr;
  DB_USER : pystr;
  DB_PASSWORD : pystr;
  API_KEYS_STR : pystr;
  MAX_PAYLOAD_SIZE : Z;
  MAX_QUERY_LIMIT : Z;
  DB_CONNECTION_TIMEOUT : Z;
  DB_QUERY_TIMEOUT : Z;
  DB_MAX_RETRIES : Z;
  LOG_LEVEL : pystr
}.

Definition nonempty (s : pystr) : bool :=
  match s with [] => false | _ => true end.

(** [Config.get_api_keys] *)
Definition get_api_keys (cfg : Config) : list pystr :=
  if nonempty (API_KEYS_STR cfg)
  then filter nonempty (map strip (split_on 44 (API_KEYS_STR cfg)))
  else [].

(** The names [Config.validate] reports as missing, in its order. *)
Definition missing_settings (cfg : Config) : list pystr :=
  (if nonempty (DB_HOST cfg) then [] else [lit "DB_HOST"]) ++
  (if nonempty (DB_NAME cfg) then [] else [lit "DB_NAME"]) ++
  (if nonempty (DB_USER cfg) then [] else [lit "DB_USER"]) ++
  (if nonempty (DB_PASSWORD cfg) then [] else [lit "DB_PASSWORD"]) ++
  (match get_api_keys cfg with [] => [lit "API_KEYS"] | _ => [] end).

(** ** The store driver

    [pymysql] as [db_client.py] uses it: a liveness probe, connecting, one
    statement with its bound parameters on a cursor, commit and rollback.
    [store] is the state of the database server as the driver sees it. *)

Record cursor_result := {
  fetchall : list pydict;
  lastrowid : Z;
  rowcount : Z
}.

Record Driver (store : Type) := {
  drv_ping : store -> bool;
  drv_connect : store -> option exn;
  drv_execute : pystr -> list pyval -> store -> res cursor_result * store;
  drv_commit : store -> option exn * store;
  drv_rollback : store -> store
}.
Arguments drv_ping {store}.
Arguments drv_connect {store}.
Arguments drv_execute {store}.
Arguments drv_commit {store}.
Arguments drv_rollback {store}.

(** ** Observable events of one call *)

Inductive log_method := Debug | Info | Warning | Error | Critical.

Inductive event :=
| EvLog (method : log_method) (message : pystr) (error : option exn)
        (kwargs : pydict)
| EvGetApiKeys
| EvJsonLoads (body : pystr)
| EvConnect
| EvExecute (query : pystr) (params : list pyval)
| EvCommit
| EvRollback.

(** ** hmac.compare_digest

    The interpreter's comparison of two byte strings: the loop runs over
    the whole of the second argument and ORs the XOR of each byte pair into
    an accumulator; nothing but the two lengths decides a branch.  When the
    lengths differ the second argument is compared with itself, the
    accumulator starting at 1.  The second component counts the iterations
    of the loop. *)

Fixpoint tscmp_loop (left right : list N) (acc : N) (steps : nat)
  : N * nat :=
  match right with
  | [] => (acc, steps)
  | r :: right' =>
      let l := hd 0%N left in
      tscmp_loop (tl left) right' (N.lor acc (N.lxor l r)) (S steps)
  end.

Definition compare_digest_steps (a b : list N) : bool * nat :=
  let same := Nat.eqb (List.length a) (List.length b) in
  let left := if same then a else b in
  let acc0 := if same then 0%N else 1%N in
  let r := tscmp_loop left b acc0 0 in
  (N.eqb (fst r) 0, snd r).

Definition compare_digest (a b : list N) : bool :=
  fst (compare_digest_steps a b).

(** ** auth.py: [constant_time_compare]

    The run of the comparison: its result, and the iterations of the
    comparison loop it has executed, none when the length test returns
    early or an encoding fails.  The first argument is encoded first. *)

Definition constant_time_compare_run (a b : pystr) : res bool * nat :=
  if negb (Nat.eqb (List.length a) (List.length b)) then (Ret false, O)
  else match utf8_encode a with
       | None => (Raise UnicodeEncodeError, O)
       | Some ea =>
           match utf8_encode b with
           | None => (Raise UnicodeEncodeError, O)
           | Some eb =>
               let r := compare_digest_steps ea eb in (Ret (fst r), snd r)
           end
       end.

(** What [constant_time_compare(a, b)] returns or raises. *)
Definition constant_time_compare (a b : pystr) : res bool :=
  fst (constant_time_compare_run a b).

(** ** auth.py: [extract_api_key]

    [headers] maps header names to string values. *)

Definition headers_t := list (pystr * pystr).

(** [x or y] for two optional strings. *)
Definition or_else (x y : option pystr) : option pystr :=
  match x with
  | Some (_ :: _) => x
  | _ => y
  end.

Definition extract_api_key (headers : headers_t) : option pystr :=
  let api_key :=
    or_else (dict_get headers (lit "x-api-key"))
            (dict_get headers (lit "X-Api-Key")) in
  match api_key with
  | Some (c :: s) => Some (strip (c :: s))
  | _ => None
  end.

(** Sequencing of results: an exception ends the computation. *)
Definition rbind {A B} (c : res A) (k : A -> res B) : res B :=
  match c with
  | Ret a => k a
  | Raise e => Raise e
  end.

(** [k in container] *)
Definition py_contains (container : pyval) (k : pystr) : res bool :=
  match container with
  | VDict d => Ret (dict_has d k)
  | VList l =>
      Ret (existsb (fun x => match x with
                             | VStr s => str_eqb s k
                             | _ => false
                             end) l)
  | VStr s => Ret (str_contains k s)
  | _ => Raise TypeError
  end.

(** [container[k]] for a string [k] *)
Definition py_getitem (container : pyval) (k : pystr) : res pyval :=
  match container with
  | VDict d => match dict_get d k with
               | Some v => Ret v
               | None => Raise KeyError
               end
  | _ => Raise TypeError
  end.

(** [x.get(k, default)]; only a dict has the method. *)
Definition py_get (x : pyval) (k : pystr) (default : pyval) : res pyval :=
  match x with
  | VDict d => Ret (get_or d k default)
  | _ => Raise AttributeError
  end.

(** Lexicographic order of strings by code point, and [sorted]. *)
Fixpoint str_leb (a b : pystr) : bool :=
  match a, b with
  | [], _ => true
  | _ :: _, [] => false
  | x :: a', y :: b' => (x <? y)%N || ((x =? y)%N && str_leb a' b')
  end.

Fixpoint insert_sorted (s : pystr) (l : list pystr) : list pystr :=
  match l with
  | [] => [s]
  | x :: l' => if str_leb s x then s :: l else x :: insert_sorted s l'
  end.

Definition sorted (l : list pystr) : list pystr :=
  fold_right insert_sorted [] l.

(** [str(l)] for a list of plain strings: ['a', 'b']. *)
Definition repr_str_list (l : list pystr) : pystr :=
  lit "[" ++
  join (lit ", ") (map (fun s => lit "'" ++ s ++ lit "'") l) ++
  lit "]".

(** ** The pipeline

    Everything below runs against a runtime, a configuration and a store
    driver.  A computation threads the [world]: the events observed so
    far, whether the process-wide [DatabaseClient] holds a connection, and
    the store; it ends in a value or in a raised exception. *)

Section Pipeline.

Variable rt : PyRuntime.
Variable cfg : Config.
Variable store : Type.
Variable drv : Driver store.

Record world := {
  trace : list event;
  connection : bool;
  db : store
}.

Definition M (A : Type) : Type := world -> res A * world.

Definition ret {A} (a : A) : M A := fun w => (Ret a, w).

Definition raise {A} (e : exn) : M A := fun w => (Raise e, w).

Definition bind {A B} (c : M A) (k : A -> M B) : M B :=
  fun w => match c w with
           | (Ret a, w') => k a w'
           | (Raise e, w') => (Raise e, w')
           end.

(** [try: c except Exception as e: h e] *)
Definition try_except {A} (c : M A) (h : exn -> M A) : M A :=
  fun w => match c w with
           | (Ret a, w') => (Ret a, w')
           | (Raise e, w') => h e w'
           end.

Definition lift {A} (r : res A) : M A := fun w => (r, w).

Definition emit (e : event) : M unit :=
  fun w => (Ret tt, {| trace := trace w ++ [e];
                       connection := connection w;
                       db := db w |}).

Notation "x <- c ;; k" := (bind c (fun x => k))
  (at level 61, c at next level, right associativity).
Notation "c ;;; k" := (bind c (fun _ => k))
  (at level 61, right associativity).

(** A call of a logger method. *)
Definition log (m : log_method) (message : pystr) (error : option exn)
    (kwargs : pydict) : M unit :=
  emit (EvLog m message error kwargs).

(** [Config.get_api_keys()], observed. *)
Definition read_api_keys : M (list pystr) :=
  emit EvGetApiKeys ;;; ret (get_api_keys cfg).

(** [Config.validate] *)
Definition Config_validate : M unit :=
  keys <- read_api_keys ;;
  match missing_settings cfg with
  | [] => ret tt
  | missing =>
      raise (ConfigError
        (lit "Missing required environment variables: " ++
         join (lit ", ") missing ++
         lit ". Set these in Lambda configuration or use AWS Secrets Manager."))
  end.

(** *** auth.py *)

(** The loop of [validate_api_key] over the configured keys. *)
Fixpoint check_keys (api_key : pystr) (valid_keys : list pystr) : M bool :=
  match valid_keys with
  | [] =>
      log Warning (lit "Invalid API key provided") None [] ;;;
      ret false
  | valid_key :: rest =>
      matched <- lift (constant_time_compare api_key valid_key) ;;
      if (matched : bool) then
        log Debug (lit "API key validated successfully") None [] ;;;
        ret true
      else check_keys api_key rest
  end.

Definition validate_api_key (api_key : option pystr) : M bool :=
  match api_key with
  | None | Some [] =>
      log Warning (lit "API request missing x-api-key header") None [] ;;;
      ret false
  | Some key =>
      valid_keys <- read_api_keys ;;
      match valid_keys with
      | [] =>
          log Error (lit "No API keys configured in environment") None [] ;;;
          ret false
      | _ => check_keys key valid_keys
      end
  end.

Definition authenticate_request (headers : headers_t)
  : M (bool * option pystr) :=
  let api_key := extract_api_key headers in
  ok <- validate_api_key api_key ;;
  if (ok : bool) then ret (true, None)
  else ret (false, Some (lit "Unauthorized: Invalid or missing API key")).

(** *** validators.py *)

Definition ALLOWED_INTENTS : list pystr :=
  [lit "get_access_logs"; lit "get_error_logs"; lit "store_access_log";
   lit "store_error_log"; lit "get_traffic_summary";
   lit "get_security_threats"; lit "get_performance_metrics";
   lit "get_anomalies"; lit "query_logs"].

(** [intent in ALLOWED_INTENTS] for a hashable [intent]. *)
Definition is_allowed (intent : pyval) : bool :=
  match intent with
  | VStr s => existsb (str_eqb s) ALLOWED_INTENTS
  | _ => false
  end.

Definition verdict := (bool * option pystr)%type.

Definition accept : verdict := (true, None).
Definition reject (msg : pystr) : verdict := (false, Some msg).

Definition validate_intent (intent : pyval) : M verdict :=
  if negb (truthy intent) then ret (reject (lit "Intent is required"))
  else if negb (hashable intent) then raise TypeError
  else if negb (is_allowed intent) then
    log Warning (lit "Rejected unknown intent: " ++ py_str rt intent)
        None [] ;;;
    ret (reject (lit "Unknown intent: " ++ py_str rt intent ++
                 lit ". Allowed intents: " ++
                 repr_str_list (sorted ALLOWED_INTENTS)))
  else ret accept.

Definition validate_payload_size (body : pystr) : res verdict :=
  match utf8_encode body with
  | None => Raise UnicodeEncodeError
  | Some bytes =>
      let size := Z.of_nat (List.length bytes) in
      let max_size := MAX_PAYLOAD_SIZE cfg in
      if size >? max_size then
        Ret (reject (lit "Payload too large: " ++ str_of_Z size ++
                     lit " bytes (max: " ++ str_of_Z max_size ++
                     lit " bytes)"))
      else Ret accept
  end.

Definition validate_json (body : pystr)
  : M (bool * option pyval * option pystr) :=
  emit (EvJsonLoads body) ;;;
  match json_loads rt body with
  | Ret data => ret (true, Some data, None)
  | Raise (JSONDecodeError msg) =>
      ret (false, None, Some (lit "Invalid JSON: " ++ msg))
  | Raise e => raise e
  end.

Definition validate_limit (limit : pyval)
  : res (bool * option Z * option pystr) :=
  match limit with
  | VNone => Ret (true, Some 100, None)
  | _ =>
      match py_int rt limit with
      | Ret limit_int =>
          let max_limit := MAX_QUERY_LIMIT cfg in
          if limit_int <? 1 then
            Ret (false, None, Some (lit "Limit must be positive"))
          else if limit_int >? max_limit then
            Ret (false, None,
                 Some (lit "Limit exceeds maximum: " ++ str_of_Z max_limit))
          else Ret (true, Some limit_int, None)
      | Raise ValueError | Raise TypeError =>
          Ret (false, None, Some (lit "Limit must be an integer"))
      | Raise e => Raise e
      end
  end.

Definition validate_timestamp (timestamp : pyval)
  : bool * option pystr * option pystr :=
  match timestamp with
  | VNone => (true, None, None)
  | VStr s =>
      if py_len s <? 10 then (false, None, Some (lit "Invalid timestamp format"))
      else (true, Some s, None)
  | _ => (false, None, Some (lit "Timestamp must be a string"))
  end.

(** The loop of [validate_ip_address] over the dotted parts: the message of
    the first part that fails, if any. *)
Fixpoint check_ip_parts (parts : list pystr) : option pystr :=
  match parts with
  | [] => None
  | part :: rest =>
      match int_of_str rt part with
      | None => Some (lit "IP address must contain numbers")
      | Some num =>
          if negb ((0 <=? num) && (num <=? 255))
          then Some (lit "Invalid IP address range")
          else check_ip_parts rest
      end
  end.

Definition validate_ip_address (ip : pyval)
  : bool * option pystr * option pystr :=
  match ip with
  | VNone => (true, None, None)
  | VStr s =>
      let parts := split_on 46 s in
      if negb (Nat.eqb (List.length parts) 4)
      then (false, None, Some (lit "Invalid IP address format"))
      else match check_ip_parts parts with
           | Some msg => (false, None, Some msg)
           | None => (true, Some s, None)
           end
  | _ => (false, None, Some (lit "IP address must be a string"))
  end.

Definition validate_status_code (status_code : pyval)
  : res (bool * option Z * option pystr) :=
  match status_code with
  | VNone => Ret (true, None, None)
  | _ =>
      match py_int rt status_code with
      | Ret code =>
          if negb ((100 <=? code) && (code <=? 599)) then
            Ret (false, None,
                 Some (lit "Status code must be between 100 and 599"))
          else Ret (true, Some code, None)
      | Raise ValueError | Raise TypeError =>
          Ret (false, None, Some (lit "Status code must be an integer"))
      | Raise e => Raise e
      end
  end.

(** [if not is_valid: return False, error], then the rest. *)
Definition and_then (c : res verdict) (k : res verdict) : res verdict :=
  rbind c (fun v => if fst v then k else Ret (false, snd v)).

Definition verdict_of {X} (t : bool * X * option pystr) : verdict :=
  (fst (fst t), snd t).

(** [if k in params: is_valid, _, error = check(params[k]) ...] *)
Definition check_if_present (params : pyval) (k : pystr)
    (check : pyval -> res verdict) : res verdict :=
  rbind (py_contains params k) (fun present =>
    if (present : bool) then rbind (py_getitem params k) check
    else Ret accept).

(** [for field in required: if field not in params: return ...] *)
Fixpoint check_required (params : pyval) (required : list pystr)
  : res verdict :=
  match required with
  | [] => Ret accept
  | field :: rest =>
      rbind (py_contains params field) (fun present =>
        if (present : bool) then check_required params rest
        else Ret (reject (lit "Missing required field: " ++ field)))
  end.

Definition check_limit (v : pyval) : res verdict :=
  rbind (validate_limit v) (fun t => Ret (verdict_of t)).
Definition check_timestamp (v : pyval) : res verdict :=
  Ret (verdict_of (validate_timestamp v)).
Definition check_ip_address (v : pyval) : res verdict :=
  Ret (verdict_of (validate_ip_address v)).
Definition check_status_code (v : pyval) : res verdict :=
  rbind (validate_status_code v) (fun t => Ret (verdict_of t)).

(** [intent == name] *)
Definition intent_is (intent : pyval) (name : string) : bool :=
  match intent with
  | VStr s => str_eqb s (lit name)
  | _ => false
  end.

Definition validate_intent_params (intent params : pyval) : res verdict :=
  and_then (check_if_present params (lit "limit") check_limit)
  (if intent_is intent "get_access_logs" then
     and_then (check_if_present params (lit "ip_address") check_ip_address)
    (and_then (check_if_present params (lit "status_code") check_status_code)
    (and_then (check_if_present params (lit "start_time") check_timestamp)
    (and_then (check_if_present params (lit "end_time") check_timestamp)
              (Ret accept))))
   else if intent_is intent "store_access_log" then
     and_then (check_required params
                 [lit "timestamp"; lit "ip_address"; lit "method";
                  lit "endpoint"; lit "status_code"])
    (and_then (rbind (py_getitem params (lit "timestamp")) check_timestamp)
    (and_then (rbind (py_getitem params (lit "ip_address")) check_ip_address)
    (and_then (rbind (py_getitem params (lit "status_code")) check_status_code)
              (Ret accept))))
   else if intent_is intent "store_error_log" then
     and_then (check_required params
                 [lit "timestamp"; lit "log_level"; lit "error_code";
                  lit "error_message"])
    (and_then (rbind (py_getitem params (lit "timestamp")) check_timestamp)
              (Ret accept))
   else if intent_is intent "get_traffic_summary" then
     and_then (check_if_present params (lit "start_time") check_timestamp)
    (and_then (check_if_present params (lit "end_time") check_timestamp)
              (Ret accept))
   else Ret accept).

(** [validate_request(body, intent)]; the gateway passes no [intent]. *)
Definition validate_request (body : pystr) (intent : option pystr)
  : M (bool * option pyval * option pystr) :=
  size_ok <- lift (validate_payload_size body) ;;
  if negb (fst size_ok) then ret (false, None, snd size_ok) else
  parsed <- validate_json body ;;
  match parsed with
  | (true, Some data, _) =>
      intent_to_check <-
        match intent with
        | Some (c :: s) => ret (VStr (c :: s))
        | _ => lift (py_get data (lit "intent") VNone)
        end ;;
      intent_ok <- validate_intent intent_to_check ;;
      if negb (fst intent_ok) then ret (false, None, snd intent_ok) else
      params <- lift (py_get data (lit "params") (VDict [])) ;;
      params_ok <- lift (validate_intent_params intent_to_check params) ;;
      if negb (fst params_ok) then ret (false, None, snd params_ok) else
      ret (true, Some data, None)
  | (_, _, error) => ret (false, None, error)
  end.

(** *** db_client.py *)

Definition set_connection (c : bool) : M unit :=
  fun w => (Ret tt, {| trace := trace w; connection := c; db := db w |}).

Definition get_world : M world := fun w => (Ret w, w).

Definition set_db (s : store) : M unit :=
  fun w => (Ret tt, {| trace := trace w; connection := connection w;
                       db := s |}).

(** [DatabaseClient._get_connection] *)
Definition _get_connection : M unit :=
  w <- get_world ;;
  if connection w && drv_ping drv (db w) then ret tt
  else
    set_connection false ;;;
    log Info (lit "Creating new database connection") None [] ;;;
    emit EvConnect ;;;
    match drv_connect drv (db w) with
    | None =>
        set_connection true ;;;
        log Info (lit "Database connection established") None []
    | Some e =>
        log Error (lit "Failed to connect to database") (Some e) [] ;;;
        raise e
    end.

(** [cursor.execute(query, params)] *)
Definition cursor_execute (query : pystr) (params : list pyval)
  : M cursor_result :=
  emit (EvExecute query params) ;;;
  w <- get_world ;;
  let (r, s) := drv_execute drv query params (db w) in
  set_db s ;;; lift r.

Definition commit : M unit :=
  emit EvCommit ;;;
  w <- get_world ;;
  let (r, s) := drv_commit drv (db w) in
  set_db s ;;;
  match r with
  | None => ret tt
  | Some e => raise e
  end.

Definition rollback : M unit :=
  emit EvRollback ;;;
  w <- get_world ;;
  set_db (drv_rollback drv (db w)).

(** [with self._get_cursor() as cursor: body]: the unit of work commits,
    or rolls back and raises again. *)
Definition with_cursor {A} (body : M A) : M A :=
  _get_connection ;;;
  try_except (a <- body ;; commit ;;; ret a)
    (fun e =>
       rollback ;;;
       log Error (lit "Database transaction rolled back") (Some e) [] ;;;
       raise e).

(** [DatabaseClient.execute_insert] *)
Definition execute_insert (query : pystr) (params : list pyval) : M Z :=
  with_cursor (
    log Debug (lit "Executing insert: " ++ firstn 100 query ++ lit "...")
        None [] ;;;
    cur <- cursor_execute query params ;;
    let last_id := lastrowid cur in
    log Info (lit "Insert successful, ID: " ++ str_of_Z last_id) None [] ;;;
    ret last_id).

(** [DatabaseClient.execute_query] with [fetch=True] *)
Definition execute_query (query : pystr) (params : list pyval)
  : M (list pydict) :=
  with_cursor (
    log Debug (lit "Executing query: " ++ firstn 100 query ++ lit "...")
        None
        [(lit "params_count", VInt (Z.of_nat (List.length params)))] ;;;
    cur <- cursor_execute query params ;;
    let results := fetchall cur in
    log Debug (lit "Query returned " ++
               str_of_Z (Z.of_nat (List.length results)) ++ lit " rows")
        None [] ;;;
    ret results).

(** *** intents.py *)

Definition store_access_log_query : pystr := lit "
            INSERT INTO access_logs (
                timestamp, ip_address, method, endpoint, http_version,
                status_code, response_size, response_time_ms, user_agent,
                department, user_id
            ) VALUES (%s, %s, %s, %s, %s, %s, %s, %s, %s, %s, %s)
        ".

Definition store_error_log_query : pystr := lit "
            INSERT INTO error_logs (
                timestamp, log_level, process_id, thread_id, client_ip,
                error_code, error_message, file_path, line_number, severity_score
            ) VALUES (%s, %s, %s, %s, %s, %s, %s, %s, %s, %s)
        ".

(** [{'success': True, 'data': data}] and [{'success': False, 'error': msg}] *)
Definition success (data : pydict) : pydict :=
  [(lit "success", VBool true); (lit "data", VDict data)].

Definition failure (msg : pystr) : pydict :=
  [(lit "success", VBool false); (lit "error", VStr msg)].

(** Reading the bound parameters: [params[k]] for a mandatory field,
    [params.get(k, default)] for an optional one, left to right. *)
Inductive field :=
| Mandatory (k : string)
| Optional (k : string) (default : pyval).

Definition read_field (params : pyval) (f : field) : res pyval :=
  match f with
  | Mandatory k => py_getitem params (lit k)
  | Optional k default => py_get params (lit k) default
  end.

Fixpoint read_fields (params : pyval) (fs : list field)
  : res (list pyval) :=
  match fs with
  | [] => Ret []
  | f :: rest =>
      rbind (read_field params f) (fun v =>
      rbind (read_fields params rest) (fun vs => Ret (v :: vs)))
  end.

Definition store_access_log_fields : list field :=
  [Mandatory "timestamp"; Mandatory "ip_address"; Mandatory "method";
   Mandatory "endpoint"; Optional "http_version" VNone;
   Mandatory "status_code"; Optional "response_size" VNone;
   Optional "response_time_ms" VNone; Optional "user_agent" VNone;
   Optional "department" VNone; Optional "user_id" VNone].

Definition store_error_log_fields : list field :=
  [Mandatory "timestamp"; Mandatory "log_level";
   Optional "process_id" VNone; Optional "thread_id" VNone;
   Optional "client_ip" VNone; Mandatory "error_code";
   Mandatory "error_message"; Optional "file_path" VNone;
   Optional "line_number" VNone; Optional "severity_score" (VInt 5)].

Definition handle_store_access_log (params : pyval) : M pydict :=
  try_except
    (query_params <- lift (read_fields params store_access_log_fields) ;;
     log_id <- execute_insert store_access_log_query query_params ;;
     ret (success [(lit "id", VInt log_id);
                   (lit "message", VStr (lit "Access log stored successfully"))]))
    (fun e =>
       log Error (lit "Error in store_access_log") (Some e) [] ;;;
       ret (failure (lit "Failed to store access log"))).

Definition handle_store_error_log (params : pyval) : M pydict :=
  try_except
    (query_params <- lift (read_fields params store_error_log_fields) ;;
     log_id <- execute_insert store_error_log_query query_params ;;
     ret (success [(lit "id", VInt log_id);
                   (lit "message", VStr (lit "Error log stored successfully"))]))
    (fun e =>
       log Error (lit "Error in store_error_log") (Some e) [] ;;;
       ret (failure (lit "Failed to store error log"))).

(** The eight handler functions.  The six read handlers (retrieval and
    aggregation queries) are taken as given: each is some computation from
    the params to a result dict. *)
Inductive handler :=
| H_get_access_logs
| H_get_error_logs
| H_store_access_log
| H_store_error_log
| H_get_traffic_summary
| H_get_security_threats
| H_get_performance_metrics
| H_get_anomalies.

Variable read_handler : handler -> pyval -> M pydict.

Definition run_handler (h : handler) (params : pyval) : M pydict :=
  match h with
  | H_store_access_log => handle_store_access_log params
  | H_store_error_log => handle_store_error_log params
  | _ => read_handler h params
  end.

Definition INTENT_HANDLERS : list (pystr * handler) :=
  [(lit "get_access_logs", H_get_access_logs);
   (lit "get_error_logs", H_get_error_logs);
   (lit "store_access_log", H_store_access_log);
   (lit "store_error_log", H_store_error_log);
   (lit "get_traffic_summary", H_get_traffic_summary);
   (lit "get_security_threats", H_get_security_threats);
   (lit "get_performance_metrics", H_get_performance_metrics);
   (lit "get_anomalies", H_get_anomalies)].

(** [INTENT_HANDLERS.get(intent)]; the key is hashed. *)
Definition lookup_handler (intent : pyval) : res (option handler) :=
  match intent with
  | VStr s => Ret (dict_get INTENT_HANDLERS s)
  | VList _ | VDict _ => Raise TypeError
  | _ => Ret None
  end.

Definition execute_intent (intent params : pyval) : M pydict :=
  handler <- lift (lookup_handler intent) ;;
  match handler with
  | None => ret (failure (lit "No handler for intent: " ++ py_str rt intent))
  | Some h => run_handler h params
  end.

(** *** lambda_function.py *)

Record response := {
  statusCode : Z;
  headers : list (pystr * pystr);
  body : pydict   (* the dict that [json.dumps] serialises *)
}.

Definition default_headers : list (pystr * pystr) :=
  [(lit "Content-Type", lit "application/json");
   (lit "X-Content-Type-Options", lit "nosniff");
   (lit "X-Frame-Options", lit "DENY");
   (lit "X-XSS-Protection", lit "1; mode=block");
   (lit "Strict-Transport-Security",
    lit "max-age=31536000; includeSubDomains")].

(** [create_response(status_code, body)]; no call passes [headers]. *)
Definition create_response (status_code : Z) (body : pydict) : response :=
  {| statusCode := status_code; headers := default_headers; body := body |}.

(** The API Gateway event.  [None] stands for a key that is absent or
    null, except in [ev_httpMethod], where [None] is the absent key and
    [Some v] the value under the key, [VNone] for a null;
    [ev_sourceIp] is [requestContext.identity.sourceIp]. *)
Record Event := {
  ev_headers : option headers_t;
  ev_body : option pystr;
  ev_httpMethod : option pyval;
  ev_sourceIp : option pystr
}.

(** [event.get('headers', {}) or {}] *)
Definition request_headers (event : Event) : headers_t :=
  match ev_headers event with
  | Some (h :: hs) => h :: hs
  | _ => []
  end.

(** [event.get('body', '') or '{}'] *)
Definition request_body (event : Event) : pystr :=
  match ev_body event with
  | Some (c :: s) => c :: s
  | _ => lit "{}"
  end.

(** [event.get('httpMethod', 'POST')] *)
Definition request_method (event : Event) : pyval :=
  match ev_httpMethod event with
  | Some m => m
  | None => VStr (lit "POST")
  end.

(** [x == s] for a string literal [s]; only a string is equal to it. *)
Definition py_eq_str (x : pyval) (s : pystr) : bool :=
  match x with
  | VStr m => str_eqb m s
  | _ => false
  end.

Definition error_body (msg request_id : pystr) : pydict :=
  [(lit "error", VStr msg); (lit "request_id", VStr request_id)].

(** [len(x)] *)
Definition py_len_val (x : pyval) : res Z :=
  match x with
  | VStr s => Ret (py_len s)
  | VList l => Ret (Z.of_nat (List.length l))
  | VDict d => Ret (Z.of_nat (List.length d))
  | _ => Raise TypeError
  end.

(** Classes that [except ValueError] catches. *)
Definition is_ValueError (e : exn) : bool :=
  match e with
  | ValueError | UnicodeEncodeError | JSONDecodeError _ | ConfigError _ =>
      true
  | _ => false
  end.

Definition caller_ip_of (headers : headers_t) (event : Event) : pystr :=
  let forwarded :=
    strip (hd [] (split_on 44
      (match dict_get headers (lit "X-Forwarded-For") with
       | Some v => v | None => [] end))) in
  if nonempty forwarded then forwarded
  else
    let real_ip := match dict_get headers (lit "X-Real-Ip") with
                   | Some v => v | None => [] end in
    if nonempty real_ip then real_ip
    else match ev_sourceIp event with Some v => v | None => [] end.

(** [lambda_handler(event, context)]; [request_id] is the fresh
    [str(uuid.uuid4())] of the call. *)
Definition lambda_handler (request_id : pystr) (event : Event)
  : M response :=
  try_except
    (config_ok <-
       try_except (Config_validate ;;; ret true)
         (fun e =>
            if is_ValueError e then
              log Critical (lit "Configuration validation failed")
                  (Some e) [] ;;;
              ret false
            else raise e) ;;
     if negb config_ok then
       ret (create_response 500
              (error_body (lit "Server configuration error") request_id))
     else
     let headers := request_headers event in
     let body_str := request_body event in
     let http_method := request_method event in
     let caller_ip := caller_ip_of headers event in
     log Info (lit "API request received") None
         [(lit "request_id", VStr request_id);
          (lit "intent", VStr (lit "unknown"));
          (lit "caller_ip", VStr caller_ip);
          (lit "http_method", http_method)] ;;;
     auth <- authenticate_request headers ;;
     match auth with
     | (false, auth_error) =>
         log Warning (lit "Authentication failed") None
             [(lit "request_id", VStr request_id);
              (lit "caller_ip", VStr caller_ip)] ;;;
         ret (create_response 401
                [(lit "error", match auth_error with
                               | Some m => VStr m
                               | None => VNone
                               end);
                 (lit "request_id", VStr request_id)])
     | (true, _) =>
     if negb (py_eq_str http_method (lit "POST")) then
       log Warning (lit "Invalid HTTP method") None
           [(lit "request_id", VStr request_id);
            (lit "http_method", http_method)] ;;;
       ret (create_response 405
              (error_body (lit "Method not allowed. Use POST.") request_id))
     else
     validated <- validate_request body_str None ;;
     match validated with
     | (true, parsed, _) =>
         let data := match parsed with Some d => d | None => VNone end in
         intent <- lift (py_get data (lit "intent") VNone) ;;
         params <- lift (py_get data (lit "params") (VDict [])) ;;
         params_count <- lift (py_len_val params) ;;
         log Info (lit "Executing intent") None
             [(lit "request_id", VStr request_id);
              (lit "intent", intent);
              (lit "params_count", VInt params_count)] ;;;
         try_except
           (result <- execute_intent intent params ;;
            let status_code :=
              if truthy (get_or result (lit "success") (VBool false))
              then 200 else 500 in
            log Info (lit "API response sent") None
                [(lit "request_id", VStr request_id);
                 (lit "status_code", VInt status_code);
                 (lit "intent", intent)] ;;;
            ret (create_response status_code
                   (dict_update [(lit "request_id", VStr request_id)]
                                result)))
           (fun e =>
              log Error (lit "Intent execution failed") (Some e)
                  [(lit "request_id", VStr request_id);
                   (lit "intent", intent)] ;;;
              ret (create_response 500
                     (error_body (lit "Internal server error") request_id)))
     | (false, _, validation_error) =>
         log Warning (lit "Request validation failed") None
             [(lit "request_id", VStr request_id);
              (lit "error", match validation_error with
                            | Some m => VStr m
                            | None => VNone
                            end)] ;;;
         ret (create_response 400
                [(lit "error", match validation_error with
                               | Some m => VStr m
                               | None => VNone
                               end);
                 (lit "request_id", VStr request_id)])
     end
     end)
    (fun e =>
       log Critical (lit "Unexpected error in lambda_handler") (Some e)
           [(lit "request_id", VStr request_id)] ;;;
       ret (create_response 500
              (error_body (lit "Internal server error") request_id))).

End Pipeline.

Arguments trace {store}.
Arguments connection {store}.
Arguments db {store}.
Arguments ret {store A}.
Arguments raise {store A}.
Arguments bind {store A B}.
Arguments try_except {store A}.
Arguments lift {store A}.
Arguments emit {store}.
Arguments log {store}.
Arguments get_world {store}.
Arguments set_connection {store}.
Arguments set_db {store}.
Arguments read_api_keys cfg {store}.
Arguments Config_validate cfg {store}.
Arguments check_keys {store}.
Arguments validate_api_key cfg {store}.
Arguments authenticate_request cfg {store}.
Arguments validate_intent rt {store}.
Arguments validate_json rt {store}.
Arguments validate_request rt cfg {store}.
Arguments _get_connection {store}.
Arguments cursor_execute {store}.
Arguments commit {store}.
Arguments rollback {store}.
Arguments with_cursor {store} drv {A}.
Arguments execute_insert {store}.
Arguments execute_query {store}.
Arguments handle_store_access_log {store}.
Arguments handle_store_error_log {store}.
Arguments run_handler {store}.
Arguments execute_intent rt {store}.
Arguments lambda_handler rt cfg {store}.

(** ** A concrete runtime, configuration and store

    Enough of the interpreter to run the pipeline on sample calls: ASCII
    lower-casing, decimal [int(s)], and [json.loads] on the request bodies
    of the samples. *)

Module Sample.

Definition ascii_lower (s : pystr) : pystr :=
  map (fun c => if ((65 <=? c) && (c <=? 90))%N then (c + 32)%N else c) s.

Fixpoint digits_value (s : pystr) (acc : Z) : option Z :=
  match s with
  | [] => Some acc
  | c :: s' =>
      if ((48 <=? c) && (c <=? 57))%N
      then digits_value s' (10 * acc + Z.of_N (c - 48))
      else None
  end.

Definition decimal (s : pystr) : option Z :=
  match strip s with
  | [] => None
  | 45%N :: (_ :: _) as ds => option_map Z.opp (digits_value ds 0)
  | 43%N :: (_ :: _) as ds => digits_value ds 0
  | 45%N :: [] | 43%N :: [] => None
  | ds => digits_value ds 0
  end.

(** ["s"], a JSON string token. *)
Definition quoted (s : string) : pystr := [34%N] ++ lit s ++ [34%N].

(** [{"intent": "query_logs"}] *)
Definition body_query_logs : pystr :=
  lit "{" ++ quoted "intent" ++ lit ": " ++ quoted "query_logs" ++ lit "}".

(** [{"intent": "get_access_logs", "params": {"limit": 5000}}] *)
Definition body_limit_5000 : pystr :=
  lit "{" ++ quoted "intent" ++ lit ": " ++ quoted "get_access_logs" ++
  lit ", " ++ quoted "params" ++ lit ": {" ++ quoted "limit" ++
  lit ": 5000}}".

Definition loads (body : pystr) : res pyval :=
  if str_eqb body (lit "{}") then Ret (VDict [])
  else if str_eqb body body_query_logs then
    Ret (VDict [(lit "intent", VStr (lit "query_logs"))])
  else if str_eqb body body_limit_5000 then
    Ret (VDict [(lit "intent", VStr (lit "get_access_logs"));
                (lit "params", VDict [(lit "limit", VInt 5000)])])
  else Raise (JSONDecodeError (lit "Expecting value")).

Definition runtime : PyRuntime := {|
  json_loads := loads;
  int_of_str := decimal;
  str_lower := ascii_lower;
  py_repr := fun _ => lit "<object>"
|}.

Definition config : Config := {|
  DB_HOST := lit "db.internal";
  DB_PORT := 3306;
  DB_NAME := lit "logs";
  DB_USER := lit "app";
  DB_PASSWORD := lit "pw";
  API_KEYS_STR := lit "alpha-key, beta-key";
  MAX_PAYLOAD_SIZE := 1048576;
  MAX_QUERY_LIMIT := 1000;
  DB_CONNECTION_TIMEOUT := 5;
  DB_QUERY_TIMEOUT := 30;
  DB_MAX_RETRIES := 3;
  LOG_LEVEL := lit "INFO"
|}.

(** A store that keeps the statements it was given; the identifier of an
    insert is its position. *)
Definition memory := list (pystr * list pyval).

Definition memory_driver : Driver memory := {|
  drv_ping := fun _ => true;
  drv_connect := fun _ => None;
  drv_execute := fun q ps s =>
    (Ret {| fetchall := [];
            lastrowid := Z.of_nat (S (List.length s));
            rowcount := 1 |},
     s ++ [(q, ps)]);
  drv_commit := fun s => (None, s);
  drv_rollback := fun s => s
|}.

Definition cold : world memory :=
  {| trace := []; connection := false; db := [] |}.

(** A read handler that returns an empty result. *)
Definition no_rows (h : handler) (params : pyval) : M memory pydict :=
  ret (success []).

Definition request_id : pystr := lit "00000000-0000-4000-8000-000000000000".

(** The same configuration with a payload limit of sixteen bytes. *)
Definition tight_config : Config := {|
  DB_HOST := DB_HOST config;
  DB_PORT := DB_PORT config;
  DB_NAME := DB_NAME config;
  DB_USER := DB_USER config;
  DB_PASSWORD := DB_PASSWORD config;
  API_KEYS_STR := API_KEYS_STR config;
  MAX_PAYLOAD_SIZE := 16;
  MAX_QUERY_LIMIT := MAX_QUERY_LIMIT config;
  DB_CONNECTION_TIMEOUT := DB_CONNECTION_TIMEOUT config;
  DB_QUERY_TIMEOUT := DB_QUERY_TIMEOUT config;
  DB_MAX_RETRIES := DB_MAX_RETRIES config;
  LOG_LEVEL := LOG_LEVEL config
|}.

(** A POST that presents the first configured key. *)
Definition post (body : option pystr) : Event :=
  {| ev_headers := Some [(lit "x-api-key", lit "alpha-key")];
     ev_body := body;
     ev_httpMethod := Some (VStr (lit "POST"));
     ev_sourceIp := Some (lit "203.0.113.7") |}.

(** A POST without any header. *)
Definition anonymous_post : Event :=
  {| ev_headers := None;
     ev_body := Some (lit "{}");
     ev_httpMethod := Some (VStr (lit "POST"));
     ev_sourceIp := None |}.

(** The params of an error record without a severity score. *)
Definition error_record : pydict :=
  [(lit "timestamp", VStr (lit "2024-05-01 12:00:00"));
   (lit "log_level", VStr (lit "ERROR"));
   (lit "error_code", VStr (lit "E42"));
   (lit "error_message", VStr (lit "disk full"));
   (lit "client_ip", VStr (lit "203.0.113.7"))].

Definition run (event : Event) : res response * world memory :=
  lambda_handler runtime config memory_driver no_rows request_id event cold.

End Sample.

(** ** The gateway as a state machine

    The values of authentication and validation do not depend on the
    world they run in; they are read off a run in an empty world. *)

Definition blank : world unit :=
  {| trace := []; connection := false; db := tt |}.

Definition authenticated (cfg : Config) (headers : headers_t)
  : res (bool * option pystr) :=
  fst (authenticate_request cfg headers blank).

Definition validated (rt : PyRuntime) (cfg : Config) (body : pystr)
  : res (bool * option pyval * option pystr) :=
  fst (validate_request rt cfg body None blank).

(** The world with further events observed. *)
Definition add_events {store} (evs : list event) (w : world store)
  : world store :=
  {| trace := trace w ++ evs; connection := connection w; db := db w |}.

Inductive gateway_state :=
| ConfigInvalid
| Unauthenticated
| MethodNotAllowed
| ValidationRejected
| ExecutionFailed
| Success
| Crashed.          (* an exception outside the handlers *)

Definition status_of (s : gateway_state) : Z :=
  match s with
  | ConfigInvalid => 500
  | Unauthenticated => 401
  | MethodNotAllowed => 405
  | ValidationRejected => 400
  | ExecutionFailed => 500
  | Success => 200
  | Crashed => 500
  end.

(** Where a call stops before a handler runs, or the intent and params it
    proceeds with.  The states are tried in the order of the code:
    configuration, credential, method, validation. *)
Inductive admission :=
| Stopped (s : gateway_state)
| Proceeds (intent params : pyval).

Definition first_state (rt : PyRuntime) (cfg : Config) (event : Event)
  : admission :=
  match missing_settings cfg with
  | _ :: _ => Stopped ConfigInvalid
  | [] =>
      match authenticated cfg (request_headers event) with
      | Raise _ => Stopped Crashed
      | Ret (false, _) => Stopped Unauthenticated
      | Ret (true, _) =>
          if negb (py_eq_str (request_method event) (lit "POST"))
          then Stopped MethodNotAllowed
          else
            match validated rt cfg (request_body event) with
            | Raise _ => Stopped Crashed
            | Ret (true, parsed, _) =>
                let data := match parsed with Some d => d | None => VNone end in
                match py_get data (lit "intent") VNone,
                      rbind (py_get data (lit "params") (VDict []))
                            (fun params =>
                               rbind (py_len_val params)
                                     (fun _ => Ret params)) with
                | Ret intent, Ret params => Proceeds intent params
                | _, _ => Stopped Crashed
                end
            | Ret (false, _, _) => Stopped ValidationRejected
            end
      end
  end.

(** The state a handler's outcome stands for. *)
Definition execution_state (outcome : res pydict) : gateway_state :=
  match outcome with
  | Ret result =>
      if truthy (get_or result (lit "success") (VBool false))
      then Success else ExecutionFailed
  | Raise _ => ExecutionFailed
  end.

(** ** The two write operations *)

Inductive write_op := StoreAccessLog | StoreErrorLog.

Definition op_intent (op : write_op) : pystr :=
  match op with
  | StoreAccessLog => lit "store_access_log"
  | StoreErrorLog => lit "store_error_log"
  end.

Definition op_fields (op : write_op) : list field :=
  match op with
  | StoreAccessLog => store_access_log_fields
  | StoreErrorLog => store_error_log_fields
  end.

Definition op_query (op : write_op) : pystr :=
  match op with
  | StoreAccessLog => store_access_log_query
  | StoreErrorLog => store_error_log_query
  end.

Definition op_message (op : write_op) : pystr :=
  match op with
  | StoreAccessLog => lit "Access log stored successfully"
  | StoreErrorLog => lit "Error log stored successfully"
  end.

Definition op_handler {store} (drv : Driver store) (op : write_op)
  : pyval -> M store pydict :=
  match op with
  | StoreAccessLog => handle_store_access_log drv
  | StoreErrorLog => handle_store_error_log drv
  end.

(** The value bound for a field of the statement. *)
Definition bound_value (d : pydict) (f : field) : pyval :=
  match f with
  | Mandatory k => get_or d (lit k) VNone
  | Optional k default => get_or d (lit k) default
  end.

(** The client holds a live connection, or the driver grants a new one. *)
Definition connects {store} (drv : Driver store) (w : world store) : bool :=
  (connection w && drv_ping drv (db w)) ||
  match drv_connect drv (db w) with None => true | Some _ => false end.

(** Messages of the rejections. *)
Definition unauthorized : pystr :=
  lit "Unauthorized: Invalid or missing API key".

Definition payload_too_large (size max_size : Z) : pystr :=
  lit "Payload too large: " ++ str_of_Z size ++ lit " bytes (max: " ++
  str_of_Z max_size ++ lit " bytes)".

Definition limit_exceeds (max_limit : Z) : pystr :=
  lit "Limit exceeds maximum: " ++ str_of_Z max_limit.

(** The response to a handler's outcome. *)
Definition execution_response (request_id : pystr) (outcome : res pydict)
  : response :=
  match outcome with
  | Ret result =>
      create_response
        (if truthy (get_or result (lit "success") (VBool false))
         then 200 else 500)
        (dict_update [(lit "request_id", VStr request_id)] result)
  | Raise _ =>
      create_response 500
        (error_body (lit "Internal server error") request_id)
  end.

(** Two computations that return the same value in whatever worlds they
    run. *)
Definition same_value {s1 s2 A} (c1 : M s1 A) (c2 : M s2 A) : Prop :=
  forall w1 w2, fst (c1 w1) = fst (c2 w2).

(** ** intents.py: the read handlers

    The statement texts are the f-strings of the source, the value of
    [where_clause] (and of the AND/WHERE keyword) spliced in. *)

Definition access_logs_query (where_clause : pystr) : pystr :=
  lit "
            SELECT 
                id, timestamp, ip_address, method, endpoint, 
                http_version, status_code, response_size, 
                response_time_ms, user_agent, department, user_id
            FROM access_logs
            " ++ where_clause ++ lit "
            ORDER BY timestamp DESC
            LIMIT %s
        ".

Definition error_logs_query (where_clause : pystr) : pystr :=
  lit "
            SELECT 
                id, timestamp, log_level, process_id, thread_id,
                client_ip, error_code, error_message, file_path,
                line_number, severity_score
            FROM error_logs
            " ++ where_clause ++ lit "
            ORDER BY timestamp DESC, severity_score DESC
            LIMIT %s
        ".

Definition brute_force_query (where_clause keyword : pystr) : pystr :=
  lit "
            SELECT ip_address, COUNT(*) as failures
            FROM access_logs
            " ++ where_clause ++ lit " " ++ keyword ++ lit " status_code = 401
            GROUP BY ip_address
            HAVING failures >= 3
        ".

Definition sql_injection_query (where_clause keyword : pystr) : pystr :=
  lit "
            SELECT ip_address, user_agent, endpoint
            FROM access_logs
            " ++ where_clause ++ lit " " ++ keyword ++ lit " 
            (user_agent LIKE %s OR user_agent LIKE %s)
        ".

Definition performance_query (where_clause : pystr) : pystr :=
  lit "
            SELECT 
                endpoint,
                AVG(response_time_ms) as avg_response_time,
                MAX(response_time_ms) as peak_response_time,
                COUNT(*) as request_count
            FROM access_logs
            " ++ where_clause ++ lit "
            GROUP BY endpoint
            ORDER BY peak_response_time DESC
            LIMIT 20
        ".

Definition anomalies_query (where_clause : pystr) : pystr :=
  lit "
            SELECT 
                timestamp, error_code, error_message, severity_score,
                client_ip, file_path
            FROM error_logs
            " ++ where_clause ++ lit "
            ORDER BY severity_score DESC, timestamp DESC
            LIMIT 50
        ".

(** [x >= n] and [x > n] against an integer literal; only numbers are
    ordered with an [int]. *)
Definition py_ge (v : pyval) (n : Z) : res bool :=
  match v with
  | VInt m => Ret (n <=? m)
  | VBool b => Ret (n <=? (if b then 1 else 0))
  | VFloat (FFinite q) => Ret (Qle_bool (inject_Z n) q)
  | VFloat (FInf negative) => Ret (negb negative)
  | VFloat FNaN => Ret false
  | _ => Raise TypeError
  end.

Definition py_gt (v : pyval) (n : Z) : res bool :=
  match v with
  | VInt m => Ret (n <? m)
  | VBool b => Ret (n <? (if b then 1 else 0))
  | VFloat (FFinite q) => Ret (negb (Qle_bool q (inject_Z n)))
  | VFloat (FInf negative) => Ret (negb negative)
  | VFloat FNaN => Ret false
  | _ => Raise TypeError
  end.

(** [[f(x) for x in xs]], stopping at the first exception. *)
Fixpoint map_res {A B} (f : A -> res B) (xs : list A) : res (list B) :=
  match xs with
  | [] => Ret []
  | x :: rest =>
      rbind (f x) (fun y => rbind (map_res f rest) (fun ys => Ret (y :: ys)))
  end.

(** ['WHERE ' + ' AND '.join(conditions) if conditions else ''] *)
Definition where_clause_of (conditions : list pystr) : pystr :=
  match conditions with
  | [] => []
  | _ => lit "WHERE " ++ join (lit " AND ") conditions
  end.

(** ['AND' if conditions else 'WHERE'] *)
Definition and_or_where (conditions : list pystr) : pystr :=
  match conditions with
  | [] => lit "WHERE"
  | _ => lit "AND"
  end.

(** Occurrences of the placeholder [%s] in a statement text. *)
Fixpoint placeholders (q : pystr) : nat :=
  match q with
  | 37%N :: ((115%N :: _) as rest) => S (placeholders rest)
  | _ :: rest => placeholders rest
  | [] => O
  end.

(** The statements a run has handed to the driver, in order. *)
Fixpoint executed (evs : list event) : list (pystr * list pyval) :=
  match evs with
  | EvExecute q ps :: rest => (q, ps) :: executed rest
  | _ :: rest => executed rest
  | [] => []
  end.

(** Events of the store: connecting, executing, committing, rolling back. *)
Definition store_event (e : event) : bool :=
  match e with
  | EvConnect | EvExecute _ _ | EvCommit | EvRollback => true
  | _ => false
  end.

Section Reads.

Variable rt : PyRuntime.
Variable cfg : Config.
Variable store : Type.
Variable drv : Driver store.

(** [round(x, 2)], a function of the interpreter on floats and decimals. *)
Variable py_round2 : pyval -> res pyval.

Notation "x <- c ;; k" := (bind c (fun x => k))
  (at level 61, c at next level, right associativity).
Notation "c ;;; k" := (bind c (fun _ => k))
  (at level 61, right associativity).

(** One optional filter of a read handler: the key it reads, the
    condition it appends, and the value it binds. *)
Record query_filter := {
  f_key : string;
  f_condition : string;
  f_bind : pyval -> res pyval
}.

(** ['k' in params and params['k']] *)
Definition present (params : pyval) (k : string) : res bool :=
  rbind (py_contains params (lit k)) (fun found =>
    if (found : bool)
    then rbind (py_getitem params (lit k)) (fun v => Ret (truthy v))
    else Ret false).

(** The sequence of [if 'k' in params and params['k']: ...] blocks: the
    conditions and the bound values, in order. *)
Fixpoint build_filters (params : pyval) (fs : list query_filter)
  : res (list pystr * list pyval) :=
  match fs with
  | [] => Ret ([], [])
  | f :: rest =>
      rbind (present params (f_key f)) (fun p =>
        if (p : bool) then
          rbind (py_getitem params (lit (f_key f))) (fun v =>
          rbind (f_bind f v) (fun bound =>
          rbind (build_filters params rest) (fun cp =>
            Ret (lit (f_condition f) :: fst cp, bound :: snd cp))))
        else build_filters params rest)
  end.

Definition as_is (v : pyval) : res pyval := Ret v.

Definition start_time_filter : query_filter :=
  {| f_key := "start_time"; f_condition := "timestamp >= %s";
     f_bind := as_is |}.

Definition end_time_filter : query_filter :=
  {| f_key := "end_time"; f_condition := "timestamp <= %s";
     f_bind := as_is |}.

Definition time_filters : list query_filter :=
  [start_time_filter; end_time_filter].

Definition access_logs_filters : list query_filter :=
  [{| f_key := "ip_address"; f_condition := "ip_address = %s";
      f_bind := as_is |};
   {| f_key := "status_code"; f_condition := "status_code = %s";
      f_bind := as_is |};
   start_time_filter;
   end_time_filter;
   {| f_key := "endpoint"; f_condition := "endpoint LIKE %s";
      f_bind := fun v => Ret (VStr (lit "%" ++ py_str rt v ++ lit "%")) |}].

Definition error_logs_filters : list query_filter :=
  [{| f_key := "log_level"; f_condition := "log_level = %s";
      f_bind := as_is |};
   {| f_key := "severity_score"; f_condition := "severity_score >= %s";
      f_bind := fun v => rbind (py_int rt v) (fun n => Ret (VInt n)) |};
   start_time_filter;
   end_time_filter;
   {| f_key := "error_code"; f_condition := "error_code = %s";
      f_bind := as_is |}].

(** [limit = params.get('limit', 100)], validated again; an invalid limit
    falls back to 100. *)
Definition handler_limit (params : pyval) : res pyval :=
  rbind (py_get params (lit "limit") (VInt 100)) (fun limit =>
  rbind (validate_limit rt cfg limit) (fun t =>
    if fst (fst t)
    then Ret (match snd (fst t) with Some n => VInt n | None => VNone end)
    else Ret (VInt 100))).

(** The statement of [handle_get_access_logs] and its bound values. *)
Definition access_logs_statement (params : pyval)
  : res (pystr * list pyval) :=
  rbind (build_filters params access_logs_filters) (fun cp =>
  rbind (handler_limit params) (fun limit_val =>
    Ret (access_logs_query (where_clause_of (fst cp)),
         snd cp ++ [limit_val]))).

Definition error_logs_statement (params : pyval)
  : res (pystr * list pyval) :=
  rbind (build_filters params error_logs_filters) (fun cp =>
  rbind (handler_limit params) (fun limit_val =>
    Ret (error_logs_query (where_clause_of (fst cp)),
         snd cp ++ [limit_val]))).

(** [{'logs': results, 'count': len(results)}] *)
Definition logs_data (results : list pydict) : pydict :=
  [(lit "logs", VList (map VDict results));
   (lit "count", VInt (Z.of_nat (List.length results)))].

Definition handle_get_access_logs (params : pyval) : M store pydict :=
  try_except
    (stmt <- lift (access_logs_statement params) ;;
     results <- execute_query drv (fst stmt) (snd stmt) ;;
     ret (success (logs_data results)))
    (fun e =>
       log Error (lit "Error in get_access_logs") (Some e) [] ;;;
       ret (failure (lit "Failed to retrieve access logs"))).

Definition handle_get_error_logs (params : pyval) : M store pydict :=
  try_except
    (stmt <- lift (error_logs_statement params) ;;
     results <- execute_query drv (fst stmt) (snd stmt) ;;
     ret (success (logs_data results)))
    (fun e =>
       log Error (lit "Error in get_error_logs") (Some e) [] ;;;
       ret (failure (lit "Failed to retrieve error logs"))).

(** *** [handle_get_security_threats] *)

(** The entry appended for a row of the brute-force query. *)
Definition brute_force_threat (row : pydict) : res pyval :=
  rbind (py_getitem (VDict row) (lit "failures")) (fun failures =>
  rbind (py_getitem (VDict row) (lit "ip_address")) (fun ip =>
    Ret (VDict
      [(lit "severity", VStr (lit "HIGH"));
       (lit "type", VStr (lit "Brute Force Attack"));
       (lit "details",
        VStr (py_str rt failures ++ lit " failed login attempts from IP " ++
              py_str rt ip));
       (lit "ip_address", ip);
       (lit "count", failures)]))).

(** The entry appended for a row of the suspicious-agent query. *)
Definition sql_injection_threat (row : pydict) : res pyval :=
  rbind (py_getitem (VDict row) (lit "user_agent")) (fun agent =>
  rbind (py_getitem (VDict row) (lit "ip_address")) (fun ip =>
  rbind (py_getitem (VDict row) (lit "endpoint")) (fun endpoint =>
    Ret (VDict
      [(lit "severity", VStr (lit "MEDIUM"));
       (lit "type", VStr (lit "SQL Injection Attempt"));
       (lit "details",
        VStr (lit "Suspicious tool detected: " ++ py_str rt agent ++
              lit " from " ++ py_str rt ip));
       (lit "ip_address", ip);
       (lit "endpoint", endpoint)])))).

(** The two statements of the handler, both over the time filters. *)
Definition brute_force_statement (cp : list pystr * list pyval)
  : pystr * list pyval :=
  (brute_force_query (where_clause_of (fst cp)) (and_or_where (fst cp)),
   snd cp).

Definition sql_injection_statement (cp : list pystr * list pyval)
  : pystr * list pyval :=
  (sql_injection_query (where_clause_of (fst cp)) (and_or_where (fst cp)),
   snd cp ++ [VStr (lit "%sqlmap%"); VStr (lit "%curl%")]).

Definition handle_get_security_threats (params : pyval) : M store pydict :=
  try_except
    (cp <- lift (build_filters params time_filters) ;;
     brute_results <-
       execute_query drv (fst (brute_force_statement cp))
                         (snd (brute_force_statement cp)) ;;
     brute <- lift (map_res brute_force_threat brute_results) ;;
     sql_results <-
       execute_query drv (fst (sql_injection_statement cp))
                         (snd (sql_injection_statement cp)) ;;
     sql <- lift (map_res sql_injection_threat sql_results) ;;
     let threats := brute ++ sql in
     ret (success [(lit "threats", VList threats);
                   (lit "count", VInt (Z.of_nat (List.length threats)))]))
    (fun e =>
       log Error (lit "Error in get_security_threats") (Some e) [] ;;;
       ret (failure (lit "Failed to detect security threats"))).

(** *** [handle_get_performance_metrics] *)

(** The time filters, then the always-present threshold condition. *)
Definition performance_statement (params : pyval)
  : res (pystr * list pyval) :=
  rbind (build_filters params time_filters) (fun cp =>
  rbind (py_get params (lit "threshold_ms") (VInt 1000)) (fun threshold =>
    Ret (performance_query
           (lit "WHERE " ++
            join (lit " AND ") (fst cp ++ [lit "response_time_ms > %s"])),
         snd cp ++ [threshold]))).

Definition performance_issue (row : pydict) : res pyval :=
  rbind (py_getitem (VDict row) (lit "endpoint")) (fun endpoint =>
  rbind (py_getitem (VDict row) (lit "avg_response_time")) (fun avg =>
  rbind (py_round2 avg) (fun rounded =>
  rbind (py_getitem (VDict row) (lit "peak_response_time")) (fun peak =>
  rbind (py_getitem (VDict row) (lit "request_count")) (fun count =>
  rbind (py_gt peak 3000) (fun slow =>
    Ret (VDict
      [(lit "endpoint", endpoint);
       (lit "avg_response_time_ms", rounded);
       (lit "peak_response_time_ms", peak);
       (lit "request_count", count);
       (lit "severity",
        VStr (if (slow : bool) then lit "HIGH" else lit "MEDIUM"))]))))))).

Definition handle_get_performance_metrics (params : pyval)
  : M store pydict :=
  try_except
    (stmt <- lift (performance_statement params) ;;
     results <- execute_query drv (fst stmt) (snd stmt) ;;
     issues <- lift (map_res performance_issue results) ;;
     ret (success [(lit "issues", VList issues);
                   (lit "count", VInt (Z.of_nat (List.length issues)))]))
    (fun e =>
       log Error (lit "Error in get_performance_metrics") (Some e) [] ;;;
       ret (failure (lit "Failed to retrieve performance metrics"))).

(** *** [handle_get_anomalies] *)

Definition anomalies_statement (params : pyval)
  : res (pystr * list pyval) :=
  rbind (build_filters params time_filters) (fun cp =>
  rbind (py_get params (lit "min_severity") (VInt 8)) (fun min_severity =>
    Ret (anomalies_query
           (lit "WHERE " ++
            join (lit " AND ") (fst cp ++ [lit "severity_score >= %s"])),
         snd cp ++ [min_severity]))).

Definition anomaly (row : pydict) : res pyval :=
  rbind (py_getitem (VDict row) (lit "timestamp")) (fun timestamp =>
  rbind (py_getitem (VDict row) (lit "error_code")) (fun error_code =>
  rbind (py_getitem (VDict row) (lit "error_message")) (fun error_message =>
  rbind (py_getitem (VDict row) (lit "severity_score")) (fun score =>
  rbind (py_ge score 9) (fun critical =>
  rbind (py_getitem (VDict row) (lit "client_ip")) (fun client_ip =>
  rbind (py_getitem (VDict row) (lit "file_path")) (fun file_path =>
    Ret (VDict
      [(lit "timestamp", VStr (py_str rt timestamp));
       (lit "error_code", error_code);
       (lit "error_message", error_message);
       (lit "severity_score", score);
       (lit "severity",
        VStr (if (critical : bool) then lit "CRITICAL" else lit "HIGH"));
       (lit "client_ip", client_ip);
       (lit "file_path", file_path)])))))))).

Definition handle_get_anomalies (params : pyval) : M store pydict :=
  try_except
    (stmt <- lift (anomalies_statement params) ;;
     results <- execute_query drv (fst stmt) (snd stmt) ;;
     anomalies <- lift (map_res anomaly results) ;;
     ret (success [(lit "anomalies", VList anomalies);
                   (lit "count", VInt (Z.of_nat (List.length anomalies)))]))
    (fun e =>
       log Error (lit "Error in get_anomalies") (Some e) [] ;;;
       ret (failure (lit "Failed to detect anomalies"))).

(** *** db_client.py: [execute_update] *)

Definition execute_update (query : pystr) (params : list pyval)
  : M store Z :=
  with_cursor drv (
    log Debug (lit "Executing update: " ++ firstn 100 query ++ lit "...")
        None [] ;;;
    cur <- cursor_execute drv query params ;;
    let affected := rowcount cur in
    log Info (lit "Update affected " ++ str_of_Z affected ++ lit " rows")
        None [] ;;;
    ret affected).

End Reads.

Arguments handle_get_access_logs rt cfg {store}.
Arguments handle_get_error_logs rt cfg {store}.
Arguments handle_get_security_threats rt {store}.
Arguments handle_get_performance_metrics {store}.
Arguments handle_get_anomalies rt {store}.
Arguments execute_update {store}.

(** The handlers modelled here, by their name in the router; the traffic
    summary, with its float arithmetic, is not among them. *)
Definition modelled_handler (rt : PyRuntime) (cfg : Config) {store}
    (drv : Driver store) (py_round2 : pyval -> res pyval) (h : handler)
  : option (pyval -> M store pydict) :=
  match h with
  | H_get_access_logs => Some (handle_get_access_logs rt cfg drv)
  | H_get_error_logs => Some (handle_get_error_logs rt cfg drv)
  | H_store_access_log => Some (handle_store_access_log drv)
  | H_store_error_log => Some (handle_store_error_log drv)
  | H_get_traffic_summary => None
  | H_get_security_threats => Some (handle_get_security_threats rt drv)
  | H_get_performance_metrics =>
      Some (handle_get_performance_metrics drv py_round2)
  | H_get_anomalies => Some (handle_get_anomalies rt drv)
  end.

(** The error text of each handler's except-clause. *)
Definition failure_text (h : handler) : pystr :=
  match h with
  | H_get_access_logs => lit "Failed to retrieve access logs"
  | H_get_error_logs => lit "Failed to retrieve error logs"
  | H_store_access_log => lit "Failed to store access log"
  | H_store_error_log => lit "Failed to store error log"
  | H_get_traffic_summary => lit "Failed to retrieve traffic summary"
  | H_get_security_threats => lit "Failed to detect security threats"
  | H_get_performance_metrics => lit "Failed to retrieve performance metrics"
  | H_get_anomalies => lit "Failed to detect anomalies"
  end.

(** * Vocabulary of the properties *)

(** ** Events *)

(** The events a run has added to the trace. *)
Definition new_events {store} (w w' : world store) : list event :=
  skipn (List.length (trace w)) (trace w').

(** What authentication may emit: the read of the credential set, and
    four log calls that carry a fixed text and no field. *)
Definition auth_event (e : event) : Prop :=
  e = EvGetApiKeys \/
  exists m msg,
    e = EvLog m msg None [] /\
    In msg [lit "API request missing x-api-key header";
            lit "No API keys configured in environment";
            lit "API key validated successfully";
            lit "Invalid API key provided"].

(** Events that are none of the store's. *)
Definition quiet (evs : list event) : Prop :=
  Forall (fun e => store_event e = false) evs.

(** A computation that only appends events that are none of the
    store's, in every world or in one. *)
Definition quiet_run {store A} (c : M store A) : Prop :=
  forall w, exists evs, snd (c w) = add_events evs w /\ quiet evs.

Definition quiet_at {store A} (c : M store A) (w : world store) : Prop :=
  exists evs, snd (c w) = add_events evs w /\ quiet evs.

(** A run that appends to the trace only events that satisfy [P]. *)
Definition emits {store A} (P : event -> Prop) (c : M store A)
    (w : world store) : Prop :=
  exists evs, trace (snd (c w)) = trace w ++ evs /\ Forall P evs.

(** Every value a computation returns satisfies [P]. *)
Definition returns {store A} (P : A -> Prop) (c : M store A) : Prop :=
  forall w a w', c w = (Ret a, w') -> P a.

(** A statement event with as many bound values as placeholders. *)
Definition well_bound (e : event) : bool :=
  match e with
  | EvExecute q ps => Nat.eqb (placeholders q) (List.length ps)
  | _ => true
  end.

(** The same, as a proposition. *)
Definition bound (e : event) : Prop := well_bound e = true.

Definition is_commit (e : event) : bool :=
  match e with EvCommit => true | _ => false end.

(** ** Validators *)

(** A dotted part that reads as an integer from 0 to 255. *)
Definition octet (rt : PyRuntime) (part : pystr) : Prop :=
  exists n, int_of_str rt part = Some n /\ 0 <= n <= 255.

(** A verdict is an acceptance without message or a rejection with
    one. *)
Definition proper (v : verdict) : Prop :=
  match v with
  | (true, None) | (false, Some _) => True
  | _ => False
  end.

Definition proper_res (r : res verdict) : Prop :=
  match r with
  | Ret v => proper v
  | Raise _ => True
  end.

(** [str(sorted(ALLOWED_INTENTS))] *)
Definition allowed_intents_text : pystr :=
  lit "['get_access_logs', 'get_anomalies', 'get_error_logs', 'get_performance_metrics', 'get_security_threats', 'get_traffic_summary', 'query_logs', 'store_access_log', 'store_error_log']".

(** The fields each write operation requires, in the order they are
    checked. *)
Definition required_fields (op : write_op) : list pystr :=
  match op with
  | StoreAccessLog =>
      [lit "timestamp"; lit "ip_address"; lit "method"; lit "endpoint";
       lit "status_code"]
  | StoreErrorLog =>
      [lit "timestamp"; lit "log_level"; lit "error_code";
       lit "error_message"]
  end.

Definition first_missing (d : pydict) (required : list pystr)
  : option pystr :=
  find (fun k => negb (dict_has d k)) required.

(** ** Logged values *)

(** Every string inside a value has at most [n] code points (keys are not
    counted). *)
Fixpoint strings_within (n : Z) (v : pyval) : bool :=
  match v with
  | VStr s => py_len s <=? n
  | VList l => forallb (strings_within n) l
  | VDict d => forallb (fun kv => strings_within n (snd kv)) d
  | _ => true
  end.

(** No key on the path is sensitive. *)
Fixpoint open_path (rt : PyRuntime) (path : list Logger.step) : bool :=
  match path with
  | [] => true
  | Logger.Key k :: rest =>
      negb (Logger.is_sensitive rt k) && open_path rt rest
  | Logger.Idx _ :: rest => open_path rt rest
  end.

(** ** The database client *)

(** A run without its value: the exception it raised, if any, and the
    world it left. *)
Definition outcome {store A} (r : res A * world store)
  : option exn * world store :=
  (match fst r with Raise e => Some e | Ret _ => None end, snd r).

(** The three operations of the client on one statement. *)
Definition statement_runs {store} (drv : Driver store)
    (query : pystr) (params : list pyval) (w : world store)
  : list (option exn * world store) :=
  [outcome (execute_query drv query params w);
   outcome (execute_insert drv query params w);
   outcome (execute_update drv query params w)].

(** What [_get_connection] logs and asks when it succeeds. *)
Definition connection_events {store} (drv : Driver store) (w : world store)
  : list event :=
  if connection w && drv_ping drv (db w) then []
  else [EvLog Info (lit "Creating new database connection") None [];
        EvConnect;
        EvLog Info (lit "Database connection established") None []].

(** The log calls of the three operations. *)
Definition query_debug (query : pystr) (params : list pyval) : event :=
  EvLog Debug (lit "Executing query: " ++ firstn 100 query ++ lit "...") None
    [(lit "params_count", VInt (Z.of_nat (List.length params)))].

Definition insert_debug (query : pystr) : event :=
  EvLog Debug (lit "Executing insert: " ++ firstn 100 query ++ lit "...")
    None [].

Definition update_debug (query : pystr) : event :=
  EvLog Debug (lit "Executing update: " ++ firstn 100 query ++ lit "...")
    None [].

Definition query_rows (cur : cursor_result) : event :=
  EvLog Debug (lit "Query returned " ++
               str_of_Z (Z.of_nat (List.length (fetchall cur))) ++
               lit " rows") None [].

Definition insert_info (cur : cursor_result) : event :=
  EvLog Info (lit "Insert successful, ID: " ++ str_of_Z (lastrowid cur))
    None [].

Definition update_info (cur : cursor_result) : event :=
  EvLog Info (lit "Update affected " ++ str_of_Z (rowcount cur) ++
              lit " rows") None [].

(** The events of a unit of work whose statement the store rejects with
    [e], and of one whose commit fails with [e]. *)
Definition rolled_back_events (first : event) (query : pystr)
    (params : list pyval) (e : exn) : list event :=
  [first; EvExecute query params; EvRollback;
   EvLog Error (lit "Database transaction rolled back") (Some e) []].

Definition failed_commit_events (query : pystr) (params : list pyval)
    (e : exn) (first second : event) : list event :=
  [first; EvExecute query params; second; EvCommit; EvRollback;
   EvLog Error (lit "Database transaction rolled back") (Some e) []].

(** ** The handlers *)

(** The filters of a list that a params dict switches on. *)
Definition switched_on (params : pyval) (f : query_filter) : bool :=
  match present params (f_key f) with
  | Ret true => true
  | _ => false
  end.

Definition conditions_of (fs : list query_filter) : list pystr :=
  map (fun f => lit (f_condition f)) fs.

(** The statements of the read handlers for one params dict. *)
Definition read_statements (rt : PyRuntime) (cfg : Config) (params : pyval)
  : list (res (pystr * list pyval)) :=
  [access_logs_statement rt cfg params;
   error_logs_statement rt cfg params;
   rbind (build_filters params time_filters)
         (fun cp => Ret (brute_force_statement cp));
   rbind (build_filters params time_filters)
         (fun cp => Ret (sql_injection_statement cp));
   performance_statement params;
   anomalies_statement params].

Definition same_text (r1 r2 : res (pystr * list pyval)) : Prop :=
  match r1, r2 with
  | Ret s1, Ret s2 => fst s1 = fst s2
  | _, _ => True
  end.

(** The statement of each of the two retrieval handlers. *)
Definition logs_statement (rt : PyRuntime) (cfg : Config) (h : handler)
  : option (pyval -> res (pystr * list pyval)) :=
  match h with
  | H_get_access_logs => Some (access_logs_statement rt cfg)
  | H_get_error_logs => Some (error_logs_statement rt cfg)
  | _ => None
  end.

(** [{key: items, 'count': len(items)}] *)
Definition listing (key : string) (items : list pyval) : pydict :=
  [(lit key, VList items);
   (lit "count", VInt (Z.of_nat (List.length items)))].

(** [{'id': log_id, 'message': message}] *)
Definition stored (message : string) (log_id : Z) : pydict :=
  [(lit "id", VInt log_id); (lit "message", VStr (lit message))].

(** The shape of what each handler puts under ['data']. *)
Definition data_schema (h : handler) (data : pydict) : Prop :=
  match h with
  | H_get_access_logs | H_get_error_logs =>
      exists rows, data = logs_data rows
  | H_store_access_log =>
      exists log_id, data = stored "Access log stored successfully" log_id
  | H_store_error_log =>
      exists log_id, data = stored "Error log stored successfully" log_id
  | H_get_traffic_summary => False
  | H_get_security_threats => exists items, data = listing "threats" items
  | H_get_performance_metrics => exists items, data = listing "issues" items
  | H_get_anomalies => exists items, data = listing "anomalies" items
  end.

(** The status codes of the gateway. *)
Definition statuses : list Z := [200; 400; 401; 405; 500].

(** A response with one of them and the fixed headers. *)
Definition answer (r : response) : Prop :=
  headers r = default_headers /\ In (statusCode r) statuses.

(** ** Further samples *)

Module Scenario.

(** [{"intent": "drop_tables"}] *)
Definition body_unknown_intent : pystr :=
  lit "{" ++ Sample.quoted "intent" ++ lit ": " ++
  Sample.quoted "drop_tables" ++ lit "}".

(** [{"intent": "get_access_logs", "params": {"limit": 1000.5}}] and the
    same with [Infinity], which [json.loads] reads as a float. *)
Definition body_limit (number : string) : pystr :=
  lit "{" ++ Sample.quoted "intent" ++ lit ": " ++
  Sample.quoted "get_access_logs" ++ lit ", " ++ Sample.quoted "params" ++
  lit ": {" ++ Sample.quoted "limit" ++ lit ": " ++ lit number ++ lit "}}".

Definition limit_request (limit : pyval) : pyval :=
  VDict [(lit "intent", VStr (lit "get_access_logs"));
         (lit "params", VDict [(lit "limit", limit)])].

(** A parser that also reads these bodies and the empty array. *)
Definition loads (body : pystr) : res pyval :=
  if str_eqb body (body_limit "1000.5") then
    Ret (limit_request (VFloat (FFinite (2001 # 2))))
  else if str_eqb body (body_limit "Infinity") then
    Ret (limit_request (VFloat (FInf false)))
  else if str_eqb body body_unknown_intent then
    Ret (VDict [(lit "intent", VStr (lit "drop_tables"))])
  else if str_eqb body (lit "[]") then Ret (VList [])
  else Sample.loads body.

Definition runtime : PyRuntime := {|
  json_loads := loads;
  int_of_str := Sample.decimal;
  str_lower := Sample.ascii_lower;
  py_repr := fun _ => lit "<object>"
|}.

(** A store that rejects every statement, one whose commit fails and one
    that refuses connections. *)
Definition rejecting_driver : Driver Sample.memory := {|
  drv_ping := fun _ => true;
  drv_connect := fun _ => None;
  drv_execute := fun q ps s => (Raise (DriverError (lit "syntax error")), s);
  drv_commit := fun s => (None, s);
  drv_rollback := fun s => s
|}.

Definition uncommitted_driver : Driver Sample.memory := {|
  drv_ping := fun _ => true;
  drv_connect := fun _ => None;
  drv_execute := drv_execute Sample.memory_driver;
  drv_commit := fun s => (Some (DriverError (lit "lock wait timeout")), s);
  drv_rollback := fun s => []
|}.

Definition down_driver : Driver Sample.memory := {|
  drv_ping := fun _ => false;
  drv_connect := fun _ => Some (DriverError (lit "connection refused"));
  drv_execute := drv_execute Sample.memory_driver;
  drv_commit := fun s => (None, s);
  drv_rollback := fun s => s
|}.

(** Params that filter on an address. *)
Definition by_address (ip : string) : pyval :=
  VDict [(lit "ip_address", VStr (lit ip))].

(** [round(x, 2)] left as it is. *)
Definition round2 (v : pyval) : res pyval := Ret v.

(** The read handlers of intents.py over the store of [Sample]; the
    traffic summary, which is not modelled, returns no rows. *)
Definition reads (h : handler) : pyval -> M Sample.memory pydict :=
  match modelled_handler runtime Sample.config Sample.memory_driver round2 h
  with
  | Some f => f
  | None => Sample.no_rows h
  end.

(** A statement and its values. *)
Definition query : pystr := lit "SELECT id FROM access_logs WHERE id = %s".

Definition values : list pyval := [VInt 7].

End Scenario.

(** * Properties *)

(** ** Strings *)

Lemma str_eqb_refl (a : pystr) : str_eqb a a = true.
Proof.
  induction a as [|x a IH]; simpl; [reflexivity|].
  now rewrite N.eqb_refl, IH.
Qed.

Lemma str_eqb_eq (a b : pystr) : str_eqb a b = true <-> a = b.
Proof.
  split.
  - revert b; induction a as [|x a IH]; intros [|y b]; simpl;
      try discriminate; [reflexivity|].
    intros H. apply andb_true_iff in H as [Hx Hab].
    apply N.eqb_eq in Hx. apply IH in Hab. now subst.
  - intros ->. apply str_eqb_refl.
Qed.

Lemma str_eqb_neq (a b : pystr) : str_eqb a b = false <-> a <> b.
Proof.
  rewrite <- str_eqb_eq. destruct (str_eqb a b); split; congruence.
Qed.

(** ** Routing *)

(** Every intent that has a handler is on the whitelist. *)
Lemma routed_intents_are_allowed (s : pystr) (h : handler) :
  dict_get INTENT_HANDLERS s = Some h -> is_allowed (VStr s) = true.
Proof.
  unfold INTENT_HANDLERS, is_allowed, ALLOWED_INTENTS. cbn [dict_get existsb].
  intros H.
  repeat match type of H with
  | (if str_eqb ?k s then _ else _) = _ =>
      destruct (str_eqb k s) eqn:E;
      [apply str_eqb_eq in E; subst s; reflexivity | clear E]
  end.
  discriminate.
Qed.

(** The one whitelisted name the router does not know is [query_logs]. *)
Lemma allowed_intents_routed_but_one (s : pystr) :
  is_allowed (VStr s) = true ->
  s = lit "query_logs" \/ exists h, dict_get INTENT_HANDLERS s = Some h.
Proof.
  unfold is_allowed, ALLOWED_INTENTS. cbn [existsb]. intros H.
  repeat (apply orb_true_iff in H as [H|H];
          [apply str_eqb_eq in H; subst s;
           first [ right; eexists; reflexivity | left; reflexivity ] |]).
  discriminate.
Qed.

(** C2: the whitelist holds [query_logs], for which the router has no
    handler: validation accepts the intent, [execute_intent] takes its
    defensive branch, and the gateway answers 500. *)
Theorem query_logs_allowed_but_unrouted :
  is_allowed (VStr (lit "query_logs")) = true /\
  lookup_handler (VStr (lit "query_logs")) = Ret None /\
  (forall rt store (drv : Driver store) rh params (w : world store),
     execute_intent rt drv rh (VStr (lit "query_logs")) params w =
     (Ret (failure (lit "No handler for intent: query_logs")), w)) /\
  (let event := {| ev_headers := Some [(lit "x-api-key", lit "alpha-key")];
                   ev_body := Some Sample.body_query_logs;
                   ev_httpMethod := Some (VStr (lit "POST"));
                   ev_sourceIp := None |} in
   fst (Sample.run event) =
   Ret (create_response 500
          [(lit "request_id", VStr Sample.request_id);
           (lit "success", VBool false);
           (lit "error", VStr (lit "No handler for intent: query_logs"))])).
Proof.
  split; [reflexivity|]. split; [reflexivity|]. split.
  - intros. reflexivity.
  - vm_compute. reflexivity.
Qed.

(** ** Credential extraction *)

(** The two spellings the code looks up. *)
Lemma extract_api_key_known_spellings (name v : pystr) :
  name = lit "x-api-key" \/ name = lit "X-Api-Key" ->
  v <> [] ->
  extract_api_key [(name, v)] = Some (strip v).
Proof.
  intros [-> | ->] Hv; destruct v as [|c v]; try congruence; reflexivity.
Qed.

(** C4: a header named [X-API-KEY] is not found, whatever its value: the
    lookup knows two spellings of the name only. *)
Theorem extract_api_key_misses_upper_case_name :
  forall v : pystr, extract_api_key [(lit "X-API-KEY", v)] = None.
Proof.
  intros v. reflexivity.
Qed.

(** ** UTF-8 is injective *)

Ltac Zify.zify_post_hook ::= Z.div_mod_to_equations.

Lemma recompose2 (c : N) : (c = 64 * (c / 64) + c mod 64)%N.
Proof. apply N.div_mod. discriminate. Qed.

Lemma recompose3 (c : N) :
  (c = 4096 * (c / 4096) + (64 * ((c / 64) mod 64) + c mod 64))%N.
Proof.
  change 4096%N with (64 * 64)%N. rewrite <- N.Div0.div_div.
  pose proof (N.div_mod c 64). pose proof (N.div_mod (c / 64) 64).
  generalize dependent (c / 64 / 64)%N. generalize dependent ((c / 64) mod 64)%N.
  generalize dependent (c mod 64)%N. generalize dependent (c / 64)%N.
  intros. lia.
Qed.

Lemma recompose4 (c : N) :
  (c = 262144 * (c / 262144) +
       (4096 * ((c / 4096) mod 64) + (64 * ((c / 64) mod 64) + c mod 64)))%N.
Proof.
  pose proof (recompose3 c) as H3.
  pose proof (N.div_mod (c / 4096) 64) as H.
  replace (c / 4096 / 64)%N with (c / 262144)%N in H
    by (rewrite N.Div0.div_div; reflexivity).
  generalize dependent (c / 262144)%N. generalize dependent ((c / 4096) mod 64)%N.
  generalize dependent ((c / 64) mod 64)%N.
  generalize dependent (c mod 64)%N. generalize dependent (c / 4096)%N.
  intros. lia.
Qed.

Lemma utf8_cp_prefix_free (c c' : N) (bs bs' r r' : list N) :
  utf8_cp c = Some bs -> utf8_cp c' = Some bs' ->
  bs ++ r = bs' ++ r' -> c = c' /\ r = r'.
Proof.
  unfold utf8_cp. intros H H'.
  repeat match type of H with
  | (if (?x <? ?y)%N then _ else _) = _ =>
      let E := fresh "E" in
      destruct (N.ltb_spec x y) as [E|E]
  end; try discriminate;
  repeat match type of H' with
  | (if (?x <? ?y)%N then _ else _) = _ =>
      let E := fresh "E" in
      destruct (N.ltb_spec x y) as [E|E]
  end; try discriminate;
  apply (f_equal (fun o => match o with Some l => l | None => [] end)) in H, H';
  cbv beta iota in H, H'; subst bs bs'; cbn [app];
  intros Heq;
  repeat match type of Heq with
  | ?x :: ?l = ?y :: ?l' =>
      let E := fresh "B" in
      assert (E : x = y) by congruence;
      assert (Heq' : l = l') by congruence;
      clear Heq; rename Heq' into Heq
  end;
  first
    [ exfalso; lia
    | split; [ lia | assumption ]
    | split; [| assumption];
      repeat match goal with
      | B : (_ + ?x = _ + ?y)%N |- _ =>
          assert (x = y) by (clear - B; lia); clear B
      end;
      first [ rewrite (recompose2 c), (recompose2 c'); congruence
            | rewrite (recompose3 c), (recompose3 c'); congruence
            | rewrite (recompose4 c), (recompose4 c'); congruence ] ].
Qed.

Lemma utf8_encode_inj (a b : pystr) (e : list N) :
  utf8_encode a = Some e -> utf8_encode b = Some e -> a = b.
Proof.
  revert b e. induction a as [|c a IH]; intros b e Ha Hb.
  - simpl in Ha. injection Ha as <-.
    destruct b as [|c' b]; [reflexivity|]. simpl in Hb.
    destruct (utf8_cp c') as [bs|] eqn:Hc; [|discriminate].
    destruct (utf8_encode b); [|discriminate].
    injection Hb as Hb. exfalso.
    unfold utf8_cp in Hc.
    repeat match type of Hc with
    | (if ?x then _ else _) = _ => destruct x
    end; try discriminate; injection Hc as <-; discriminate.
  - simpl in Ha.
    destruct (utf8_cp c) as [bs|] eqn:Hc; [|discriminate].
    destruct (utf8_encode a) as [ea|] eqn:Hea; [|discriminate].
    injection Ha as <-.
    destruct b as [|c' b].
    + simpl in Hb. injection Hb as Hb. exfalso.
      unfold utf8_cp in Hc.
      repeat match type of Hc with
      | (if ?x then _ else _) = _ => destruct x
      end; try discriminate; injection Hc as <-; discriminate.
    + simpl in Hb.
      destruct (utf8_cp c') as [bs'|] eqn:Hc'; [|discriminate].
      destruct (utf8_encode b) as [eb|] eqn:Heb; [|discriminate].
      injection Hb as Hb.
      destruct (utf8_cp_prefix_free c' c bs' bs eb ea Hc' Hc Hb) as [-> ->].
      f_equal. eapply IH; eauto.
Qed.

(** ** Constant-time comparison *)

Lemma tscmp_loop_steps (l r : list N) (acc : N) (n : nat) :
  snd (tscmp_loop l r acc n) = (n + List.length r)%nat.
Proof.
  revert l acc n. induction r as [|y r IH]; intros l acc n; simpl.
  - lia.
  - rewrite IH. lia.
Qed.

Lemma tscmp_loop_zero (l r : list N) (acc : N) (n : nat) :
  List.length l = List.length r ->
  (fst (tscmp_loop l r acc n) = 0%N <-> acc = 0%N /\ l = r).
Proof.
  revert l acc n. induction r as [|y r IH]; intros [|x l] acc n Hlen;
    simpl in Hlen; try discriminate; simpl.
  - intuition.
  - injection Hlen as Hlen. rewrite (IH l _ _ Hlen).
    rewrite N.lor_eq_0_iff, N.lxor_eq_0_iff. split.
    + intros [[-> ->] ->]. auto.
    + intros [-> H]. injection H as -> ->. auto.
Qed.

Lemma tscmp_loop_nonzero (l r : list N) (acc : N) (n : nat) :
  acc <> 0%N -> fst (tscmp_loop l r acc n) <> 0%N.
Proof.
  revert l acc n. induction r as [|y r IH]; intros l acc n H; simpl.
  - exact H.
  - apply IH. rewrite N.lor_eq_0_iff. tauto.
Qed.

Lemma compare_digest_eq (a b : list N) :
  compare_digest a b = true <-> a = b.
Proof.
  unfold compare_digest, compare_digest_steps. cbn [fst].
  rewrite N.eqb_eq.
  destruct (Nat.eqb_spec (List.length a) (List.length b)) as [E|E].
  - rewrite (tscmp_loop_zero a b 0 0 E). tauto.
  - split.
    + intros H. exfalso. revert H. now apply tscmp_loop_nonzero.
    + intros ->. congruence.
Qed.

Lemma compare_digest_steps_length (a b : list N) :
  snd (compare_digest_steps a b) = List.length b.
Proof.
  unfold compare_digest_steps. cbn [snd]. apply tscmp_loop_steps.
Qed.

Lemma constant_time_compare_unfold (a b : pystr) :
  constant_time_compare a b =
  if negb (Nat.eqb (List.length a) (List.length b)) then Ret false
  else match utf8_encode a with
       | None => Raise UnicodeEncodeError
       | Some ea =>
           match utf8_encode b with
           | None => Raise UnicodeEncodeError
           | Some eb => Ret (compare_digest ea eb)
           end
       end.
Proof.
  unfold constant_time_compare, constant_time_compare_run.
  destruct (negb _); [reflexivity|].
  destruct (utf8_encode a); [|reflexivity].
  destruct (utf8_encode b); reflexivity.
Qed.

Lemma constant_time_compare_true_iff (a b : pystr) :
  encodable a -> encodable b ->
  (constant_time_compare a b = Ret true <-> a = b).
Proof.
  rewrite constant_time_compare_unfold. unfold encodable, encodableb.
  intros Ha Hb.
  destruct (utf8_encode a) as [ea|] eqn:Ea; [|discriminate].
  destruct (utf8_encode b) as [eb|] eqn:Eb; [|discriminate].
  destruct (Nat.eqb_spec (List.length a) (List.length b)) as [E|E]; cbn [negb].
  - split.
    + intros H. injection H as H. apply compare_digest_eq in H. subst eb.
      eapply utf8_encode_inj; eauto.
    + intros ->. f_equal. apply compare_digest_eq. congruence.
  - split; [discriminate|]. intros ->. congruence.
Qed.

Lemma constant_time_compare_steps_by_length (a b : pystr) :
  encodable a ->
  snd (constant_time_compare_run a b) =
  if Nat.eqb (List.length a) (List.length b) then utf8_length b else O.
Proof.
  unfold encodable, encodableb, constant_time_compare_run, utf8_length.
  intros Ha.
  destruct (Nat.eqb (List.length a) (List.length b)); cbn [negb]; [|reflexivity].
  destruct (utf8_encode a); [|discriminate].
  destruct (utf8_encode b); [|reflexivity].
  cbn [snd]. apply compare_digest_steps_length.
Qed.

(** C9, amended: on strings that can be encoded, the comparison returns
    [True] exactly for equal strings and always returns; the iterations
    of its loop are the encoded length of the candidate when the lengths
    agree and none otherwise, whatever the contents: the same for any two
    supplied strings of one length, against any two candidates of one
    length and one encoded length. *)
Theorem constant_time_compare_correct_and_length_timed
    (a a' b b' : pystr) :
  encodable a -> encodable a' -> encodable b -> encodable b' ->
  List.length a = List.length a' ->
  List.length b = List.length b' ->
  utf8_length b = utf8_length b' ->
  (constant_time_compare a b = Ret true <-> a = b) /\
  (exists r, constant_time_compare a b = Ret r) /\
  snd (constant_time_compare_run a b) =
    snd (constant_time_compare_run a' b') /\
  snd (constant_time_compare_run a b) =
    (if Nat.eqb (List.length a) (List.length b) then utf8_length b else O).
Proof.
  intros Ha Ha' Hb Hb' Hlen Hlen' Hbytes.
  split; [now apply constant_time_compare_true_iff|].
  split.
  - rewrite constant_time_compare_unfold. unfold encodable, encodableb in *.
    destruct (negb _); [eauto|].
    destruct (utf8_encode a); [|discriminate].
    destruct (utf8_encode b); [|discriminate]. eauto.
  - rewrite !constant_time_compare_steps_by_length by assumption.
    rewrite Hlen, Hlen', Hbytes. auto.
Qed.

Lemma constant_time_compare_witness :
  let a := lit "alpha-key" in
  let a' := lit "alpha-kez" in
  let b := lit "alpha-key" in
  let b' := lit "gamma-key" in
  (constant_time_compare a b = Ret true <-> a = b) /\
  (exists r, constant_time_compare a b = Ret r) /\
  snd (constant_time_compare_run a b) =
    snd (constant_time_compare_run a' b') /\
  snd (constant_time_compare_run a b) =
    (if Nat.eqb (List.length a) (List.length b) then utf8_length b else O).
Proof.
  intros a a' b b'.
  apply (constant_time_compare_correct_and_length_timed a a' b b');
    reflexivity.
Defined.

(** C9 as stated fails.  Two candidates of one length, each compared
    with itself, take a different number of iterations when their
    encodings differ in length (here one code point each, of one and of
    two bytes); two equal strings that cannot be encoded are not answered
    [True]: the comparison raises; and the loop over the configured
    candidates stops at the first match, so a candidate after it is not
    compared, one before it is. *)
Lemma comparison_time_depends_on_candidate :
  let a := lit "a" in
  let e := [233%N] in
  let s := [55296%N] in
  List.length a = List.length e /\
  constant_time_compare a a = Ret true /\
  constant_time_compare e e = Ret true /\
  snd (constant_time_compare_run a a) <>
    snd (constant_time_compare_run e e) /\
  constant_time_compare s s = Raise UnicodeEncodeError /\
  fst (check_keys a [a; s] blank) = Ret true /\
  fst (check_keys a [s; a] blank) = Raise UnicodeEncodeError.
Proof.
  cbv zeta. split; [reflexivity|]. split; [reflexivity|].
  split; [reflexivity|]. split; [vm_compute; discriminate|].
  split; [reflexivity|]. split; reflexivity.
Qed.

(** ** Values that do not depend on the world *)

Section SameValue.
Context {s1 s2 : Type}.

Lemma same_ret {A} (a : A) : same_value (@ret s1 A a) (@ret s2 A a).
Proof. intros w1 w2. reflexivity. Qed.

Lemma same_raise {A} (e : exn) : same_value (@raise s1 A e) (@raise s2 A e).
Proof. intros w1 w2. reflexivity. Qed.

Lemma same_lift {A} (r : res A) : same_value (@lift s1 A r) (@lift s2 A r).
Proof. intros w1 w2. reflexivity. Qed.

Lemma same_emit (e : event) : same_value (@emit s1 e) (@emit s2 e).
Proof. intros w1 w2. reflexivity. Qed.

Lemma same_log m msg err kw : same_value (@log s1 m msg err kw) (@log s2 m msg err kw).
Proof. intros w1 w2. reflexivity. Qed.

Lemma same_bind {A B} (c1 : M s1 A) (c2 : M s2 A)
    (k1 : A -> M s1 B) (k2 : A -> M s2 B) :
  same_value c1 c2 -> (forall a, same_value (k1 a) (k2 a)) ->
  same_value (bind c1 k1) (bind c2 k2).
Proof.
  intros Hc Hk w1 w2. unfold bind.
  specialize (Hc w1 w2).
  destruct (c1 w1) as [[a1|e1] w1'], (c2 w2) as [[a2|e2] w2'];
    simpl in Hc; try discriminate.
  - injection Hc as ->. apply Hk.
  - simpl. now injection Hc as ->.
Qed.

Lemma same_read_api_keys cfg :
  same_value (@read_api_keys cfg s1) (@read_api_keys cfg s2).
Proof. intros w1 w2. reflexivity. Qed.

Lemma same_check_keys key keys :
  same_value (@check_keys s1 key keys) (@check_keys s2 key keys).
Proof.
  induction keys as [|k keys IH]; cbn [check_keys].
  - apply same_bind; [apply same_log|intros; apply same_ret].
  - apply same_bind; [apply same_lift|]. intros [|]; [|exact IH].
    apply same_bind; [apply same_log|intros; apply same_ret].
Qed.

Lemma same_validate_api_key cfg k :
  same_value (@validate_api_key cfg s1 k) (@validate_api_key cfg s2 k).
Proof.
  unfold validate_api_key.
  destruct k as [[|c k]|];
    try (apply same_bind; [apply same_log|intros; apply same_ret]).
  apply same_bind; [apply same_read_api_keys|]. intros [|k0 keys].
  - apply same_bind; [apply same_log|intros; apply same_ret].
  - apply same_check_keys.
Qed.

Lemma same_authenticate_request cfg headers :
  same_value (@authenticate_request cfg s1 headers)
             (@authenticate_request cfg s2 headers).
Proof.
  unfold authenticate_request.
  apply same_bind; [apply same_validate_api_key|].
  intros [|]; apply same_ret.
Qed.

Lemma same_validate_intent rt intent :
  same_value (@validate_intent rt s1 intent) (@validate_intent rt s2 intent).
Proof.
  unfold validate_intent.
  destruct (negb (truthy intent)); [apply same_ret|].
  destruct (negb (hashable intent)); [apply same_raise|].
  destruct (negb (is_allowed intent)); [|apply same_ret].
  apply same_bind; [apply same_log|intros; apply same_ret].
Qed.

Lemma same_validate_json rt body :
  same_value (@validate_json rt s1 body) (@validate_json rt s2 body).
Proof.
  unfold validate_json.
  apply same_bind; [apply same_emit|]. intros _.
  destruct (json_loads rt body) as [data|[]];
    first [apply same_ret | apply same_raise].
Qed.

Lemma same_validate_request rt cfg body intent :
  same_value (@validate_request rt cfg s1 body intent)
             (@validate_request rt cfg s2 body intent).
Proof.
  unfold validate_request.
  apply same_bind; [apply same_lift|]. intros size_ok.
  destruct (negb (fst size_ok)); [apply same_ret|].
  apply same_bind; [apply same_validate_json|].
  intros [[[|] [data|]] err]; try apply same_ret.
  apply same_bind.
  { destruct intent as [[|c s]|]; first [apply same_ret | apply same_lift]. }
  intros intent_to_check.
  apply same_bind; [apply same_validate_intent|]. intros intent_ok.
  destruct (negb (fst intent_ok)); [apply same_ret|].
  apply same_bind; [apply same_lift|]. intros params.
  apply same_bind; [apply same_lift|]. intros params_ok.
  destruct (negb (fst params_ok)); apply same_ret.
Qed.

End SameValue.

Lemma authenticate_request_value cfg headers {s} (w : world s) :
  fst (authenticate_request cfg headers w) = authenticated cfg headers.
Proof. apply same_authenticate_request. Qed.

Lemma validate_request_value rt cfg body {s} (w : world s) :
  fst (validate_request rt cfg body None w) = validated rt cfg body.
Proof. apply same_validate_request. Qed.

(** ** Dicts *)

Lemma dict_get_key_map {V W} (f : pystr -> V -> W) (d : list (pystr * V))
    (k : pystr) :
  dict_get (map (fun kv => (fst kv, f (fst kv) (snd kv))) d) k =
  option_map (f k) (dict_get d k).
Proof.
  induction d as [|[k' v] d IH]; simpl; [reflexivity|].
  destruct (str_eqb k' k) eqn:E; [|exact IH].
  apply str_eqb_eq in E. now subst.
Qed.

Lemma dict_get_app {V} (a b : list (pystr * V)) (k : pystr) :
  dict_get (a ++ b) k =
  match dict_get a k with Some v => Some v | None => dict_get b k end.
Proof.
  induction a as [|[k' v] a IH]; simpl; [reflexivity|].
  destruct (str_eqb k' k); [reflexivity|exact IH].
Qed.

Lemma dict_get_filter_keys {V} (p : pystr -> bool) (d : list (pystr * V))
    (k : pystr) :
  p k = true -> dict_get (filter (fun kv => p (fst kv)) d) k = dict_get d k.
Proof.
  intros Hk. induction d as [|[k' v] d IH]; simpl; [reflexivity|].
  destruct (str_eqb k' k) eqn:E.
  - apply str_eqb_eq in E. subst k'. rewrite Hk. simpl.
    now rewrite str_eqb_refl.
  - destruct (p k'); simpl; [rewrite E|]; exact IH.
Qed.

Lemma dict_get_update (a b : pydict) (k : pystr) :
  dict_get (dict_update a b) k =
  match dict_get b k with Some v => Some v | None => dict_get a k end.
Proof.
  unfold dict_update. rewrite dict_get_app.
  rewrite (dict_get_key_map (fun k v => get_or b k v)).
  unfold get_or. destruct (dict_get a k) as [v|] eqn:Ea; simpl.
  - destruct (dict_get b k); reflexivity.
  - rewrite (dict_get_filter_keys (fun k => negb (dict_has a k))).
    + destruct (dict_get b k); reflexivity.
    + unfold dict_has. now rewrite Ea.
Qed.

(** ** Redaction *)

Module LoggerFacts.
Import Logger.

Section WithRuntime.
Variable rt : PyRuntime.

Lemma sanitize_dict (d : pydict) :
  _sanitize rt (VDict d) =
  VDict (map (fun kv =>
                if is_sensitive rt (fst kv) then (fst kv, VStr REDACTED)
                else (fst kv, _sanitize rt (snd kv))) d).
Proof. reflexivity. Qed.

Lemma sanitize_list (l : list pyval) :
  _sanitize rt (VList l) = VList (map (_sanitize rt) l).
Proof. reflexivity. Qed.

Lemma dict_get_sanitized (d : pydict) (k : pystr) :
  dict_get (map (fun kv =>
                   if is_sensitive rt (fst kv) then (fst kv, VStr REDACTED)
                   else (fst kv, _sanitize rt (snd kv))) d) k =
  option_map (fun v => if is_sensitive rt k then VStr REDACTED
                       else _sanitize rt v)
             (dict_get d k).
Proof.
  induction d as [|[k' v] d IH]; [reflexivity|].
  cbn [map fst snd dict_get].
  destruct (is_sensitive rt k') eqn:S; cbn [dict_get];
    (destruct (str_eqb k' k) eqn:E; [|exact IH]);
    apply str_eqb_eq in E; subst k'; cbn [option_map]; now rewrite S.
Qed.

Lemma listed_name_is_sensitive (name k : pystr) :
  In name [lit "password"; lit "api_key"; lit "token"; lit "secret"] ->
  str_contains name (str_lower rt k) = true ->
  is_sensitive rt k = true.
Proof.
  intros Hin Hc. unfold is_sensitive. apply existsb_exists.
  exists name. split; [|exact Hc].
  unfold sensitive_keys. simpl in Hin |- *.
  intuition.
Qed.

(** Where the input holds a sensitive key, the sanitized value holds the
    marker: under that key, or already at an enclosing sensitive key. *)
Lemma sanitize_redacts (path : list step) :
  forall (v : pyval) (d : pydict) (k : pystr),
  resolve path v = Some (VDict d) ->
  dict_has d k = true ->
  is_sensitive rt k = true ->
  resolve (path ++ [Key k]) (_sanitize rt v) = Some (VStr REDACTED) \/
  exists p q, path = p ++ q /\
    resolve p (_sanitize rt v) = Some (VStr REDACTED).
Proof.
  induction path as [|s path IH]; intros v d k Hres Hin Hk.
  - left. simpl in Hres. injection Hres as ->.
    rewrite sanitize_dict. cbn [app resolve].
    rewrite dict_get_sanitized. unfold dict_has in Hin.
    destruct (dict_get d k); [|discriminate].
    cbn [option_map]. now rewrite Hk.
  - destruct s as [k0|i]; cbn [resolve] in Hres.
    + destruct v as [| | | | |l|d0]; try discriminate.
      destruct (dict_get d0 k0) as [x|] eqn:Ex; [|discriminate].
      rewrite sanitize_dict. cbn [app resolve].
      rewrite dict_get_sanitized, Ex. cbn [option_map].
      destruct (is_sensitive rt k0) eqn:S0.
      * right. exists [Key k0], path. split; [reflexivity|].
        cbn [resolve]. rewrite dict_get_sanitized, Ex. cbn [option_map].
        now rewrite S0.
      * destruct (IH x d k Hres Hin Hk) as [H|(p & q & -> & H)].
        -- now left.
        -- right. exists (Key k0 :: p), q. split; [reflexivity|].
           cbn [resolve]. rewrite dict_get_sanitized, Ex. cbn [option_map].
           now rewrite S0.
    + destruct v as [| | | | |l|d0]; try discriminate.
      destruct (nth_error l i) as [x|] eqn:Ex; [|discriminate].
      rewrite sanitize_list. cbn [app resolve].
      rewrite nth_error_map, Ex. cbn [option_map].
      destruct (IH x d k Hres Hin Hk) as [H|(p & q & -> & H)].
      * now left.
      * right. exists (Idx i :: p), q. split; [reflexivity|].
        cbn [resolve]. now rewrite nth_error_map, Ex.
Qed.

(** A position inside the sanitized fields is the same position inside
    the emitted record. *)
Lemma resolve_in_record (now LEVEL message : pystr) (kwargs : pydict)
    (p : list step) (x : pyval) :
  p <> [] ->
  resolve p (_sanitize rt (VDict kwargs)) = Some x ->
  resolve p (VDict (_log rt now LEVEL message kwargs)) = Some x.
Proof.
  intros Hp. destruct p as [|[k0|i] p]; [congruence| |].
  - unfold _log, sanitize_fields. rewrite sanitize_dict. cbn [resolve].
    rewrite dict_get_update.
    destruct (dict_get _ k0); [auto|discriminate].
  - rewrite sanitize_dict. discriminate.
Qed.

(** C8: wherever the fields passed to the logger hold, at any depth and
    also inside lists, a dict with a key whose lower-cased name contains
    [password], [api_key], [token] or [secret], the emitted record holds
    the redaction marker in place of that key's value, or already in
    place of an enclosing value whose key is sensitive. *)
Theorem logged_sensitive_values_are_redacted
    (now LEVEL message : pystr) (kwargs : pydict)
    (path : list step) (d : pydict) (k name : pystr) :
  In name [lit "password"; lit "api_key"; lit "token"; lit "secret"] ->
  str_contains name (str_lower rt k) = true ->
  resolve path (VDict kwargs) = Some (VDict d) ->
  dict_has d k = true ->
  let record := VDict (_log rt now LEVEL message kwargs) in
  resolve (path ++ [Key k]) record = Some (VStr REDACTED) \/
  exists p q, path = p ++ q /\ resolve p record = Some (VStr REDACTED).
Proof.
  intros Hname Hlow Hres Hin record.
  pose proof (listed_name_is_sensitive name k Hname Hlow) as Hk.
  destruct (sanitize_redacts path (VDict kwargs) d k Hres Hin Hk)
    as [H|(p & q & Hpq & H)].
  - left. apply resolve_in_record; [|exact H].
    destruct path; discriminate.
  - right. exists p, q. split; [exact Hpq|].
    apply resolve_in_record; [|exact H].
    intros ->. rewrite sanitize_dict in H. discriminate.
Qed.

End WithRuntime.

Lemma logged_sensitive_values_witness :
  let kwargs :=
    [(lit "request_id", VStr (lit "r-1"));
     (lit "user", VList [VDict [(lit "name", VStr (lit "ada"));
                                (lit "Password", VStr (lit "hunter2"))]])] in
  let record :=
    VDict (_log Sample.runtime (lit "2024-01-01T00:00:00Z") (lit "INFO")
                (lit "login") kwargs) in
  resolve [Key (lit "user"); Idx 0; Key (lit "Password")] record =
    Some (VStr REDACTED) \/
  exists p q, [Key (lit "user"); Idx 0] = p ++ q /\
    resolve p record = Some (VStr REDACTED).
Proof.
  intros kwargs record.
  apply (logged_sensitive_values_are_redacted Sample.runtime
           (lit "2024-01-01T00:00:00Z") (lit "INFO") (lit "login") kwargs
           [Key (lit "user"); Idx 0]
           [(lit "name", VStr (lit "ada"));
            (lit "Password", VStr (lit "hunter2"))]
           (lit "Password") (lit "password"));
    [simpl; tauto | reflexivity | reflexivity | reflexivity].
Defined.

End LoggerFacts.


(** ** The gateway *)

Section Gateway.
Variable rt : PyRuntime.
Variable cfg : Config.
Context {store : Type}.
Variable drv : Driver store.
Variable rh : handler -> pyval -> M store pydict.
Variable request_id : pystr.
Variable event : Event.

Lemma Config_validate_ok (w : world store) :
  missing_settings cfg = [] ->
  Config_validate cfg w = (Ret tt, add_events [EvGetApiKeys] w).
Proof.
  intros H. unfold Config_validate, bind, read_api_keys, bind, emit, ret.
  now rewrite H.
Qed.

Lemma Config_validate_missing (w : world store) :
  missing_settings cfg <> [] ->
  exists msg, Config_validate cfg w =
              (Raise (ConfigError msg), add_events [EvGetApiKeys] w).
Proof.
  intros H. unfold Config_validate, bind, read_api_keys, bind, emit, ret.
  destruct (missing_settings cfg); [congruence|]. eexists. reflexivity.
Qed.

Lemma lambda_handler_config_invalid (w : world store) :
  missing_settings cfg <> [] ->
  fst (lambda_handler rt cfg drv rh request_id event w) =
  Ret (create_response 500
         (error_body (lit "Server configuration error") request_id)).
Proof.
  intros H. destruct (Config_validate_missing w H) as [msg Hv].
  unfold lambda_handler, try_except, bind. rewrite Hv. reflexivity.
Qed.

(** Running the handler up to authentication, and the two stages. *)
Ltac enter_handler H :=
  unfold lambda_handler, try_except, bind;
  rewrite (Config_validate_ok _ H);
  cbn [ret negb fst snd]; unfold log, emit; cbn beta iota.

Ltac run_authentication Ha :=
  match goal with
  | |- context [authenticate_request ?c ?h ?w'] =>
      let Hv := fresh "Hv" in
      pose proof (authenticate_request_value c h w') as Hv;
      destruct (authenticate_request c h w') as [[[? ?]|?] ?];
      cbn [fst] in Hv; rewrite Ha in Hv;
      first [discriminate Hv | injection Hv; intros; subst]
  end.

Ltac run_validation Hval :=
  match goal with
  | |- context [validate_request ?r ?c ?b None ?w'] =>
      let Hv := fresh "Hv" in
      pose proof (validate_request_value r c b w') as Hv;
      destruct (validate_request r c b None w') as [[[[? ?] ?]|?] ?];
      cbn [fst] in Hv; rewrite Hval in Hv;
      first [discriminate Hv | injection Hv; intros; subst]
  end.

Lemma lambda_handler_unauthenticated (w : world store) (m : option pystr) :
  missing_settings cfg = [] ->
  authenticated cfg (request_headers event) = Ret (false, m) ->
  fst (lambda_handler rt cfg drv rh request_id event w) =
  Ret (create_response 401
         [(lit "error", match m with Some s => VStr s | None => VNone end);
          (lit "request_id", VStr request_id)]).
Proof.
  intros H Ha. enter_handler H. run_authentication Ha. reflexivity.
Qed.

Lemma lambda_handler_auth_crash (w : world store) (e : exn) :
  missing_settings cfg = [] ->
  authenticated cfg (request_headers event) = Raise e ->
  fst (lambda_handler rt cfg drv rh request_id event w) =
  Ret (create_response 500
         (error_body (lit "Internal server error") request_id)).
Proof.
  intros H Ha. enter_handler H. run_authentication Ha. reflexivity.
Qed.

Lemma lambda_handler_method_not_allowed (w : world store) m :
  missing_settings cfg = [] ->
  authenticated cfg (request_headers event) = Ret (true, m) ->
  py_eq_str (request_method event) (lit "POST") = false ->
  fst (lambda_handler rt cfg drv rh request_id event w) =
  Ret (create_response 405
         (error_body (lit "Method not allowed. Use POST.") request_id)).
Proof.
  intros H Ha Hm. enter_handler H. run_authentication Ha.
  rewrite Hm. reflexivity.
Qed.

Lemma lambda_handler_validation_rejected (w : world store) m x err :
  missing_settings cfg = [] ->
  authenticated cfg (request_headers event) = Ret (true, m) ->
  py_eq_str (request_method event) (lit "POST") = true ->
  validated rt cfg (request_body event) = Ret (false, x, err) ->
  fst (lambda_handler rt cfg drv rh request_id event w) =
  Ret (create_response 400
         [(lit "error", match err with Some s => VStr s | None => VNone end);
          (lit "request_id", VStr request_id)]).
Proof.
  intros H Ha Hm Hval. enter_handler H. run_authentication Ha.
  rewrite Hm. cbn [negb]. run_validation Hval. reflexivity.
Qed.

Lemma lambda_handler_validation_crash (w : world store) m e :
  missing_settings cfg = [] ->
  authenticated cfg (request_headers event) = Ret (true, m) ->
  py_eq_str (request_method event) (lit "POST") = true ->
  validated rt cfg (request_body event) = Raise e ->
  fst (lambda_handler rt cfg drv rh request_id event w) =
  Ret (create_response 500
         (error_body (lit "Internal server error") request_id)).
Proof.
  intros H Ha Hm Hval. enter_handler H. run_authentication Ha.
  rewrite Hm. cbn [negb]. run_validation Hval. reflexivity.
Qed.

Lemma lambda_handler_executes (w : world store) m parsed err intent params n :
  let data := match parsed with Some d => d | None => VNone end in
  missing_settings cfg = [] ->
  authenticated cfg (request_headers event) = Ret (true, m) ->
  py_eq_str (request_method event) (lit "POST") = true ->
  validated rt cfg (request_body event) = Ret (true, parsed, err) ->
  py_get data (lit "intent") VNone = Ret intent ->
  py_get data (lit "params") (VDict []) = Ret params ->
  py_len_val params = Ret n ->
  exists w1,
    fst (lambda_handler rt cfg drv rh request_id event w) =
    Ret (execution_response request_id (fst (execute_intent rt drv rh intent params w1))).
Proof.
  intros data H Ha Hm Hval Hi Hp Hn. enter_handler H. run_authentication Ha.
  rewrite Hm. cbn [negb]. run_validation Hval. fold data.
  rewrite Hi, Hp. unfold lift. rewrite Hn.
  match goal with
  | |- context [execute_intent rt drv rh intent params ?w'] =>
      exists w'; destruct (execute_intent rt drv rh intent params w')
        as [[result|e] w3]
  end; reflexivity.
Qed.

Lemma lambda_handler_admission_crash (w : world store) m parsed err :
  let data := match parsed with Some d => d | None => VNone end in
  missing_settings cfg = [] ->
  authenticated cfg (request_headers event) = Ret (true, m) ->
  py_eq_str (request_method event) (lit "POST") = true ->
  validated rt cfg (request_body event) = Ret (true, parsed, err) ->
  (forall intent params,
     py_get data (lit "intent") VNone = Ret intent ->
     rbind (py_get data (lit "params") (VDict []))
           (fun params => rbind (py_len_val params) (fun _ => Ret params))
       = Ret params -> False) ->
  fst (lambda_handler rt cfg drv rh request_id event w) =
  Ret (create_response 500
         (error_body (lit "Internal server error") request_id)).
Proof.
  intros data H Ha Hm Hval Hno. enter_handler H. run_authentication Ha.
  rewrite Hm. cbn [negb]. run_validation Hval. fold data. unfold lift.
  destruct (py_get data (lit "intent") VNone) as [intent|e1]; [|reflexivity].
  destruct (py_get data (lit "params") (VDict [])) as [params|e2];
    [|reflexivity].
  destruct (py_len_val params) as [n|e3] eqn:En; [|reflexivity].
  exfalso. apply (Hno intent params); [reflexivity|].
  cbn [rbind]. now rewrite En.
Qed.

Lemma status_of_execution_response (outcome : res pydict) :
  statusCode (execution_response request_id outcome) =
  status_of (execution_state outcome).
Proof.
  destruct outcome as [result|e]; [|reflexivity]. simpl.
  destruct (truthy _); reflexivity.
Qed.

(** C1, amended: the response carries the status of the first applicable
    state in the order of the code, which [first_state] follows: ConfigInvalid,
    Unauthenticated, MethodNotAllowed, ValidationRejected, then the
    handler's ExecutionFailed or Success; an exception outside the
    handlers gives 500.  So a call that is not a POST gets 405 only once
    its credential has been accepted. *)
Theorem gateway_stops_at_first_applicable_state (w : world store) :
  exists r w1,
    fst (lambda_handler rt cfg drv rh request_id event w) = Ret r /\
    statusCode r =
    status_of
      match first_state rt cfg event with
      | Stopped s => s
      | Proceeds intent params =>
          execution_state (fst (execute_intent rt drv rh intent params w1))
      end.
Proof.
  unfold first_state.
  destruct (missing_settings cfg) as [|x xs] eqn:Hc.
  2:{ eexists; exists w; split;
        [apply lambda_handler_config_invalid; congruence | reflexivity]. }
  destruct (authenticated cfg (request_headers event)) as [[[|] m]|e] eqn:Ha.
  3:{ eexists; exists w; split;
        [eapply lambda_handler_auth_crash; eauto | reflexivity]. }
  2:{ eexists; exists w; split;
        [eapply lambda_handler_unauthenticated; eauto | reflexivity]. }
  destruct (py_eq_str (request_method event) (lit "POST")) eqn:Hm; cbn [negb].
  2:{ eexists; exists w; split;
        [eapply lambda_handler_method_not_allowed; eauto | reflexivity]. }
  destruct (validated rt cfg (request_body event))
    as [[[[|] parsed] err]|e] eqn:Hv.
  3:{ eexists; exists w; split;
        [eapply lambda_handler_validation_crash; eauto | reflexivity]. }
  2:{ eexists; exists w; split;
        [eapply lambda_handler_validation_rejected; eauto | reflexivity]. }
  cbv zeta. set (data := match parsed with Some d => d | None => VNone end).
  destruct (py_get data (lit "intent") VNone) as [intent|e1] eqn:Hi.
  2:{ subst data; eexists; exists w; split;
        [eapply lambda_handler_admission_crash; eauto; cbv zeta; congruence
        |reflexivity]. }
  destruct (py_get data (lit "params") (VDict [])) as [params|e2] eqn:Hp;
    cbn [rbind].
  2:{ subst data; eexists; exists w; split;
        [eapply lambda_handler_admission_crash; eauto;
         cbv zeta; intros i p _; rewrite Hp; discriminate
        |reflexivity]. }
  destruct (py_len_val params) as [n|e3] eqn:Hn; cbn [rbind].
  2:{ subst data; eexists; exists w; split;
        [eapply lambda_handler_admission_crash; eauto;
         cbv zeta; intros i p _; rewrite Hp; cbn [rbind]; rewrite Hn;
         discriminate
        |reflexivity]. }
  subst data.
  destruct (lambda_handler_executes w _ _ _ _ _ _ Hc Ha Hm Hv Hi Hp Hn)
    as [w1 Hr].
  eexists; exists w1; split; [exact Hr|].
  apply status_of_execution_response.
Qed.

End Gateway.

(** C1 as stated fails: a GET without a credential is answered 401, the
    credential being checked before the method. *)
Lemma non_post_without_credential_is_401 :
  let event := {| ev_headers := None; ev_body := None;
                  ev_httpMethod := Some (VStr (lit "GET"));
                  ev_sourceIp := None |} in
  py_eq_str (request_method event) (lit "POST") = false /\
  exists r, fst (Sample.run event) = Ret r /\
            statusCode r = 401 /\ statusCode r <> 405.
Proof.
  split; [reflexivity|].
  eexists. split; [vm_compute; reflexivity|].
  split; [reflexivity|discriminate].
Qed.

(** A null [httpMethod] is no ['POST'] either: with an accepted credential
    the call is answered 405. *)
Remark null_method_is_answered_405 :
  let event := {| ev_headers := Some [(lit "x-api-key", lit "alpha-key")];
                  ev_body := None;
                  ev_httpMethod := Some VNone;
                  ev_sourceIp := None |} in
  fst (Sample.run event) =
  Ret (create_response 405
         (error_body (lit "Method not allowed. Use POST.")
            Sample.request_id)).
Proof. vm_compute. reflexivity. Qed.

(** ** Admission: credential, payload size, limit, empty body *)

Section Admission.
Variable rt : PyRuntime.
Variable cfg : Config.
Context {store : Type}.
Variable drv : Driver store.
Variable rh : handler -> pyval -> M store pydict.
Variable request_id : pystr.
Variable event : Event.

Lemma authenticate_without_key {s} (headers : headers_t) (w : world s) :
  extract_api_key headers = None ->
  authenticate_request cfg headers w =
  (Ret (false, Some unauthorized),
   add_events
     [EvLog Warning (lit "API request missing x-api-key header") None []] w).
Proof.
  intros H. unfold authenticate_request. rewrite H. reflexivity.
Qed.

Lemma authenticate_without_configured_keys {s} (cfg0 : Config)
    (headers : headers_t) (w : world s) :
  get_api_keys cfg0 = [] ->
  fst (authenticate_request cfg0 headers w) = Ret (false, Some unauthorized).
Proof.
  intros H. unfold authenticate_request, validate_api_key.
  destruct (extract_api_key headers) as [[|c key]|]; try reflexivity.
  unfold bind at 1 2. unfold read_api_keys, bind, emit, ret.
  rewrite H. reflexivity.
Qed.

(** C7: when no credential can be extracted from the headers,
    authentication fails after one warning, no event of the credential
    set being read; the gateway, its configuration valid, answers 401
    with the fixed error text; and with an empty credential set
    authentication fails for every request. *)
Theorem missing_credential_is_rejected (w : world store) :
  missing_settings cfg = [] ->
  extract_api_key (request_headers event) = None ->
  authenticate_request cfg (request_headers event) w =
    (Ret (false, Some unauthorized),
     add_events
       [EvLog Warning (lit "API request missing x-api-key header") None []]
       w) /\
  fst (lambda_handler rt cfg drv rh request_id event w) =
    Ret (create_response 401
           [(lit "error", VStr unauthorized);
            (lit "request_id", VStr request_id)]) /\
  (forall (cfg0 : Config) (headers0 : headers_t) (w0 : world store),
     get_api_keys cfg0 = [] ->
     fst (authenticate_request cfg0 headers0 w0) =
     Ret (false, Some unauthorized)).
Proof.
  intros Hc Hk. split; [now apply authenticate_without_key|]. split.
  - apply (lambda_handler_unauthenticated rt cfg drv rh request_id event w
             (Some unauthorized) Hc).
    unfold authenticated. now rewrite authenticate_without_key.
  - intros cfg0 headers0 w0 H0.
    now apply authenticate_without_configured_keys.
Qed.

Lemma validate_request_oversized {s} (body : pystr) (bytes : list N)
    (intent : option pystr) (w : world s) :
  utf8_encode body = Some bytes ->
  Z.of_nat (List.length bytes) > MAX_PAYLOAD_SIZE cfg ->
  validate_request rt cfg body intent w =
  (Ret (false, None,
        Some (payload_too_large (Z.of_nat (List.length bytes))
                                (MAX_PAYLOAD_SIZE cfg))), w).
Proof.
  intros He Hs. unfold validate_request, bind, lift, validate_payload_size.
  rewrite He.
  destruct (Z.gtb_spec (Z.of_nat (List.length bytes)) (MAX_PAYLOAD_SIZE cfg));
    [reflexivity|lia].
Qed.

(** C6: a body whose UTF-8 encoding is longer than the configured maximum
    is rejected by [validate_request] with the world unchanged, so before
    any [json.loads], with a message that names both sizes; the gateway
    answers 400 with it. *)
Theorem oversized_payload_rejected_before_parsing
    (body : pystr) (bytes : list N) (w : world store) :
  missing_settings cfg = [] ->
  authenticated cfg (request_headers event) = Ret (true, None) ->
  request_method event = VStr (lit "POST") ->
  request_body event = body ->
  utf8_encode body = Some bytes ->
  Z.of_nat (List.length bytes) > MAX_PAYLOAD_SIZE cfg ->
  let msg := payload_too_large (Z.of_nat (List.length bytes))
                               (MAX_PAYLOAD_SIZE cfg) in
  (forall (intent : option pystr) (w0 : world store),
     validate_request rt cfg body intent w0 =
     (Ret (false, None, Some msg), w0)) /\
  fst (lambda_handler rt cfg drv rh request_id event w) =
    Ret (create_response 400
           [(lit "error", VStr msg); (lit "request_id", VStr request_id)]).
Proof.
  intros Hc Ha Hm Hb He Hs msg. split.
  - intros intent w0. now apply validate_request_oversized.
  - apply (lambda_handler_validation_rejected rt cfg drv rh request_id event
             w None None (Some msg) Hc Ha).
    + rewrite Hm. apply str_eqb_refl.
    + unfold validated. rewrite Hb.
      now rewrite (validate_request_oversized body bytes None blank He Hs).
Qed.

Lemma validate_payload_size_ok (body : pystr) (bytes : list N) :
  utf8_encode body = Some bytes ->
  Z.of_nat (List.length bytes) <= MAX_PAYLOAD_SIZE cfg ->
  validate_payload_size cfg body = Ret accept.
Proof.
  intros He Hs. unfold validate_payload_size. rewrite He.
  destruct (Z.gtb_spec (Z.of_nat (List.length bytes)) (MAX_PAYLOAD_SIZE cfg));
    [lia|reflexivity].
Qed.



Lemma allowed_intent_is_name (intent : pyval) :
  is_allowed intent = true ->
  truthy intent = true /\ hashable intent = true.
Proof.
  destruct intent as [| | | |s| |]; try discriminate.
  unfold is_allowed, ALLOWED_INTENTS. cbn [existsb]. intros H.
  repeat (apply orb_true_iff in H as [H|H];
          [apply str_eqb_eq in H; subst s; split; reflexivity |]).
  discriminate.
Qed.

Lemma validate_limit_above_maximum (limit : pyval) (n : Z) :
  py_int rt limit = Ret n ->
  n > MAX_QUERY_LIMIT cfg ->
  0 <= MAX_QUERY_LIMIT cfg ->
  validate_limit rt cfg limit =
  Ret (false, None, Some (limit_exceeds (MAX_QUERY_LIMIT cfg))).
Proof.
  intros Hi Hn Hmax. unfold validate_limit. rewrite Hi.
  destruct limit; try discriminate;
    (destruct (Z.ltb_spec n 1); [lia|]);
    (destruct (Z.gtb_spec n (MAX_QUERY_LIMIT cfg)); [reflexivity|lia]).
Qed.

Lemma validate_intent_params_limit_above_maximum
    (intent : pyval) (params : pydict) (limit : pyval) (n : Z) :
  dict_get params (lit "limit") = Some limit ->
  py_int rt limit = Ret n ->
  n > MAX_QUERY_LIMIT cfg ->
  0 <= MAX_QUERY_LIMIT cfg ->
  validate_intent_params rt cfg intent (VDict params) =
  Ret (reject (limit_exceeds (MAX_QUERY_LIMIT cfg))).
Proof.
  intros Hl Hi Hn Hmax.
  unfold validate_intent_params, and_then, check_if_present at 1.
  unfold py_contains, py_getitem, dict_has. rewrite Hl. cbn [rbind].
  unfold check_limit. rewrite (validate_limit_above_maximum limit n Hi Hn Hmax).
  reflexivity.
Qed.

Lemma validated_limit_above_maximum
    (body : pystr) (bytes : list N) (data params : pydict)
    (intent limit : pyval) (n : Z) :
  utf8_encode body = Some bytes ->
  Z.of_nat (List.length bytes) <= MAX_PAYLOAD_SIZE cfg ->
  json_loads rt body = Ret (VDict data) ->
  dict_get data (lit "intent") = Some intent ->
  is_allowed intent = true ->
  dict_get data (lit "params") = Some (VDict params) ->
  dict_get params (lit "limit") = Some limit ->
  py_int rt limit = Ret n ->
  n > MAX_QUERY_LIMIT cfg ->
  0 <= MAX_QUERY_LIMIT cfg ->
  validated rt cfg body =
  Ret (false, None, Some (limit_exceeds (MAX_QUERY_LIMIT cfg))).
Proof.
  intros He Hs Hj Hin Hal Hp Hl Hi Hn Hmax.
  destruct (allowed_intent_is_name intent Hal) as [Ht Hh].
  unfold validated, validate_request, bind, lift.
  rewrite (validate_payload_size_ok body bytes He Hs).
  cbn [fst negb accept]. unfold validate_json, bind, emit. rewrite Hj.
  cbn [ret py_get]. unfold get_or. rewrite Hin, Hp.
  unfold validate_intent. rewrite Ht, Hh, Hal. cbn [negb ret accept fst].
  rewrite (validate_intent_params_limit_above_maximum
             intent params limit n Hl Hi Hn Hmax).
  reflexivity.
Qed.

(** X28: a limit whose integer value [int(limit)] exceeds the configured
    maximum is rejected by [validate_limit] without a parsed value, by
    [validate_intent_params] and by [validate_request], with a message that
    names the maximum; the gateway answers 400 with it. *)
Theorem limit_above_maximum_is_rejected
    (bytes : list N) (data params : pydict) (intent limit : pyval) (n : Z)
    (w : world store) :
  missing_settings cfg = [] ->
  authenticated cfg (request_headers event) = Ret (true, None) ->
  request_method event = VStr (lit "POST") ->
  utf8_encode (request_body event) = Some bytes ->
  Z.of_nat (List.length bytes) <= MAX_PAYLOAD_SIZE cfg ->
  json_loads rt (request_body event) = Ret (VDict data) ->
  dict_get data (lit "intent") = Some intent ->
  is_allowed intent = true ->
  dict_get data (lit "params") = Some (VDict params) ->
  dict_get params (lit "limit") = Some limit ->
  py_int rt limit = Ret n ->
  n > MAX_QUERY_LIMIT cfg ->
  0 <= MAX_QUERY_LIMIT cfg ->
  let msg := limit_exceeds (MAX_QUERY_LIMIT cfg) in
  validate_limit rt cfg limit = Ret (false, None, Some msg) /\
  validate_intent_params rt cfg intent (VDict params) = Ret (reject msg) /\
  validated rt cfg (request_body event) = Ret (false, None, Some msg) /\
  fst (lambda_handler rt cfg drv rh request_id event w) =
    Ret (create_response 400
           [(lit "error", VStr msg); (lit "request_id", VStr request_id)]).
Proof.
  intros Hc Ha Hm He Hs Hj Hin Hal Hp Hl Hi Hn Hmax msg.
  assert (Hv : validated rt cfg (request_body event) =
               Ret (false, None, Some msg))
    by (eapply validated_limit_above_maximum; eauto).
  split; [now apply (validate_limit_above_maximum limit n)|].
  split; [now apply (validate_intent_params_limit_above_maximum
                       intent params limit n)|].
  split; [exact Hv|].
  apply (lambda_handler_validation_rejected rt cfg drv rh request_id event
           w None None (Some msg) Hc Ha); [|exact Hv].
  rewrite Hm. apply str_eqb_refl.
Qed.

End Admission.

Lemma missing_credential_witness :
  extract_api_key (request_headers Sample.anonymous_post) = None /\
  fst (Sample.run Sample.anonymous_post) =
    Ret (create_response 401
           [(lit "error", VStr unauthorized);
            (lit "request_id", VStr Sample.request_id)]).
Proof.
  split; [reflexivity|].
  apply (missing_credential_is_rejected Sample.runtime Sample.config
           Sample.memory_driver Sample.no_rows Sample.request_id
           Sample.anonymous_post Sample.cold);
    reflexivity.
Defined.

Lemma oversized_payload_witness :
  let event := Sample.post (Some Sample.body_limit_5000) in
  fst (lambda_handler Sample.runtime Sample.tight_config
         Sample.memory_driver Sample.no_rows Sample.request_id event
         Sample.cold) =
  Ret (create_response 400
         [(lit "error", VStr (payload_too_large 56 16));
          (lit "request_id", VStr Sample.request_id)]).
Proof.
  intros event.
  refine (proj2 (oversized_payload_rejected_before_parsing Sample.runtime
            Sample.tight_config Sample.memory_driver Sample.no_rows
            Sample.request_id event Sample.body_limit_5000
            Sample.body_limit_5000 Sample.cold _ _ _ _ _ _));
    reflexivity.
Defined.


Lemma limit_above_maximum_witness :
  let event := Sample.post (Some Sample.body_limit_5000) in
  fst (Sample.run event) =
  Ret (create_response 400
         [(lit "error", VStr (limit_exceeds 1000));
          (lit "request_id", VStr Sample.request_id)]).
Proof.
  intros event.
  refine (proj2 (proj2 (proj2
            (limit_above_maximum_is_rejected Sample.runtime Sample.config
               Sample.memory_driver Sample.no_rows Sample.request_id event
               Sample.body_limit_5000 _ _ _ (VInt 5000) 5000 Sample.cold
               _ _ _ _ _ _ _ _ _ _ _ _ _))));
    first [reflexivity | simpl; lia].
Defined.

(** Outside that hypothesis: [int()] truncates a float before the limit is
    compared, and has no value for an infinite one. *)
Remark validate_limit_truncates_fraction :
  validate_limit Sample.runtime Sample.config (VFloat (FFinite (2001 # 2))) =
  Ret (true, Some 1000, None).
Proof. reflexivity. Qed.

Remark validate_limit_infinite_raises (rt : PyRuntime) (cfg : Config)
    (negative : bool) :
  validate_limit rt cfg (VFloat (FInf negative)) = Raise OverflowError.
Proof. reflexivity. Qed.

(** C5: the claim fails on the code for a limit that is no integer.  A
    limit of 1000.5 exceeds the maximum of 1000; [int()] truncates it, so
    validation accepts it, the gateway answers 200 and the handler binds
    [LIMIT 1000]: the limit is clamped down to the maximum.  An infinite
    limit is not rejected either: [int()] raises [OverflowError], which
    [validate_limit] does not catch, and the gateway answers 500. *)
Theorem fractional_limit_above_maximum_is_clamped :
  let limit := VFloat (FFinite (2001 # 2)) in
  let event := Sample.post (Some (Scenario.body_limit "1000.5")) in
  let unbounded := Sample.post (Some (Scenario.body_limit "Infinity")) in
  let run event :=
    lambda_handler Scenario.runtime Sample.config Sample.memory_driver
      Scenario.reads Sample.request_id event Sample.cold in
  json_loads Scenario.runtime (request_body event) =
    Ret (Scenario.limit_request limit) /\
  py_gt limit (MAX_QUERY_LIMIT Sample.config) = Ret true /\
  validate_limit Scenario.runtime Sample.config limit =
    Ret (true, Some 1000, None) /\
  fst (run event) =
    Ret (create_response 200
           [(lit "request_id", VStr Sample.request_id);
            (lit "success", VBool true);
            (lit "data", VDict (logs_data []))]) /\
  executed (trace (snd (run event))) =
    [(access_logs_query [], [VInt 1000])] /\
  json_loads Scenario.runtime (request_body unbounded) =
    Ret (Scenario.limit_request (VFloat (FInf false))) /\
  fst (run unbounded) =
    Ret (create_response 500
           (error_body (lit "Internal server error") Sample.request_id)).
Proof.
  cbv zeta. repeat split; vm_compute; reflexivity.
Qed.

(** ** Write operations *)

Lemma read_fields_dict (d : pydict) (fs : list field) :
  (forall k, In (Mandatory k) fs -> dict_has d (lit k) = true) ->
  read_fields (VDict d) fs = Ret (map (bound_value d) fs).
Proof.
  induction fs as [|f fs IH]; intros Hm; [reflexivity|].
  cbn [read_fields map].
  assert (Hf : read_field (VDict d) f = Ret (bound_value d f)).
  { destruct f as [k|k default]; [|reflexivity].
    specialize (Hm k (or_introl eq_refl)).
    unfold read_field, py_getitem, bound_value, get_or, dict_has in *.
    destruct (dict_get d (lit k)); [reflexivity|discriminate]. }
  rewrite Hf. cbn [rbind]. rewrite IH; [reflexivity|].
  intros k Hk. apply Hm. now right.
Qed.

Lemma and_then_accept (c k : res verdict) :
  and_then c k = Ret accept ->
  (exists m, c = Ret (true, m)) /\ k = Ret accept.
Proof.
  unfold and_then, rbind. destruct c as [[[|] m]|e]; cbn [fst snd].
  - intros H. split; [eauto|exact H].
  - discriminate.
  - discriminate.
Qed.

Lemma check_required_accept (d : pydict) (required : list pystr)
    (m : option pystr) :
  check_required (VDict d) required = Ret (true, m) ->
  forall k, In k required -> dict_has d k = true.
Proof.
  induction required as [|f required IH]; intros H k Hk; [destruct Hk|].
  cbn [check_required py_contains rbind] in H.
  destruct (dict_has d f) eqn:Hf; [|discriminate].
  destruct Hk as [<-|Hk]; [exact Hf|]. now apply IH.
Qed.

Lemma validated_write_has_mandatory rt cfg (op : write_op) (d : pydict) :
  validate_intent_params rt cfg (VStr (op_intent op)) (VDict d) = Ret accept ->
  forall k, In (Mandatory k) (op_fields op) -> dict_has d (lit k) = true.
Proof.
  intros H. unfold validate_intent_params in H.
  apply and_then_accept in H as [_ H].
  destruct op.
  - change (intent_is (VStr (op_intent StoreAccessLog)) "get_access_logs")
      with false in H.
    change (intent_is (VStr (op_intent StoreAccessLog)) "store_access_log")
      with true in H.
    cbv iota in H. apply and_then_accept in H as [[m Hr] _].
    intros k Hk. apply (check_required_accept d _ m Hr).
    cbn in Hk |- *.
    repeat (destruct Hk as [Hk|Hk];
            [first [discriminate Hk | injection Hk as <-; tauto]|]).
    destruct Hk.
  - change (intent_is (VStr (op_intent StoreErrorLog)) "get_access_logs")
      with false in H.
    change (intent_is (VStr (op_intent StoreErrorLog)) "store_access_log")
      with false in H.
    change (intent_is (VStr (op_intent StoreErrorLog)) "store_error_log")
      with true in H.
    cbv iota in H. apply and_then_accept in H as [[m Hr] _].
    intros k Hk. apply (check_required_accept d _ m Hr).
    cbn in Hk |- *.
    repeat (destruct Hk as [Hk|Hk];
            [first [discriminate Hk | injection Hk as <-; tauto]|]).
    destruct Hk.
Qed.

(** A validated write request carries a dict: the required fields are
    read with [params[...]], which only a dict answers. *)
Lemma validated_write_params_is_dict rt cfg (op : write_op) (params : pyval) :
  validate_intent_params rt cfg (VStr (op_intent op)) params = Ret accept ->
  exists d, params = VDict d.
Proof.
  intros H. unfold validate_intent_params in H.
  apply and_then_accept in H as [_ H].
  destruct op.
  - change (intent_is (VStr (op_intent StoreAccessLog)) "get_access_logs")
      with false in H.
    change (intent_is (VStr (op_intent StoreAccessLog)) "store_access_log")
      with true in H.
    cbv iota in H. apply and_then_accept in H as [_ H].
    apply and_then_accept in H as [[m Hr] _].
    destruct params; try discriminate. eauto.
  - change (intent_is (VStr (op_intent StoreErrorLog)) "get_access_logs")
      with false in H.
    change (intent_is (VStr (op_intent StoreErrorLog)) "store_access_log")
      with false in H.
    change (intent_is (VStr (op_intent StoreErrorLog)) "store_error_log")
      with true in H.
    cbv iota in H. apply and_then_accept in H as [_ H].
    apply and_then_accept in H as [[m Hr] _].
    destruct params; try discriminate. eauto.
Qed.

Section Writes.
Context {store : Type}.
Variable drv : Driver store.

(** After [_get_connection] has succeeded the store is as before. *)
Lemma _get_connection_connects (w : world store) :
  connects drv w = true ->
  exists w', _get_connection drv w = (Ret tt, w') /\ db w' = db w /\
             exists evs, trace w' = trace w ++ evs.
Proof.
  unfold connects, _get_connection, bind, get_world. intros H.
  destruct (connection w && drv_ping drv (db w)) eqn:Hlive.
  - exists w. split; [reflexivity|]. split; [reflexivity|].
    exists []. now rewrite app_nil_r.
  - cbn [orb] in H.
    destruct (drv_connect drv (db w)) as [e|] eqn:Hconn; [discriminate|].
    unfold set_connection, log, emit. cbn.
    eexists. split; [reflexivity|]. split; [reflexivity|]. cbn.
    rewrite <- !app_assoc. eexists. reflexivity.
Qed.

Lemma execute_insert_returns_lastrowid
    (query : pystr) (qp : list pyval) (w : world store)
    (cur : cursor_result) (s s' : store) :
  connects drv w = true ->
  drv_execute drv query qp (db w) = (Ret cur, s) ->
  drv_commit drv s = (None, s') ->
  exists w', execute_insert drv query qp w = (Ret (lastrowid cur), w') /\
             In (EvExecute query qp) (trace w').
Proof.
  intros Hc He Hcommit.
  destruct (_get_connection_connects w Hc) as (w1 & Hw1 & Hdb & evs & Htr).
  unfold execute_insert, with_cursor, bind at 1. rewrite Hw1.
  unfold try_except, bind, log, emit, cursor_execute, bind, emit, get_world.
  cbn [db trace connection]. rewrite Hdb, He.
  unfold set_db, lift, commit, bind, emit, get_world.
  unfold ret. cbn [db trace connection]. rewrite Hcommit. cbn.
  eexists. split; [reflexivity|]. cbn [trace].
  rewrite !in_app_iff. cbn. tauto.
Qed.

(** C3, amended: for a validated write request the statement is executed
    with one bound value per field; an optional field that is absent is
    bound with its default, which is null for all but [severity_score] of
    [store_error_log], whose default is 5; and when the store executes and
    commits the insert, the handler returns the row identifier the cursor
    reports. *)
Theorem write_binds_defaults_and_returns_id
    (rt : PyRuntime) (cfg : Config) (op : write_op) (d : pydict)
    (w : world store) (cur : cursor_result) (s s' : store) :
  validate_intent_params rt cfg (VStr (op_intent op)) (VDict d) = Ret accept ->
  connects drv w = true ->
  drv_execute drv (op_query op) (map (bound_value d) (op_fields op)) (db w) =
    (Ret cur, s) ->
  drv_commit drv s = (None, s') ->
  let qp := map (bound_value d) (op_fields op) in
  read_fields (VDict d) (op_fields op) = Ret qp /\
  (forall k default,
     In (Optional k default) (op_fields op) ->
     (dict_get d (lit k) = None ->
      bound_value d (Optional k default) = default) /\
     (default = VNone \/
      op = StoreErrorLog /\ k = "severity_score"%string /\
      default = VInt 5)) /\
  In (EvExecute (op_query op) qp)
     (trace (snd (op_handler drv op (VDict d) w))) /\
  fst (op_handler drv op (VDict d) w) =
    Ret (success [(lit "id", VInt (lastrowid cur));
                  (lit "message", VStr (op_message op))]).
Proof.
  intros Hv Hc He Hcommit qp.
  assert (Hr : read_fields (VDict d) (op_fields op) = Ret qp)
    by (apply read_fields_dict, (validated_write_has_mandatory rt cfg); exact Hv).
  split; [exact Hr|]. split.
  - intros k default Hk. split.
    + intros Hnone. unfold bound_value, get_or. now rewrite Hnone.
    + destruct op; cbn in Hk;
        repeat (destruct Hk as [Hk|Hk];
                [first [discriminate Hk
                       | injection Hk as <- <-; auto] |]);
        destruct Hk.
  - destruct (execute_insert_returns_lastrowid (op_query op) qp w cur s s'
                Hc He Hcommit) as (w' & Hrun & Hin).
    destruct op; cbn [op_handler op_fields op_query op_message] in *;
      unfold handle_store_access_log, handle_store_error_log,
             try_except, bind, lift;
      rewrite Hr, Hrun; cbn [fst snd ret]; (split; [exact Hin|reflexivity]).
Qed.

End Writes.

(** C3 as stated fails: an error record without [severity_score] is
    validated, and the value bound for the missing field is 5. *)
Lemma omitted_severity_score_is_bound_as_5 :
  let params := VDict Sample.error_record in
  validate_intent_params Sample.runtime Sample.config
    (VStr (lit "store_error_log")) params = Ret accept /\
  dict_get Sample.error_record (lit "severity_score") = None /\
  exists qp,
    read_fields params store_error_log_fields = Ret qp /\
    In (EvExecute store_error_log_query qp)
       (trace (snd (handle_store_error_log Sample.memory_driver params
                      Sample.cold))) /\
    nth 9 qp VNone = VInt 5 /\ nth 9 qp VNone <> VNone.
Proof.
  split; [reflexivity|]. split; [reflexivity|].
  eexists. split; [reflexivity|]. split.
  - vm_compute. tauto.
  - split; [reflexivity|discriminate].
Qed.

Lemma write_binds_defaults_witness :
  fst (handle_store_error_log Sample.memory_driver
         (VDict Sample.error_record) Sample.cold) =
  Ret (success [(lit "id", VInt 1);
                (lit "message", VStr (lit "Error log stored successfully"))]).
Proof.
  refine (proj2 (proj2 (proj2
    (write_binds_defaults_and_returns_id Sample.memory_driver
       Sample.runtime Sample.config StoreErrorLog Sample.error_record
       Sample.cold
       {| fetchall := []; lastrowid := 1; rowcount := 1 |}
       _ _ _ _ _ _)))); reflexivity.
Defined.
(** ** Stripping and splitting *)

Lemma lstrip_app (a b : pystr) :
  lstrip (a ++ b) = if forallb is_space a then lstrip b else lstrip a ++ b.
Proof.
  induction a as [|c a IH]; [reflexivity|].
  cbn [app lstrip forallb]. destruct (is_space c); [exact IH|reflexivity].
Qed.

Lemma lstrip_idempotent (s : pystr) : lstrip (lstrip s) = lstrip s.
Proof.
  induction s as [|c s IH]; [reflexivity|].
  cbn [lstrip]. destruct (is_space c) eqn:E; [exact IH|].
  cbn [lstrip]. now rewrite E.
Qed.

Lemma lstrip_head (s : pystr) (c : N) (t : pystr) :
  lstrip s = c :: t -> is_space c = false.
Proof.
  induction s as [|x s IH]; [discriminate|].
  cbn [lstrip]. destruct (is_space x) eqn:E; [exact IH|].
  intros H. injection H as <- _. exact E.
Qed.

Lemma lstrip_all_space (s : pystr) :
  forallb is_space s = true -> lstrip s = [].
Proof.
  induction s as [|c s IH]; [reflexivity|].
  cbn [forallb lstrip]. destruct (is_space c); [exact IH|discriminate].
Qed.

Lemma lstrip_not_all_space (s : pystr) :
  forallb is_space s = false -> lstrip s <> [].
Proof.
  induction s as [|c s IH]; [discriminate|].
  cbn [forallb lstrip]. destruct (is_space c); [exact IH|discriminate].
Qed.

(** Stripping the right end of a string that starts with a character
    other than whitespace keeps that character. *)
Lemma rstrip_cons (c : N) (t : pystr) :
  is_space c = false ->
  rev (lstrip (rev (c :: t))) = c :: rev (lstrip (rev t)).
Proof.
  intros Hc. cbn [rev]. rewrite lstrip_app.
  destruct (forallb is_space (rev t)) eqn:E.
  - cbn [lstrip]. rewrite Hc. rewrite (lstrip_all_space _ E). reflexivity.
  - rewrite rev_app_distr. reflexivity.
Qed.

Lemma strip_idempotent (s : pystr) : strip (strip s) = strip s.
Proof.
  unfold strip.
  assert (Hl : lstrip (rev (lstrip (rev (lstrip s)))) =
               rev (lstrip (rev (lstrip s)))).
  { destruct (lstrip s) as [|c t] eqn:E; [reflexivity|].
    pose proof (lstrip_head s c t E) as Hc.
    rewrite (rstrip_cons c t Hc). cbn [lstrip]. now rewrite Hc. }
  rewrite Hl, rev_involutive, lstrip_idempotent. reflexivity.
Qed.

Lemma lstrip_incl (s : pystr) (x : N) : In x (lstrip s) -> In x s.
Proof.
  induction s as [|c s IH]; [auto|].
  cbn [lstrip]. destruct (is_space c); [|auto].
  intros H. right. auto.
Qed.

Lemma strip_incl (s : pystr) (x : N) : In x (strip s) -> In x s.
Proof.
  unfold strip. intros H.
  apply in_rev, lstrip_incl, in_rev, lstrip_incl in H. exact H.
Qed.

Lemma split_on_nonempty (sep : N) (s : pystr) : split_on sep s <> [].
Proof.
  destruct s as [|c s]; [discriminate|]. cbn [split_on].
  destruct (N.eqb c sep); [discriminate|].
  destruct (split_on sep s); discriminate.
Qed.

Lemma split_on_fields_free (sep : N) (s f : pystr) :
  In f (split_on sep s) -> ~ In sep f.
Proof.
  revert f. induction s as [|c s IH]; intros f.
  - cbn. intros [<-|[]]. auto.
  - cbn [split_on]. destruct (N.eqb_spec c sep) as [E|E].
    + intros [<-|H]; [auto|]. now apply IH.
    + destruct (split_on sep s) as [|g gs] eqn:Es.
      * intros [<-|[]]. cbn. intuition.
      * intros [<-|H].
        -- cbn. intros [H|H]; [congruence|].
           revert H. apply IH. now left.
        -- apply IH. now right.
Qed.

(** Joining the fields with the separator gives the string back. *)
Lemma join_split_on (sep : N) (s : pystr) :
  join [sep] (split_on sep s) = s.
Proof.
  induction s as [|c s IH]; [reflexivity|].
  cbn [split_on]. destruct (N.eqb_spec c sep) as [->|E].
  - pose proof (split_on_nonempty sep s) as Hne.
    destruct (split_on sep s) as [|g gs]; [congruence|].
    cbn [join app] in *. now rewrite IH.
  - destruct (split_on sep s) as [|g gs] eqn:Es.
    + exfalso. eapply split_on_nonempty; eauto.
    + destruct gs as [|h hs]; cbn [join app] in *; now rewrite IH.
Qed.

(** ** Config *)

Lemma get_api_keys_clean (cfg : Config) (key : pystr) :
  In key (get_api_keys cfg) ->
  key <> [] /\ ~ In 44%N key /\ strip key = key.
Proof.
  unfold get_api_keys. destruct (nonempty (API_KEYS_STR cfg)); [|intros []].
  intros H. apply filter_In in H as [H Hne].
  apply in_map_iff in H as (f & <- & Hf).
  split; [destruct (strip f); [discriminate|discriminate]|].
  split.
  - intros Hc. apply strip_incl in Hc.
    revert Hc. now apply (split_on_fields_free 44 (API_KEYS_STR cfg)).
  - apply strip_idempotent.
Qed.

(** X1: every key that [Config.get_api_keys] returns is non-empty, contains
    no comma and has no whitespace around it. *)
Theorem get_api_keys_are_clean (cfg : Config) (key : pystr) :
  In key (get_api_keys cfg) ->
  key <> [] /\ ~ In 44%N key /\ strip key = key.
Proof. exact (get_api_keys_clean cfg key). Qed.

(** ** Authentication *)

Lemma constant_time_compare_eqb (a b : pystr) :
  encodable a -> encodable b ->
  constant_time_compare a b = Ret (str_eqb a b).
Proof.
  intros Ha Hb.
  pose proof (constant_time_compare_true_iff a b Ha Hb) as Hiff.
  rewrite constant_time_compare_unfold in *.
  unfold encodable, encodableb in *.
  destruct (negb (Nat.eqb (List.length a) (List.length b))) eqn:El.
  - f_equal. symmetry. apply str_eqb_neq. intros ->.
    rewrite Nat.eqb_refl in El. discriminate.
  - destruct (utf8_encode a); [|discriminate].
    destruct (utf8_encode b); [|discriminate].
    f_equal. destruct (compare_digest l l0) eqn:Ec.
    + symmetry. apply str_eqb_eq, Hiff. reflexivity.
    + symmetry. apply str_eqb_neq. intros E. apply Hiff in E. discriminate.
Qed.

Lemma add_events_add_events {store} (e1 e2 : list event) (w : world store) :
  add_events e2 (add_events e1 w) = add_events (e1 ++ e2) w.
Proof. unfold add_events. cbn. now rewrite app_assoc. Qed.

Lemma add_events_nil {store} (w : world store) : add_events [] w = w.
Proof. destruct w. unfold add_events. cbn. now rewrite app_nil_r. Qed.

Lemma check_keys_run {store} (key : pystr) (keys : list pystr)
    (w : world store) :
  exists evs, snd (check_keys key keys w) = add_events evs w /\
              Forall auth_event evs.
Proof.
  revert w. induction keys as [|k keys IH]; intros w; cbn [check_keys].
  - eexists. split; [reflexivity|]. constructor; [|constructor].
    right. do 2 eexists. split; [reflexivity|]. cbn. tauto.
  - unfold bind at 1. unfold lift.
    destruct (constant_time_compare key k) as [[|]|e].
    + eexists. split; [reflexivity|]. constructor; [|constructor].
      right. do 2 eexists. split; [reflexivity|]. cbn. tauto.
    + apply IH.
    + exists []. split; [now rewrite add_events_nil|constructor].
Qed.

Lemma check_keys_value {store} (key : pystr) (keys : list pystr)
    (w : world store) :
  encodable key -> Forall encodable keys ->
  fst (check_keys key keys w) = Ret (existsb (str_eqb key) keys).
Proof.
  intros Hk Hks. revert w.
  induction Hks as [|k keys Hkk Hks IH]; intros w; [reflexivity|].
  cbn [check_keys existsb]. unfold bind at 1. unfold lift.
  rewrite (constant_time_compare_eqb key k Hk Hkk).
  destruct (str_eqb key k); [reflexivity|apply IH].
Qed.

Section Auth.
Variable cfg : Config.

(** X3: authentication appends to the trace only the read of the configured
    keys and log calls with one of four fixed texts and no field; the
    presented key is never logged, and nothing else of the world changes. *)
Theorem authentication_emits_no_credential {store} (headers : headers_t)
    (w : world store) :
  exists evs,
    snd (authenticate_request cfg headers w) = add_events evs w /\
    Forall auth_event evs.
Proof.
  unfold authenticate_request, bind at 1.
  assert (Hv : exists evs,
             snd (validate_api_key cfg (extract_api_key headers) w) =
               add_events evs w /\ Forall auth_event evs).
  { unfold validate_api_key.
    assert (Hmiss : exists evs,
              snd ((bind (log Warning
                       (lit "API request missing x-api-key header") None [])
                     (fun _ => ret false)) w) = add_events evs w /\
              Forall auth_event evs).
    { eexists. split; [reflexivity|]. constructor; [|constructor].
      right. do 2 eexists. split; [reflexivity|]. cbn. tauto. }
    destruct (extract_api_key headers) as [[|c key]|]; try exact Hmiss.
    unfold bind at 1, read_api_keys, bind, emit, ret.
    destruct (get_api_keys cfg) as [|k keys] eqn:Ek.
    - exists [EvGetApiKeys;
              EvLog Error (lit "No API keys configured in environment")
                    None []].
      split; [unfold log, emit, add_events; cbn; now rewrite <- app_assoc|].
      constructor; [now left|]. constructor; [|constructor].
      right. do 2 eexists. split; [reflexivity|]. cbn. tauto.
    - match goal with
      | |- context [check_keys ?a ?b ?w'] =>
          destruct (check_keys_run a b w') as (evs & He & Hf)
      end.
      exists (EvGetApiKeys :: evs). split.
      + rewrite He. unfold add_events. cbn. now rewrite <- app_assoc.
      + constructor; [now left|exact Hf]. }
  destruct Hv as (evs & He & Hf).
  destruct (validate_api_key cfg (extract_api_key headers) w)
    as [[[|]|e] w'] eqn:Ev; cbn [snd] in He; subst w'; cbn;
    exists evs; (split; [reflexivity|exact Hf]).
Qed.

(** X2: when the keys are encodable, authentication succeeds exactly when
    the request presents one of the configured keys; every other request
    gets the same fixed message. *)
Theorem configured_keys_authenticate (headers : headers_t) :
  Forall encodable (get_api_keys cfg) ->
  (forall key, extract_api_key headers = Some key -> encodable key) ->
  (authenticated cfg headers = Ret (true, None) <->
   exists key, extract_api_key headers = Some key /\
               In key (get_api_keys cfg)) /\
  (authenticated cfg headers = Ret (true, None) \/
   authenticated cfg headers = Ret (false, Some unauthorized)).
Proof.
  intros Hks Hk. unfold authenticated, authenticate_request, bind at 1.
  unfold validate_api_key.
  destruct (extract_api_key headers) as [[|c key]|] eqn:Ex.
  - cbn. split; [|right; reflexivity]. split; [discriminate|].
    intros (k & E & Hin). injection E as <-.
    now apply get_api_keys_clean in Hin.
  - specialize (Hk _ eq_refl).
    unfold bind at 1, read_api_keys, bind, emit, ret.
    destruct (get_api_keys cfg) as [|k keys] eqn:Ek.
    + cbn. split; [|right; reflexivity]. split; [discriminate|].
      intros (k & _ & []).
    + match goal with
      | |- context [check_keys ?a ?b ?w'] =>
          pose proof (check_keys_value a b w' Hk Hks) as Hv;
          destruct (check_keys a b w') as [[ok|e] w'']
      end; cbn [fst] in Hv; [|discriminate].
      assert (Hok : ok = existsb (str_eqb (c :: key)) (k :: keys))
        by congruence.
      clear Hv. subst ok.
      destruct (existsb (str_eqb (c :: key)) (k :: keys)) eqn:Eb;
        cbv beta iota; unfold ret; cbn [fst].
      * split; [|left; reflexivity]. split; [|reflexivity]. intros _.
        apply existsb_exists in Eb as (k' & Hin & Heq).
        apply str_eqb_eq in Heq. subst k'. eauto.
      * split; [|right; reflexivity]. split; [discriminate|].
        intros (k' & E & Hin). injection E as <-.
        assert (existsb (str_eqb (c :: key)) (k :: keys) = true)
          by (apply existsb_exists; exists (c :: key);
              split; [exact Hin|apply str_eqb_refl]).
        congruence.
  - cbn. split; [|right; reflexivity]. split; [discriminate|].
    intros (k & E & _). discriminate.
Qed.

End Auth.

Section Validators.
Variable rt : PyRuntime.
Variable cfg : Config.

Lemma py_int_None : py_int rt VNone = Raise TypeError.
Proof. reflexivity. Qed.

(** X4: [validate_status_code] accepts a value, and returns its integer,
    exactly when [int()] reads it as an integer from 100 to 599. *)
Theorem validate_status_code_accepts_100_to_599 (v : pyval) (n : Z) :
  validate_status_code rt v = Ret (true, Some n, None) <->
  py_int rt v = Ret n /\ 100 <= n <= 599.
Proof.
  assert (Hnone : v = VNone \/
            validate_status_code rt v =
            match py_int rt v with
            | Ret code =>
                if negb ((100 <=? code) && (code <=? 599)) then
                  Ret (false, None,
                       Some (lit "Status code must be between 100 and 599"))
                else Ret (true, Some code, None)
            | Raise ValueError | Raise TypeError =>
                Ret (false, None, Some (lit "Status code must be an integer"))
            | Raise e => Raise e
            end)
    by (destruct v; auto).
  destruct Hnone as [-> | ->].
  - cbn. split; [discriminate|intros [H _]; discriminate].
  - destruct (py_int rt v) as [m|e].
    + destruct (Z.leb_spec 100 m) as [L1|L1];
        destruct (Z.leb_spec m 599) as [L2|L2]; cbn [andb negb].
      * split; [intros E; injection E as <-; split; [reflexivity|lia]
               |intros [E _]; injection E as <-; reflexivity].
      * split; [discriminate|intros [E ?]; injection E as <-; lia].
      * split; [discriminate|intros [E ?]; injection E as <-; lia].
      * split; [discriminate|intros [E ?]; injection E as <-; lia].
    + split; [destruct e; discriminate|intros [H _]; discriminate].
Qed.

(** X5: [validate_limit] returns 100 for [None]; any other value is accepted,
    with its integer, exactly when [int()] reads it as an integer from 1 to
    [MAX_QUERY_LIMIT]. *)
Theorem validate_limit_accepts_1_to_maximum (v : pyval) (n : Z) :
  validate_limit rt cfg v = Ret (true, Some n, None) <->
  (v = VNone /\ n = 100) \/
  (py_int rt v = Ret n /\ 1 <= n <= MAX_QUERY_LIMIT cfg).
Proof.
  assert (Hnone : v = VNone \/
            (v <> VNone /\
             validate_limit rt cfg v =
             match py_int rt v with
             | Ret limit_int =>
                 if limit_int <? 1 then
                   Ret (false, None, Some (lit "Limit must be positive"))
                 else if limit_int >? MAX_QUERY_LIMIT cfg then
                   Ret (false, None,
                        Some (lit "Limit exceeds maximum: " ++
                              str_of_Z (MAX_QUERY_LIMIT cfg)))
                 else Ret (true, Some limit_int, None)
             | Raise ValueError | Raise TypeError =>
                 Ret (false, None, Some (lit "Limit must be an integer"))
             | Raise e => Raise e
             end))
    by (destruct v; auto; right; (split; [discriminate|reflexivity])).
  destruct Hnone as [-> | [Hv ->]].
  - cbn. split.
    + intros H. injection H as <-. now left.
    + intros [[_ ->]|[H _]]; [reflexivity|discriminate].
  - destruct (py_int rt v) as [m|e].
    + destruct (Z.ltb_spec m 1) as [L1|L1];
        [|destruct (Z.gtb_spec m (MAX_QUERY_LIMIT cfg)) as [L2|L2]].
      * split; [discriminate|].
        intros [[? _]|[E ?]]; [congruence|injection E as <-; lia].
      * split; [discriminate|].
        intros [[? _]|[E ?]]; [congruence|injection E as <-; lia].
      * split.
        -- intros E. injection E as <-. right. split; [reflexivity|lia].
        -- intros [[? _]|[E ?]]; [congruence|injection E as <-; reflexivity].
    + split; [destruct e; discriminate|].
      intros [[? _]|[H _]]; [congruence|discriminate].
Qed.

Lemma check_ip_parts_none (parts : list pystr) :
  check_ip_parts rt parts = None <-> Forall (octet rt) parts.
Proof.
  induction parts as [|p parts IH]; cbn [check_ip_parts].
  - split; [constructor|reflexivity].
  - destruct (int_of_str rt p) as [n|] eqn:E.
    + destruct (Z.leb_spec 0 n) as [L1|L1];
        destruct (Z.leb_spec n 255) as [L2|L2]; cbn [andb negb].
      * rewrite IH. split.
        -- intros H. constructor; [exists n; split; [exact E|lia]|exact H].
        -- intros H. now inversion H.
      * split; [discriminate|]. intros H. inversion H as [|? ? (m & Hm & ?)].
        rewrite E in Hm. injection Hm as <-. lia.
      * split; [discriminate|]. intros H. inversion H as [|? ? (m & Hm & ?)].
        rewrite E in Hm. injection Hm as <-. lia.
      * split; [discriminate|]. intros H. inversion H as [|? ? (m & Hm & ?)].
        rewrite E in Hm. injection Hm as <-. lia.
    + split; [discriminate|]. intros H. inversion H as [|? ? (m & Hm & ?)].
      rewrite E in Hm. discriminate.
Qed.

(** X6: [validate_ip_address] accepts a string, unchanged, exactly when its
    split at the dots has four parts that each read as an integer from 0
    to 255. *)
Theorem validate_ip_address_accepts_dotted_quads (s : pystr) :
  validate_ip_address rt (VStr s) = (true, Some s, None) <->
  List.length (split_on 46 s) = 4%nat /\ Forall (octet rt) (split_on 46 s).
Proof.
  unfold validate_ip_address.
  destruct (Nat.eqb_spec (List.length (split_on 46 s)) 4) as [E|E];
    cbn [negb].
  - destruct (check_ip_parts rt (split_on 46 s)) as [msg|] eqn:C.
    + split; [discriminate|]. intros [_ H].
      apply check_ip_parts_none in H. congruence.
    + split; [|reflexivity]. intros _. split; [exact E|].
      now apply check_ip_parts_none.
  - split; [discriminate|]. intros [H _]. contradiction.
Qed.

Lemma proper_and_then (c k : res verdict) :
  proper_res c -> proper_res k -> proper_res (and_then c k).
Proof.
  unfold and_then, rbind. destruct c as [[[|] [m|]]|e]; cbn; tauto.
Qed.

Lemma proper_check_limit (v : pyval) : proper_res (check_limit rt cfg v).
Proof.
  unfold check_limit, validate_limit.
  destruct v; cbn [rbind]; try exact I;
    (destruct (py_int rt _) as [m|[]]; cbn [rbind]; try exact I;
     destruct (m <? 1); [exact I|];
     destruct (m >? MAX_QUERY_LIMIT cfg); exact I).
Qed.

Lemma proper_check_timestamp (v : pyval) : proper_res (check_timestamp v).
Proof.
  unfold check_timestamp, validate_timestamp.
  destruct v; cbn; try exact I. destruct (py_len s <? 10); exact I.
Qed.

Lemma proper_check_ip_address (v : pyval) :
  proper_res (check_ip_address rt v).
Proof.
  unfold check_ip_address, validate_ip_address.
  destruct v; cbn; try exact I.
  destruct (negb _); [exact I|].
  destruct (check_ip_parts rt _); exact I.
Qed.

Lemma proper_check_status_code (v : pyval) :
  proper_res (check_status_code rt v).
Proof.
  unfold check_status_code, validate_status_code.
  destruct v; cbn [rbind]; try exact I;
    (destruct (py_int rt _) as [m|[]]; cbn [rbind]; try exact I;
     destruct (negb _); exact I).
Qed.

Lemma proper_check_if_present (params : pyval) (k : pystr)
    (check : pyval -> res verdict) :
  (forall v, proper_res (check v)) ->
  proper_res (check_if_present params k check).
Proof.
  intros H. unfold check_if_present, rbind.
  destruct (py_contains params k) as [[|]|e]; try exact I.
  destruct (py_getitem params k); [apply H|exact I].
Qed.

Lemma proper_getitem_check (params : pyval) (k : pystr)
    (check : pyval -> res verdict) :
  (forall v, proper_res (check v)) ->
  proper_res (rbind (py_getitem params k) check).
Proof.
  intros H. unfold rbind. destruct (py_getitem params k); [apply H|exact I].
Qed.

Lemma proper_check_required (params : pyval) (required : list pystr) :
  proper_res (check_required params required).
Proof.
  induction required as [|f required IH]; [exact I|].
  cbn [check_required]. unfold rbind.
  destruct (py_contains params f) as [[|]|e]; [exact IH|exact I|exact I].
Qed.

Lemma proper_validate_intent_params (intent params : pyval) :
  proper_res (validate_intent_params rt cfg intent params).
Proof.
  unfold validate_intent_params.
  repeat first
    [ exact I
    | apply proper_and_then
    | apply proper_check_if_present
    | apply proper_getitem_check
    | apply proper_check_required
    | apply proper_check_limit
    | apply proper_check_timestamp
    | apply proper_check_ip_address
    | apply proper_check_status_code
    | match goal with
      | |- proper_res (if ?b then _ else _) => destruct b
      end ].
Qed.

(** X7: [validate_request] returns the parsed data and no message, or a
    message and no data, or raises; never both and never neither. *)
Theorem validate_request_returns_data_or_message {store}
    (body : pystr) (intent : option pystr) (w : world store) :
  match fst (validate_request rt cfg body intent w) with
  | Ret (true, Some _, None) | Ret (false, None, Some _) | Raise _ => True
  | Ret _ => False
  end.
Proof.
  unfold validate_request, bind at 1. unfold lift.
  unfold validate_payload_size.
  destruct (utf8_encode body) as [bytes|]; [|exact I].
  destruct (_ >? _); [exact I|]. cbn [fst negb accept].
  unfold bind at 1. unfold validate_json, bind at 1. unfold emit.
  destruct (json_loads rt body) as [data|e]; [|destruct e; exact I].
  cbn [ret]. unfold bind at 1.
  match goal with
  | |- context [match ?c ?w' with _ => _ end] =>
      assert (Hc : exists i, c w' = (i, w')) by
        (destruct intent as [[|? ?]|]; eexists; reflexivity);
      destruct Hc as [[i|e] ->]
  end; [|exact I].
  unfold bind at 1. unfold validate_intent.
  destruct (negb (truthy i)); [exact I|].
  destruct (negb (hashable i)); [exact I|].
  destruct (negb (is_allowed i)); [exact I|].
  cbn [ret fst negb accept]. unfold bind at 1. unfold lift.
  destruct (py_get data (lit "params") (VDict [])) as [params|e]; [|exact I].
  unfold bind at 1.
  pose proof (proper_validate_intent_params i params) as Hp.
  destruct (validate_intent_params rt cfg i params) as [[[|] [m|]]|e];
    cbn in Hp |- *; tauto.
Qed.

End Validators.

Section Quiet.
Context {store : Type}.

Lemma quiet_ret {A} (a : A) : quiet_run (@ret store A a).
Proof. intros w. exists []. split; [now rewrite add_events_nil|constructor]. Qed.

Lemma quiet_raise {A} (e : exn) : quiet_run (@raise store A e).
Proof. intros w. exists []. split; [now rewrite add_events_nil|constructor]. Qed.

Lemma quiet_lift {A} (r : res A) : quiet_run (@lift store A r).
Proof. intros w. exists []. split; [now rewrite add_events_nil|constructor]. Qed.

Lemma quiet_emit (e : event) :
  store_event e = false -> quiet_run (@emit store e).
Proof.
  intros H w. exists [e]. split; [reflexivity|]. now constructor.
Qed.

Lemma quiet_log m msg err kw : quiet_run (@log store m msg err kw).
Proof. now apply quiet_emit. Qed.

Lemma quiet_bind {A B} (c : M store A) (k : A -> M store B) :
  quiet_run c -> (forall a, quiet_run (k a)) -> quiet_run (bind c k).
Proof.
  intros Hc Hk w. unfold bind. destruct (Hc w) as (e1 & H1 & Q1).
  destruct (c w) as [[a|e] w1]; cbn [snd] in H1; subst w1.
  - destruct (Hk a (add_events e1 w)) as (e2 & H2 & Q2).
    exists (e1 ++ e2). split.
    + now rewrite H2, add_events_add_events.
    + now apply Forall_app.
  - exists e1. split; [reflexivity|exact Q1].
Qed.

Lemma quiet_try_except {A} (c : M store A) (h : exn -> M store A) :
  quiet_run c -> (forall e, quiet_run (h e)) -> quiet_run (try_except c h).
Proof.
  intros Hc Hh w. unfold try_except. destruct (Hc w) as (e1 & H1 & Q1).
  destruct (c w) as [[a|e] w1]; cbn [snd] in H1; subst w1.
  - exists e1. split; [reflexivity|exact Q1].
  - destruct (Hh e (add_events e1 w)) as (e2 & H2 & Q2).
    exists (e1 ++ e2). split.
    + now rewrite H2, add_events_add_events.
    + now apply Forall_app.
Qed.

Lemma quiet_check_keys key keys : quiet_run (@check_keys store key keys).
Proof.
  induction keys as [|k keys IH]; cbn [check_keys].
  - apply quiet_bind; [apply quiet_log|intros; apply quiet_ret].
  - apply quiet_bind; [apply quiet_lift|]. intros [|]; [|exact IH].
    apply quiet_bind; [apply quiet_log|intros; apply quiet_ret].
Qed.

Lemma quiet_read_api_keys cfg : quiet_run (@read_api_keys cfg store).
Proof.
  apply quiet_bind; [now apply quiet_emit|intros; apply quiet_ret].
Qed.

Lemma quiet_authenticate_request cfg headers :
  quiet_run (@authenticate_request cfg store headers).
Proof.
  unfold authenticate_request, validate_api_key.
  apply quiet_bind; [|intros [|]; apply quiet_ret].
  destruct (extract_api_key headers) as [[|c key]|];
    try (apply quiet_bind; [apply quiet_log|intros; apply quiet_ret]).
  apply quiet_bind; [apply quiet_read_api_keys|]. intros [|k keys].
  - apply quiet_bind; [apply quiet_log|intros; apply quiet_ret].
  - apply quiet_check_keys.
Qed.

Lemma quiet_Config_validate cfg : quiet_run (@Config_validate cfg store).
Proof.
  unfold Config_validate.
  apply quiet_bind; [apply quiet_read_api_keys|]. intros _.
  destruct (missing_settings cfg); [apply quiet_ret|apply quiet_raise].
Qed.

Lemma quiet_validate_request rt cfg body intent :
  quiet_run (@validate_request rt cfg store body intent).
Proof.
  unfold validate_request.
  apply quiet_bind; [apply quiet_lift|]. intros size_ok.
  destruct (negb (fst size_ok)); [apply quiet_ret|].
  apply quiet_bind.
  { unfold validate_json. apply quiet_bind; [now apply quiet_emit|].
    intros _. destruct (json_loads rt body) as [data|[]];
      first [apply quiet_ret | apply quiet_raise]. }
  intros [[[|] [data|]] err]; try apply quiet_ret.
  apply quiet_bind.
  { destruct intent as [[|c s]|]; first [apply quiet_ret | apply quiet_lift]. }
  intros i. apply quiet_bind.
  { unfold validate_intent.
    destruct (negb (truthy i)); [apply quiet_ret|].
    destruct (negb (hashable i)); [apply quiet_raise|].
    destruct (negb (is_allowed i)); [|apply quiet_ret].
    apply quiet_bind; [apply quiet_log|intros; apply quiet_ret]. }
  intros intent_ok.
  destruct (negb (fst intent_ok)); [apply quiet_ret|].
  apply quiet_bind; [apply quiet_lift|]. intros params.
  apply quiet_bind; [apply quiet_lift|]. intros params_ok.
  destruct (negb (fst params_ok)); apply quiet_ret.
Qed.

End Quiet.

Section StoreUntouched.
Context {store : Type}.

Lemma quiet_at_bind {A B} (c : M store A) (k : A -> M store B)
    (w : world store) :
  quiet_run c ->
  (forall a w', fst (c w) = Ret a -> quiet_at (k a) w') ->
  quiet_at (bind c k) w.
Proof.
  intros Hc Hk. unfold quiet_at, bind. destruct (Hc w) as (e1 & H1 & Q1).
  destruct (c w) as [[a|e] w1]; cbn [snd] in H1; subst w1.
  - destruct (Hk a (add_events e1 w) eq_refl) as (e2 & H2 & Q2).
    exists (e1 ++ e2). split.
    + now rewrite H2, add_events_add_events.
    + now apply Forall_app.
  - exists e1. split; [reflexivity|exact Q1].
Qed.

Lemma quiet_at_try_except {A} (c : M store A) (h : exn -> M store A)
    (w : world store) :
  quiet_at c w -> (forall e, quiet_run (h e)) ->
  quiet_at (try_except c h) w.
Proof.
  intros (e1 & H1 & Q1) Hh. unfold quiet_at, try_except.
  destruct (c w) as [[a|e] w1]; cbn [snd] in H1; subst w1.
  - exists e1. split; [reflexivity|exact Q1].
  - destruct (Hh e (add_events e1 w)) as (e2 & H2 & Q2).
    exists (e1 ++ e2). split.
    + now rewrite H2, add_events_add_events.
    + now apply Forall_app.
Qed.

Variable rt : PyRuntime.
Variable cfg : Config.
Variable drv : Driver store.
Variable rh : handler -> pyval -> M store pydict.
Variable request_id : pystr.
Variable event : Event.

(** X8: a call that the gateway stops before execution appends no event of
    the store (no connect, execute, commit or rollback) and changes
    nothing else of the world. *)
Theorem stopped_call_leaves_store_alone (w : world store)
    (s : gateway_state) :
  first_state rt cfg event = Stopped s ->
  exists evs,
    snd (lambda_handler rt cfg drv rh request_id event w) =
      add_events evs w /\
    Forall (fun e => store_event e = false) evs.
Proof.
  intros Hs. change (quiet_at (lambda_handler rt cfg drv rh request_id event) w).
  unfold lambda_handler.
  apply quiet_at_try_except;
    [|intros e; apply quiet_bind; [apply quiet_log|intros; apply quiet_ret]].
  apply quiet_at_bind.
  { apply quiet_try_except.
    - apply quiet_bind; [apply quiet_Config_validate|intros; apply quiet_ret].
    - intros e. destruct (is_ValueError e); [|apply quiet_raise].
      apply quiet_bind; [apply quiet_log|intros; apply quiet_ret]. }
  intros config_ok w1 Hcfg.
  destruct config_ok; cbn [negb]; [|apply quiet_ret].
  assert (Hmiss : missing_settings cfg = []).
  { unfold try_except, bind, Config_validate, bind, read_api_keys, bind,
      emit, ret, raise in Hcfg.
    destruct (missing_settings cfg); [reflexivity|]. cbn in Hcfg. discriminate. }
  unfold first_state in Hs. rewrite Hmiss in Hs.
  apply quiet_at_bind; [apply quiet_log|]. intros _ w2 _.
  apply quiet_at_bind; [apply quiet_authenticate_request|].
  intros [ok auth_error] w3 Hauth.
  rewrite authenticate_request_value in Hauth. rewrite Hauth in Hs.
  destruct ok.
  2:{ apply quiet_bind; [apply quiet_log|intros; apply quiet_ret]. }
  destruct (negb (py_eq_str (request_method event) (lit "POST"))).
  { apply quiet_bind; [apply quiet_log|intros; apply quiet_ret]. }
  apply quiet_at_bind; [apply quiet_validate_request|].
  intros [[valid parsed] verr] w4 Hval.
  rewrite validate_request_value in Hval. rewrite Hval in Hs.
  destruct valid.
  2:{ apply quiet_bind; [apply quiet_log|intros; apply quiet_ret]. }
  cbv zeta in Hs |- *.
  apply quiet_at_bind; [apply quiet_lift|]. intros intent w5 Hi.
  cbn [lift fst] in Hi. rewrite Hi in Hs.
  apply quiet_at_bind; [apply quiet_lift|]. intros params w6 Hp.
  cbn [lift fst] in Hp. rewrite Hp in Hs. cbn [rbind] in Hs.
  apply quiet_at_bind; [apply quiet_lift|]. intros n w7 Hn.
  cbn [lift fst] in Hn. rewrite Hn in Hs. cbn [rbind] in Hs.
  discriminate.
Qed.

End StoreUntouched.

Section Accepted.
Variable rt : PyRuntime.
Variable cfg : Config.

Lemma validated_accepts (body : pystr) (parsed : option pyval)
    (e : option pystr) :
  validated rt cfg body = Ret (true, parsed, e) ->
  exists d bytes,
    parsed = Some (VDict d) /\
    json_loads rt body = Ret (VDict d) /\
    utf8_encode body = Some bytes /\
    Z.of_nat (List.length bytes) <= MAX_PAYLOAD_SIZE cfg /\
    is_allowed (get_or d (lit "intent") VNone) = true /\
    validate_intent_params rt cfg (get_or d (lit "intent") VNone)
      (get_or d (lit "params") (VDict [])) = Ret accept.
Proof.
  intros H. unfold validated, validate_request, bind, lift in H.
  unfold validate_payload_size in H.
  destruct (utf8_encode body) as [bytes|]; [|discriminate].
  destruct (Z.gtb_spec (Z.of_nat (List.length bytes)) (MAX_PAYLOAD_SIZE cfg))
    as [Hs|Hs]; [discriminate|].
  cbn [fst negb accept] in H. unfold validate_json, bind, emit in H.
  destruct (json_loads rt body) as [data|err]; [|destruct err; discriminate].
  cbn [ret] in H.
  destruct data as [| | | | | |d]; try discriminate.
  cbn [py_get] in H. unfold validate_intent in H.
  destruct (truthy (get_or d (lit "intent") VNone)); [|discriminate].
  destruct (hashable (get_or d (lit "intent") VNone)); [|discriminate].
  destruct (is_allowed (get_or d (lit "intent") VNone)) eqn:Ha;
    [|discriminate].
  cbn [negb ret fst accept] in H.
  pose proof (proper_validate_intent_params rt cfg
                (get_or d (lit "intent") VNone)
                (get_or d (lit "params") (VDict []))) as Hp.
  destruct (validate_intent_params rt cfg (get_or d (lit "intent") VNone)
              (get_or d (lit "params") (VDict []))) as [[[|] [m|]]|err] eqn:Hvp;
    cbn [proper_res proper] in Hp; try contradiction;
    cbn [fst snd negb ret] in H; try discriminate.
  injection H as <- <-.
  exists d, bytes.
  split; [reflexivity|]. split; [reflexivity|]. split; [reflexivity|].
  split; [lia|]. split; [exact Ha|exact Hvp].
Qed.

Lemma proceeds_only_when_validated (event : Event)
    (intent params : pyval) :
  first_state rt cfg event = Proceeds intent params ->
  is_allowed intent = true /\
  validate_intent_params rt cfg intent params = Ret accept.
Proof.
  unfold first_state.
  destruct (missing_settings cfg); [|discriminate].
  destruct (authenticated cfg (request_headers event)) as [[[|] m]|e];
    try discriminate.
  destruct (negb _); [discriminate|].
  destruct (validated rt cfg (request_body event))
    as [[[[|] parsed] err]|e] eqn:Hv; try discriminate.
  destruct (validated_accepts _ _ _ Hv) as (d & bytes & -> & _ & _ & _ & Ha & Hp).
  cbv zeta. cbn [py_get rbind].
  destruct (py_len_val (get_or d (lit "params") (VDict []))); [|discriminate].
  cbn [rbind]. intros H. injection H as <- <-. auto.
Qed.

End Accepted.

Section Reached.
Variable rt : PyRuntime.
Variable cfg : Config.
Context {store : Type}.
Variable request_id : pystr.
Variable event : Event.



End Reached.

(** ** Rejections of the validator at the gateway *)

Lemma sorted_allowed_intents_text :
  repr_str_list (sorted ALLOWED_INTENTS) = allowed_intents_text.
Proof. vm_compute. reflexivity. Qed.

Lemma check_required_first_missing (d : pydict) (required : list pystr)
    (f : pystr) :
  first_missing d required = Some f ->
  check_required (VDict d) required =
  Ret (reject (lit "Missing required field: " ++ f)).
Proof.
  unfold first_missing. induction required as [|k required IH];
    [discriminate|].
  cbn [find check_required py_contains rbind].
  destruct (dict_has d k); cbn [negb]; [exact IH|].
  intros H. injection H as <-. reflexivity.
Qed.

Section Rejections.
Variable rt : PyRuntime.
Variable cfg : Config.
Context {store : Type}.
Variable drv : Driver store.
Variable rh : handler -> pyval -> M store pydict.
Variable request_id : pystr.
Variable event : Event.

(** X10: params of a write operation that carry no limit and lack a
    required field are rejected with the name of the first missing field,
    in the order the fields are checked. *)
Theorem missing_required_field_is_named (op : write_op) (d : pydict)
    (f : pystr) :
  dict_get d (lit "limit") = None ->
  first_missing d (required_fields op) = Some f ->
  validate_intent_params rt cfg (VStr (op_intent op)) (VDict d) =
  Ret (reject (lit "Missing required field: " ++ f)).
Proof.
  intros Hl Hf. unfold validate_intent_params.
  unfold and_then at 1. unfold check_if_present at 1.
  unfold py_contains, dict_has. rewrite Hl. cbn [rbind fst accept].
  destruct op.
  - change (intent_is (VStr (op_intent StoreAccessLog)) "get_access_logs")
      with false.
    change (intent_is (VStr (op_intent StoreAccessLog)) "store_access_log")
      with true.
    cbv iota. unfold and_then at 1.
    change [lit "timestamp"; lit "ip_address"; lit "method"; lit "endpoint";
            lit "status_code"] with (required_fields StoreAccessLog).
    rewrite (check_required_first_missing d _ f Hf). reflexivity.
  - change (intent_is (VStr (op_intent StoreErrorLog)) "get_access_logs")
      with false.
    change (intent_is (VStr (op_intent StoreErrorLog)) "store_access_log")
      with false.
    change (intent_is (VStr (op_intent StoreErrorLog)) "store_error_log")
      with true.
    cbv iota. unfold and_then at 1.
    change [lit "timestamp"; lit "log_level"; lit "error_code";
            lit "error_message"] with (required_fields StoreErrorLog).
    rewrite (check_required_first_missing d _ f Hf). reflexivity.
Qed.

Lemma validated_unknown_intent (body : pystr) (bytes : list N)
    (d : pydict) :
  utf8_encode body = Some bytes ->
  Z.of_nat (List.length bytes) <= MAX_PAYLOAD_SIZE cfg ->
  json_loads rt body = Ret (VDict d) ->
  truthy (get_or d (lit "intent") VNone) = true ->
  hashable (get_or d (lit "intent") VNone) = true ->
  is_allowed (get_or d (lit "intent") VNone) = false ->
  validated rt cfg body =
  Ret (false, None,
       Some (lit "Unknown intent: " ++
             py_str rt (get_or d (lit "intent") VNone) ++
             lit ". Allowed intents: " ++ allowed_intents_text)).
Proof.
  intros He Hs Hj Ht Hh Ha.
  unfold validated, validate_request, bind, lift.
  rewrite (validate_payload_size_ok cfg body bytes He Hs).
  cbn [fst negb accept]. unfold validate_json, bind, emit. rewrite Hj.
  cbn [ret py_get]. unfold validate_intent. rewrite Ht, Hh, Ha.
  cbn [negb]. unfold bind, log, emit, ret. cbn [fst snd reject negb].
  now rewrite sorted_allowed_intents_text.
Qed.

(** X11: an authenticated POST whose intent is not whitelisted is answered
    400, with the intent and the sorted list of the allowed intents in the
    message. *)
Theorem unknown_intent_is_rejected_with_allowed_list
    (bytes : list N) (d : pydict) (w : world store) :
  missing_settings cfg = [] ->
  authenticated cfg (request_headers event) = Ret (true, None) ->
  request_method event = VStr (lit "POST") ->
  utf8_encode (request_body event) = Some bytes ->
  Z.of_nat (List.length bytes) <= MAX_PAYLOAD_SIZE cfg ->
  json_loads rt (request_body event) = Ret (VDict d) ->
  truthy (get_or d (lit "intent") VNone) = true ->
  hashable (get_or d (lit "intent") VNone) = true ->
  is_allowed (get_or d (lit "intent") VNone) = false ->
  fst (lambda_handler rt cfg drv rh request_id event w) =
  Ret (create_response 400
         [(lit "error",
           VStr (lit "Unknown intent: " ++
                 py_str rt (get_or d (lit "intent") VNone) ++
                 lit ". Allowed intents: " ++ allowed_intents_text));
          (lit "request_id", VStr request_id)]).
Proof.
  intros Hc Ha Hm He Hs Hj Ht Hh Hal.
  apply (lambda_handler_validation_rejected rt cfg drv rh request_id event
           w None None
           (Some (lit "Unknown intent: " ++
                  py_str rt (get_or d (lit "intent") VNone) ++
                  lit ". Allowed intents: " ++ allowed_intents_text))
           Hc Ha).
  - rewrite Hm. apply str_eqb_refl.
  - now apply (validated_unknown_intent _ bytes d).
Qed.

(** X12: an authenticated POST whose body does not parse is answered 400,
    with the parser's message after [Invalid JSON: ]. *)
Theorem malformed_json_is_answered_400 (bytes : list N) (msg : pystr)
    (w : world store) :
  missing_settings cfg = [] ->
  authenticated cfg (request_headers event) = Ret (true, None) ->
  request_method event = VStr (lit "POST") ->
  utf8_encode (request_body event) = Some bytes ->
  Z.of_nat (List.length bytes) <= MAX_PAYLOAD_SIZE cfg ->
  json_loads rt (request_body event) = Raise (JSONDecodeError msg) ->
  fst (lambda_handler rt cfg drv rh request_id event w) =
  Ret (create_response 400
         [(lit "error", VStr (lit "Invalid JSON: " ++ msg));
          (lit "request_id", VStr request_id)]).
Proof.
  intros Hc Ha Hm He Hs Hj.
  apply (lambda_handler_validation_rejected rt cfg drv rh request_id event
           w None None (Some (lit "Invalid JSON: " ++ msg)) Hc Ha).
  - rewrite Hm. apply str_eqb_refl.
  - unfold validated, validate_request, bind, lift.
    rewrite (validate_payload_size_ok cfg _ bytes He Hs).
    cbn [fst negb accept]. unfold validate_json, bind, emit. rewrite Hj.
    reflexivity.
Qed.

(** X13: a body that parses to something other than an object has no
    [get]: validation raises [AttributeError] and the call is answered 500
    with the generic message. *)
Theorem non_object_body_is_answered_500 (bytes : list N) (data : pyval)
    (w : world store) :
  missing_settings cfg = [] ->
  authenticated cfg (request_headers event) = Ret (true, None) ->
  request_method event = VStr (lit "POST") ->
  utf8_encode (request_body event) = Some bytes ->
  Z.of_nat (List.length bytes) <= MAX_PAYLOAD_SIZE cfg ->
  json_loads rt (request_body event) = Ret data ->
  (forall d, data <> VDict d) ->
  validated rt cfg (request_body event) = Raise AttributeError /\
  fst (lambda_handler rt cfg drv rh request_id event w) =
  Ret (create_response 500
         (error_body (lit "Internal server error") request_id)).
Proof.
  intros Hc Ha Hm He Hs Hj Hd.
  assert (Hv : validated rt cfg (request_body event) = Raise AttributeError).
  { unfold validated, validate_request, bind, lift.
    rewrite (validate_payload_size_ok cfg _ bytes He Hs).
    cbn [fst negb accept]. unfold validate_json, bind, emit. rewrite Hj.
    cbn [ret]. destruct data; try reflexivity.
    exfalso. eapply Hd. reflexivity. }
  split; [exact Hv|].
  apply (lambda_handler_validation_crash rt cfg drv rh request_id event
           w None AttributeError Hc Ha); [|exact Hv].
  rewrite Hm. apply str_eqb_refl.
Qed.

End Rejections.

(** Induction over values, through lists and dicts. *)
Lemma pyval_induction (P : pyval -> Prop) :
  P VNone -> (forall b, P (VBool b)) -> (forall n, P (VInt n)) ->
  (forall f, P (VFloat f)) -> (forall s, P (VStr s)) ->
  (forall l, Forall P l -> P (VList l)) ->
  (forall d, Forall (fun kv => P (snd kv)) d -> P (VDict d)) ->
  forall v, P v.
Proof.
  intros HNone HBool HInt HFloat HStr HList HDict.
  fix IH 1. intros [| b | n | f | s | l | d].
  - exact HNone.
  - apply HBool.
  - apply HInt.
  - apply HFloat.
  - apply HStr.
  - apply HList. induction l as [|x l IHl]; constructor; [apply IH|exact IHl].
  - apply HDict. induction d as [|[k x] d IHd]; constructor;
      [apply IH|exact IHd].
Qed.

Module SanitizeFacts.
Import Logger.

Section WithRuntime.
Variable rt : PyRuntime.

Lemma truncated_length (s : pystr) :
  1000 < py_len s ->
  py_len (firstn 1000 s ++ lit "... [TRUNCATED]") = 1015.
Proof.
  unfold py_len. intros H. rewrite length_app, firstn_length_le by lia.
  reflexivity.
Qed.

Lemma sanitize_str (s : pystr) :
  _sanitize rt (VStr s) =
  if 1000 <? py_len s
  then VStr (firstn 1000 s ++ lit "... [TRUNCATED]")
  else VStr s.
Proof. reflexivity. Qed.

(** X14: sanitising a value twice gives what sanitising it once gives. *)
Theorem sanitize_is_idempotent (v : pyval) :
  _sanitize rt (_sanitize rt v) = _sanitize rt v.
Proof.
  induction v as [| b | n | f | s | l IH | d IH] using pyval_induction;
    try reflexivity.
  - rewrite (sanitize_str s). destruct (Z.ltb_spec 1000 (py_len s)) as [H|H].
    + rewrite sanitize_str, (truncated_length s H).
      change (1000 <? 1015) with true. cbv iota.
      f_equal. f_equal. rewrite firstn_app.
      unfold py_len in H.
      replace (1000 - List.length (firstn 1000 s))%nat with O
        by (rewrite firstn_length_le; lia).
      rewrite firstn_O, app_nil_r, firstn_firstn. reflexivity.
    + rewrite sanitize_str.
      destruct (Z.ltb_spec 1000 (py_len s)); [lia|reflexivity].
  - cbn [_sanitize]. f_equal. rewrite map_map.
    apply map_ext_Forall. exact IH.
  - cbn [_sanitize]. f_equal. rewrite map_map.
    apply map_ext_Forall. eapply Forall_impl; [|exact IH].
    intros [k x] Hx. cbn [fst snd] in *.
    destruct (is_sensitive rt k) eqn:S; cbn [fst snd]; rewrite S;
      [reflexivity|now rewrite Hx].
Qed.

(** X15: every string value inside a sanitised value has at most 1015 code
    points (1000 kept, 15 of the truncation mark). *)
Theorem sanitize_bounds_strings (v : pyval) :
  strings_within 1015 (_sanitize rt v) = true.
Proof.
  induction v as [| b | n | f | s | l IH | d IH] using pyval_induction;
    try reflexivity.
  - rewrite sanitize_str. destruct (Z.ltb_spec 1000 (py_len s)) as [H|H];
      cbn [strings_within].
    + rewrite (truncated_length s H). reflexivity.
    + apply Z.leb_le. lia.
  - cbn [_sanitize strings_within].
    apply forallb_forall. intros y Hy.
    apply in_map_iff in Hy as (x & <- & Hx).
    rewrite Forall_forall in IH. now apply IH.
  - cbn [_sanitize strings_within].
    apply forallb_forall. intros y Hy.
    apply in_map_iff in Hy as ([k x] & <- & Hx).
    rewrite Forall_forall in IH. specialize (IH _ Hx). cbn [fst snd] in *.
    destruct (is_sensitive rt k); [reflexivity|exact IH].
Qed.

(** X16: along a path without sensitive key, the value found in the
    sanitised record is the sanitised value found in the record. *)
Theorem sanitize_commutes_with_open_paths (path : list step)
    (v x : pyval) :
  open_path rt path = true ->
  resolve path v = Some x ->
  resolve path (_sanitize rt v) = Some (_sanitize rt x).
Proof.
  revert v. induction path as [|[k|i] path IH]; intros v Ho Hr.
  - cbn in Hr. injection Hr as ->. reflexivity.
  - cbn [open_path] in Ho. apply andb_true_iff in Ho as [Hk Ho].
    apply negb_true_iff in Hk.
    cbn [resolve] in Hr. destruct v; try discriminate.
    destruct (dict_get d k) as [y|] eqn:E; [|discriminate].
    rewrite LoggerFacts.sanitize_dict. cbn [resolve].
    rewrite LoggerFacts.dict_get_sanitized, E. cbn [option_map].
    rewrite Hk. now apply IH.
  - cbn [open_path] in Ho. cbn [resolve] in Hr.
    destruct v; try discriminate.
    destruct (nth_error l i) as [y|] eqn:E; [|discriminate].
    rewrite LoggerFacts.sanitize_list. cbn [resolve].
    rewrite nth_error_map, E. cbn [option_map]. now apply IH.
Qed.

End WithRuntime.
End SanitizeFacts.

Lemma new_events_app {store} (w w' : world store) (evs : list event) :
  trace w' = trace w ++ evs -> new_events w w' = evs.
Proof.
  intros H. unfold new_events. rewrite H, skipn_app, Nat.sub_diag, skipn_all.
  reflexivity.
Qed.

Section Client.
Context {store : Type}.
Variable drv : Driver store.

Lemma _get_connection_succeeds (w : world store) :
  connects drv w = true ->
  exists w1, _get_connection drv w = (Ret tt, w1) /\
             trace w1 = trace w ++ connection_events drv w /\
             db w1 = db w /\ connection w1 = true.
Proof.
  unfold connects, connection_events, _get_connection, bind, get_world.
  intros H. destruct (connection w && drv_ping drv (db w)) eqn:Hl.
  - exists w. split; [reflexivity|]. split; [now rewrite app_nil_r|].
    split; [reflexivity|]. now apply andb_true_iff in Hl.
  - cbn [orb] in H. destruct (drv_connect drv (db w)); [discriminate|].
    unfold set_connection, log, emit. cbn.
    eexists. split; [reflexivity|]. cbn. rewrite <- !app_assoc. auto.
Qed.

Lemma _get_connection_refused (w : world store) (e : exn) :
  connection w && drv_ping drv (db w) = false ->
  drv_connect drv (db w) = Some e ->
  exists w1, _get_connection drv w = (Raise e, w1) /\
             trace w1 = trace w ++
               [EvLog Info (lit "Creating new database connection") None [];
                EvConnect;
                EvLog Error (lit "Failed to connect to database") (Some e) []] /\
             db w1 = db w /\ connection w1 = false.
Proof.
  intros Hl Hc. unfold _get_connection, bind, get_world. rewrite Hl.
  unfold set_connection, log, emit. cbn. rewrite Hc. cbn.
  eexists. split; [reflexivity|]. cbn. rewrite <- !app_assoc. auto.
Qed.

(** Unfolding one unit of work after the connection is there. *)
Ltac run_unit_of_work Hw1 Hdb He :=
  unfold with_cursor, bind at 1; rewrite Hw1;
  unfold try_except, bind, log, emit, cursor_execute, bind, emit, get_world;
  cbn [db trace connection]; rewrite Hdb, He;
  unfold set_db, lift, commit, rollback, bind, emit, get_world, set_db, ret,
    raise;
  cbn [db trace connection].

Section Rejected.
Variables (query : pystr) (params : list pyval) (w : world store)
          (e : exn) (s : store).
Hypothesis Hc : connects drv w = true.
Hypothesis He : drv_execute drv query params (db w) = (Raise e, s).

Ltac finish_failure Htr :=
  eexists; split; [reflexivity|]; cbn [trace db connection];
  split; [rewrite Htr, <- !app_assoc; reflexivity|reflexivity].

Lemma execute_query_rejected :
  exists w', execute_query drv query params w = (Raise e, w') /\
    trace w' = trace w ++ connection_events drv w ++
               rolled_back_events (query_debug query params) query params e /\
    db w' = drv_rollback drv s.
Proof.
  destruct (_get_connection_succeeds w Hc) as (w1 & Hw1 & Htr & Hdb & Hcn).
  unfold execute_query. run_unit_of_work Hw1 Hdb He. finish_failure Htr.
Qed.

Lemma execute_insert_rejected :
  exists w', execute_insert drv query params w = (Raise e, w') /\
    trace w' = trace w ++ connection_events drv w ++
               rolled_back_events (insert_debug query) query params e /\
    db w' = drv_rollback drv s.
Proof.
  destruct (_get_connection_succeeds w Hc) as (w1 & Hw1 & Htr & Hdb & Hcn).
  unfold execute_insert. run_unit_of_work Hw1 Hdb He. finish_failure Htr.
Qed.

Lemma execute_update_rejected :
  exists w', execute_update drv query params w = (Raise e, w') /\
    trace w' = trace w ++ connection_events drv w ++
               rolled_back_events (update_debug query) query params e /\
    db w' = drv_rollback drv s.
Proof.
  destruct (_get_connection_succeeds w Hc) as (w1 & Hw1 & Htr & Hdb & Hcn).
  unfold execute_update. run_unit_of_work Hw1 Hdb He. finish_failure Htr.
Qed.

End Rejected.

Lemma rolled_back_events_facts (w : world store) (first : event)
    (query : pystr) (params : list pyval) (e : exn) :
  store_event first = false ->
  let evs := connection_events drv w ++
             rolled_back_events first query params e in
  executed evs = [(query, params)] /\ In EvRollback evs /\
  ~ In EvCommit evs.
Proof.
  intros Hf evs. subst evs. unfold connection_events, rolled_back_events.
  destruct first; try discriminate;
    destruct (connection w && drv_ping drv (db w)); cbn [app executed In];
    (split; [reflexivity|]); (split; [tauto|]);
    intros H; repeat (destruct H as [H|H]; try discriminate H); exact H.
Qed.

(** X17: when the store rejects the statement, each of [execute_query],
    [execute_insert] and [execute_update] raises the store's error after
    executing the statement once and rolling back; nothing is committed. *)
Theorem rejected_statement_is_rolled_back
    (query : pystr) (params : list pyval) (w : world store)
    (e : exn) (s : store) :
  connects drv w = true ->
  drv_execute drv query params (db w) = (Raise e, s) ->
  Forall (fun o =>
            fst o = Some e /\
            db (snd o) = drv_rollback drv s /\
            executed (new_events w (snd o)) = [(query, params)] /\
            In EvRollback (new_events w (snd o)) /\
            ~ In EvCommit (new_events w (snd o)))
         (statement_runs drv query params w).
Proof.
  intros Hc He. unfold statement_runs, outcome.
  destruct (execute_query_rejected query params w e s Hc He)
    as (wq & -> & Tq & Dq).
  destruct (execute_insert_rejected query params w e s Hc He)
    as (wi & -> & Ti & Di).
  destruct (execute_update_rejected query params w e s Hc He)
    as (wu & -> & Tu & Du).
  constructor; [|constructor; [|constructor; [|constructor]]];
    cbn [fst snd];
    first [ rewrite (new_events_app _ _ _ Tq)
          | rewrite (new_events_app _ _ _ Ti)
          | rewrite (new_events_app _ _ _ Tu) ];
    (split; [reflexivity|]); (split; [assumption|]);
    apply rolled_back_events_facts; reflexivity.
Qed.

Section Executed.
Variables (query : pystr) (params : list pyval) (w : world store)
          (cur : cursor_result) (s s' : store).
Hypothesis Hc : connects drv w = true.
Hypothesis He : drv_execute drv query params (db w) = (Ret cur, s).

Ltac finish_run Htr Hcn :=
  eexists; split; [reflexivity|]; cbn [trace db connection];
  split; [rewrite Htr, <- !app_assoc; reflexivity|];
  split; [reflexivity|exact Hcn].

Section Committed.
Hypothesis Hk : drv_commit drv s = (None, s').

Lemma execute_query_committed :
  exists w', execute_query drv query params w = (Ret (fetchall cur), w') /\
    trace w' = trace w ++ connection_events drv w ++
               [query_debug query params; EvExecute query params;
                query_rows cur; EvCommit] /\
    db w' = s' /\ connection w' = true.
Proof.
  destruct (_get_connection_succeeds w Hc) as (w1 & Hw1 & Htr & Hdb & Hcn).
  unfold execute_query. run_unit_of_work Hw1 Hdb He. rewrite Hk.
  cbn [db trace connection]. finish_run Htr Hcn.
Qed.

Lemma execute_insert_committed :
  exists w', execute_insert drv query params w = (Ret (lastrowid cur), w') /\
    trace w' = trace w ++ connection_events drv w ++
               [insert_debug query; EvExecute query params;
                insert_info cur; EvCommit] /\
    db w' = s' /\ connection w' = true.
Proof.
  destruct (_get_connection_succeeds w Hc) as (w1 & Hw1 & Htr & Hdb & Hcn).
  unfold execute_insert. run_unit_of_work Hw1 Hdb He. rewrite Hk.
  cbn [db trace connection]. finish_run Htr Hcn.
Qed.

Lemma execute_update_committed :
  exists w', execute_update drv query params w = (Ret (rowcount cur), w') /\
    trace w' = trace w ++ connection_events drv w ++
               [update_debug query; EvExecute query params;
                update_info cur; EvCommit] /\
    db w' = s' /\ connection w' = true.
Proof.
  destruct (_get_connection_succeeds w Hc) as (w1 & Hw1 & Htr & Hdb & Hcn).
  unfold execute_update. run_unit_of_work Hw1 Hdb He. rewrite Hk.
  cbn [db trace connection]. finish_run Htr Hcn.
Qed.

End Committed.

Section CommitFails.
Variable e : exn.
Hypothesis Hk : drv_commit drv s = (Some e, s').

Lemma execute_query_commit_fails :
  exists w', execute_query drv query params w = (Raise e, w') /\
    trace w' = trace w ++ connection_events drv w ++
               failed_commit_events query params e (query_debug query params)
                                    (query_rows cur) /\
    db w' = drv_rollback drv s' /\ connection w' = true.
Proof.
  destruct (_get_connection_succeeds w Hc) as (w1 & Hw1 & Htr & Hdb & Hcn).
  unfold execute_query. run_unit_of_work Hw1 Hdb He. rewrite Hk.
  cbn [db trace connection]. finish_run Htr Hcn.
Qed.

Lemma execute_insert_commit_fails :
  exists w', execute_insert drv query params w = (Raise e, w') /\
    trace w' = trace w ++ connection_events drv w ++
               failed_commit_events query params e (insert_debug query) (insert_info cur) /\
    db w' = drv_rollback drv s' /\ connection w' = true.
Proof.
  destruct (_get_connection_succeeds w Hc) as (w1 & Hw1 & Htr & Hdb & Hcn).
  unfold execute_insert. run_unit_of_work Hw1 Hdb He. rewrite Hk.
  cbn [db trace connection]. finish_run Htr Hcn.
Qed.

Lemma execute_update_commit_fails :
  exists w', execute_update drv query params w = (Raise e, w') /\
    trace w' = trace w ++ connection_events drv w ++
               failed_commit_events query params e (update_debug query) (update_info cur) /\
    db w' = drv_rollback drv s' /\ connection w' = true.
Proof.
  destruct (_get_connection_succeeds w Hc) as (w1 & Hw1 & Htr & Hdb & Hcn).
  unfold execute_update. run_unit_of_work Hw1 Hdb He. rewrite Hk.
  cbn [db trace connection]. finish_run Htr Hcn.
Qed.

End CommitFails.
End Executed.

Lemma committed_events_facts (w : world store) (first second : event)
    (query : pystr) (params : list pyval) :
  store_event first = false -> store_event second = false ->
  let evs := connection_events drv w ++
             [first; EvExecute query params; second; EvCommit] in
  executed evs = [(query, params)] /\
  List.length (filter is_commit evs) = 1%nat /\
  ~ In EvRollback evs.
Proof.
  intros Hf Hs evs. subst evs. unfold connection_events.
  destruct first; try discriminate; destruct second; try discriminate;
    destruct (connection w && drv_ping drv (db w));
    cbn [app executed In filter is_commit List.length];
    (split; [reflexivity|]); (split; [reflexivity|]);
    intros H; repeat (destruct H as [H|H]; try discriminate H); exact H.
Qed.

(** X18: when the store accepts the statement and the commit, the three
    operations return the rows, the last row id and the row count of the
    cursor; the statement is executed once, committed once and not rolled
    back, and the connection is kept. *)
Theorem committed_statement_is_committed_once
    (query : pystr) (params : list pyval) (w : world store)
    (cur : cursor_result) (s s' : store) :
  connects drv w = true ->
  drv_execute drv query params (db w) = (Ret cur, s) ->
  drv_commit drv s = (None, s') ->
  fst (execute_query drv query params w) = Ret (fetchall cur) /\
  fst (execute_insert drv query params w) = Ret (lastrowid cur) /\
  fst (execute_update drv query params w) = Ret (rowcount cur) /\
  Forall (fun o =>
            fst o = None /\
            db (snd o) = s' /\
            connection (snd o) = true /\
            executed (new_events w (snd o)) = [(query, params)] /\
            List.length (filter is_commit (new_events w (snd o))) = 1%nat /\
            ~ In EvRollback (new_events w (snd o)))
         (statement_runs drv query params w).
Proof.
  intros Hc He Hk. unfold statement_runs, outcome.
  destruct (execute_query_committed query params w cur s s' Hc He Hk)
    as (wq & -> & Tq & Dq & Cq).
  destruct (execute_insert_committed query params w cur s s' Hc He Hk)
    as (wi & -> & Ti & Di & Ci).
  destruct (execute_update_committed query params w cur s s' Hc He Hk)
    as (wu & -> & Tu & Du & Cu).
  split; [reflexivity|]. split; [reflexivity|]. split; [reflexivity|].
  constructor; [|constructor; [|constructor; [|constructor]]];
    cbn [fst snd];
    first [ rewrite (new_events_app _ _ _ Tq)
          | rewrite (new_events_app _ _ _ Ti)
          | rewrite (new_events_app _ _ _ Tu) ];
    (split; [reflexivity|]); (split; [assumption|]);
    (split; [assumption|]);
    apply committed_events_facts; reflexivity.
Qed.

(** X19: when the commit fails, each of the three operations raises the
    commit's error and rolls back. *)
Theorem failed_commit_is_rolled_back
    (query : pystr) (params : list pyval) (w : world store)
    (cur : cursor_result) (s s' : store) (e : exn) :
  connects drv w = true ->
  drv_execute drv query params (db w) = (Ret cur, s) ->
  drv_commit drv s = (Some e, s') ->
  Forall (fun o =>
            fst o = Some e /\
            db (snd o) = drv_rollback drv s' /\
            In EvRollback (new_events w (snd o)))
         (statement_runs drv query params w).
Proof.
  intros Hc He Hk. unfold statement_runs, outcome.
  destruct (execute_query_commit_fails query params w cur s s' Hc He e Hk)
    as (wq & -> & Tq & Dq & Cq).
  destruct (execute_insert_commit_fails query params w cur s s' Hc He e Hk)
    as (wi & -> & Ti & Di & Ci).
  destruct (execute_update_commit_fails query params w cur s s' Hc He e Hk)
    as (wu & -> & Tu & Du & Cu).
  constructor; [|constructor; [|constructor; [|constructor]]];
    cbn [fst snd];
    first [ rewrite (new_events_app _ _ _ Tq)
          | rewrite (new_events_app _ _ _ Ti)
          | rewrite (new_events_app _ _ _ Tu) ];
    (split; [reflexivity|]); (split; [assumption|]);
    apply in_or_app; right; unfold failed_commit_events; cbn [In]; tauto.
Qed.

Lemma with_cursor_refused {A} (body : M store A) (w w1 : world store)
    (e : exn) :
  _get_connection drv w = (Raise e, w1) ->
  with_cursor drv body w = (Raise e, w1).
Proof. intros H. unfold with_cursor, bind at 1. now rewrite H. Qed.

(** X20: when there is no live connection and the store refuses a new one,
    each of the three operations raises the connection error; nothing is
    executed, committed or rolled back and the store is unchanged. *)
Theorem refused_connection_executes_nothing
    (query : pystr) (params : list pyval) (w : world store) (e : exn) :
  connection w && drv_ping drv (db w) = false ->
  drv_connect drv (db w) = Some e ->
  Forall (fun o =>
            fst o = Some e /\
            db (snd o) = db w /\
            connection (snd o) = false /\
            Forall (fun ev => match ev with
                              | EvExecute _ _ | EvCommit | EvRollback => False
                              | _ => True
                              end) (new_events w (snd o)))
         (statement_runs drv query params w).
Proof.
  intros Hl Hc.
  destruct (_get_connection_refused w e Hl Hc) as (w1 & Hw1 & Htr & Hdb & Hcn).
  unfold statement_runs, outcome, execute_query, execute_insert,
    execute_update.
  do 3 (erewrite with_cursor_refused by exact Hw1).
  constructor; [|constructor; [|constructor; [|constructor]]];
    cbn [fst snd]; rewrite (new_events_app _ _ _ Htr);
    (split; [reflexivity|]); (split; [assumption|]);
    (split; [assumption|]); repeat constructor.
Qed.

End Client.

Lemma rbind_ret {A B} (c : res A) (k : A -> res B) (b : B) :
  rbind c k = Ret b -> exists a, c = Ret a /\ k a = Ret b.
Proof. destruct c; cbn; [eauto | discriminate]. Qed.

Lemma build_filters_shape params fs cp :
  build_filters params fs = Ret cp ->
  fst cp = conditions_of (filter (switched_on params) fs) /\
  List.length (snd cp) = List.length (fst cp).
Proof.
  revert cp. induction fs as [|f fs IH]; intros cp H; cbn [build_filters] in H.
  - injection H as <-. split; reflexivity.
  - apply rbind_ret in H as (p & Hp & H). cbn [filter]. unfold switched_on at 1.
    rewrite Hp. destruct p.
    + apply rbind_ret in H as (v & _ & H). apply rbind_ret in H as (b & _ & H).
      apply rbind_ret in H as (cp' & Hcp & H). injection H as <-.
      destruct (IH _ Hcp) as [E L]. cbn [fst snd conditions_of map].
      split; [f_equal; exact E | cbn [List.length]; f_equal; exact L].
    + exact (IH _ H).
Qed.

Section Statements.
Variable rt : PyRuntime.
Variable cfg : Config.

Ltac by_cases p :=
  cbn [filter];
  repeat match goal with
         | |- context [if p ?f then _ else _] => destruct (p f)
         end;
  vm_compute; reflexivity.

Lemma access_logs_placeholders (p : query_filter -> bool) :
  placeholders
    (access_logs_query
       (where_clause_of (conditions_of (filter p (access_logs_filters rt))))) =
  S (List.length (conditions_of (filter p (access_logs_filters rt)))).
Proof. unfold access_logs_filters. by_cases p. Qed.

Lemma error_logs_placeholders (p : query_filter -> bool) :
  placeholders
    (error_logs_query
       (where_clause_of (conditions_of (filter p (error_logs_filters rt))))) =
  S (List.length (conditions_of (filter p (error_logs_filters rt)))).
Proof. unfold error_logs_filters. by_cases p. Qed.

Lemma brute_force_placeholders (p : query_filter -> bool) :
  let cs := conditions_of (filter p time_filters) in
  placeholders (brute_force_query (where_clause_of cs) (and_or_where cs)) =
  List.length cs.
Proof. unfold time_filters. by_cases p. Qed.

Lemma sql_injection_placeholders (p : query_filter -> bool) :
  let cs := conditions_of (filter p time_filters) in
  placeholders (sql_injection_query (where_clause_of cs) (and_or_where cs)) =
  S (S (List.length cs)).
Proof. unfold time_filters. by_cases p. Qed.

Lemma performance_placeholders (p : query_filter -> bool) :
  let cs := conditions_of (filter p time_filters) in
  placeholders
    (performance_query
       (lit "WHERE " ++
        join (lit " AND ") (cs ++ [lit "response_time_ms > %s"]))) =
  S (List.length cs).
Proof. unfold time_filters. by_cases p. Qed.

Lemma anomalies_placeholders (p : query_filter -> bool) :
  let cs := conditions_of (filter p time_filters) in
  placeholders
    (anomalies_query
       (lit "WHERE " ++
        join (lit " AND ") (cs ++ [lit "severity_score >= %s"]))) =
  S (List.length cs).
Proof. unfold time_filters. by_cases p. Qed.

Lemma length_snoc {A} (l : list A) (x : A) :
  List.length (l ++ [x]) = S (List.length l).
Proof. rewrite length_app. cbn. lia. Qed.

Lemma access_logs_statement_bound params stmt :
  access_logs_statement rt cfg params = Ret stmt ->
  placeholders (fst stmt) = List.length (snd stmt).
Proof.
  unfold access_logs_statement. intros H.
  apply rbind_ret in H as (cp & Hcp & H). apply rbind_ret in H as (l & _ & H).
  injection H as <-. cbn [fst snd].
  destruct (build_filters_shape _ _ _ Hcp) as [E L].
  rewrite length_snoc, L, E. apply access_logs_placeholders.
Qed.

Lemma error_logs_statement_bound params stmt :
  error_logs_statement rt cfg params = Ret stmt ->
  placeholders (fst stmt) = List.length (snd stmt).
Proof.
  unfold error_logs_statement. intros H.
  apply rbind_ret in H as (cp & Hcp & H). apply rbind_ret in H as (l & _ & H).
  injection H as <-. cbn [fst snd].
  destruct (build_filters_shape _ _ _ Hcp) as [E L].
  rewrite length_snoc, L, E. apply error_logs_placeholders.
Qed.

Lemma performance_statement_bound params stmt :
  performance_statement params = Ret stmt ->
  placeholders (fst stmt) = List.length (snd stmt).
Proof.
  unfold performance_statement. intros H.
  apply rbind_ret in H as (cp & Hcp & H). apply rbind_ret in H as (l & _ & H).
  injection H as <-. cbn [fst snd].
  destruct (build_filters_shape _ _ _ Hcp) as [E L].
  rewrite length_snoc, L, E. apply performance_placeholders.
Qed.

Lemma anomalies_statement_bound params stmt :
  anomalies_statement params = Ret stmt ->
  placeholders (fst stmt) = List.length (snd stmt).
Proof.
  unfold anomalies_statement. intros H.
  apply rbind_ret in H as (cp & Hcp & H). apply rbind_ret in H as (l & _ & H).
  injection H as <-. cbn [fst snd].
  destruct (build_filters_shape _ _ _ Hcp) as [E L].
  rewrite length_snoc, L, E. apply anomalies_placeholders.
Qed.

Lemma threat_statements_bound params cp :
  build_filters params time_filters = Ret cp ->
  placeholders (fst (brute_force_statement cp)) =
    List.length (snd (brute_force_statement cp)) /\
  placeholders (fst (sql_injection_statement cp)) =
    List.length (snd (sql_injection_statement cp)).
Proof.
  intros Hcp. destruct (build_filters_shape _ _ _ Hcp) as [E L].
  unfold brute_force_statement, sql_injection_statement. cbn [fst snd].
  rewrite length_app, L, E. split.
  - apply brute_force_placeholders.
  - rewrite sql_injection_placeholders. cbn [List.length]. lia.
Qed.

Lemma read_fields_length params fs vs :
  read_fields params fs = Ret vs -> List.length vs = List.length fs.
Proof.
  revert vs. induction fs as [|f fs IH]; intros vs H; cbn [read_fields] in H.
  - now injection H as <-.
  - apply rbind_ret in H as (v & _ & H). apply rbind_ret in H as (vs' & Hvs & H).
    injection H as <-. cbn [List.length]. f_equal. exact (IH _ Hvs).
Qed.

End Statements.

(** ** What a run appends to the trace *)

Section Emits.
Context {store : Type}.
Variable P : event -> Prop.

Lemma emits_silent {A} (c : M store A) (w : world store) :
  trace (snd (c w)) = trace w -> emits P c w.
Proof. intros H. exists []. now rewrite app_nil_r. Qed.

Lemma emits_emit (e : event) (w : world store) : P e -> emits P (emit e) w.
Proof. intros H. exists [e]. split; [reflexivity|]. now constructor. Qed.

Lemma emits_bind {A B} (c : M store A) (k : A -> M store B)
    (w : world store) :
  emits P c w ->
  (forall a w', c w = (Ret a, w') -> emits P (k a) w') ->
  emits P (bind c k) w.
Proof.
  intros (e1 & H1 & Q1) Hk. unfold emits, bind.
  destruct (c w) as [[a|e] w1] eqn:Hc; cbn [snd] in H1.
  - destruct (Hk a w1 eq_refl) as (e2 & H2 & Q2).
    exists (e1 ++ e2). split.
    + now rewrite H2, H1, app_assoc.
    + now apply Forall_app.
  - exists e1. split; [exact H1|exact Q1].
Qed.

Lemma emits_try_except {A} (c : M store A) (h : exn -> M store A)
    (w : world store) :
  emits P c w ->
  (forall e w', c w = (Raise e, w') -> emits P (h e) w') ->
  emits P (try_except c h) w.
Proof.
  intros (e1 & H1 & Q1) Hh. unfold emits, try_except.
  destruct (c w) as [[a|e] w1] eqn:Hc; cbn [snd] in H1.
  - exists e1. split; [exact H1|exact Q1].
  - destruct (Hh e w1 eq_refl) as (e2 & H2 & Q2).
    exists (e1 ++ e2). split.
    + now rewrite H2, H1, app_assoc.
    + now apply Forall_app.
Qed.

Hypothesis P_log : forall m msg err kw, P (EvLog m msg err kw).
Hypothesis P_connect : P EvConnect.
Hypothesis P_commit : P EvCommit.
Hypothesis P_rollback : P EvRollback.

Variable drv : Driver store.

Lemma emits_log m msg err kw (w : world store) :
  emits P (log m msg err kw) w.
Proof. apply emits_emit, P_log. Qed.

Lemma emits_get_connection (w : world store) :
  emits P (_get_connection drv) w.
Proof.
  unfold _get_connection. apply emits_bind; [now apply emits_silent|].
  intros w0 w' _. destruct (connection w0 && drv_ping drv (db w0)).
  { now apply emits_silent. }
  apply emits_bind; [now apply emits_silent|]. intros _ w1 _.
  apply emits_bind; [apply emits_log|]. intros _ w2 _.
  apply emits_bind; [apply emits_emit, P_connect|]. intros _ w3 _.
  destruct (drv_connect drv (db w0)).
  - apply emits_bind; [apply emits_log|]. intros; now apply emits_silent.
  - apply emits_bind; [now apply emits_silent|]. intros; apply emits_log.
Qed.

Lemma emits_commit (w : world store) : emits P (commit drv) w.
Proof.
  unfold commit. apply emits_bind; [apply emits_emit, P_commit|].
  intros _ w1 _. apply emits_bind; [now apply emits_silent|]. intros w0 w2 _.
  destruct (drv_commit drv (db w0)) as [r s].
  apply emits_bind; [now apply emits_silent|]. intros _ w3 _.
  destruct r; now apply emits_silent.
Qed.

Lemma emits_rollback (w : world store) : emits P (rollback drv) w.
Proof.
  unfold rollback. apply emits_bind; [apply emits_emit, P_rollback|].
  intros _ w1 _. apply emits_bind; [now apply emits_silent|]. intros w0 w2 _.
  now apply emits_silent.
Qed.

Lemma emits_with_cursor {A} (body : M store A) (w : world store) :
  (forall w', emits P body w') -> emits P (with_cursor drv body) w.
Proof.
  intros Hb. unfold with_cursor.
  apply emits_bind; [apply emits_get_connection|]. intros _ w1 _.
  apply emits_try_except.
  - apply emits_bind; [apply Hb|]. intros a w2 _.
    apply emits_bind; [apply emits_commit|]. intros; now apply emits_silent.
  - intros e w2 _. apply emits_bind; [apply emits_rollback|]. intros _ w3 _.
    apply emits_bind; [apply emits_log|]. intros; now apply emits_silent.
Qed.

Lemma emits_cursor_execute query params (w : world store) :
  P (EvExecute query params) -> emits P (cursor_execute drv query params) w.
Proof.
  intros H. unfold cursor_execute. apply emits_bind; [now apply emits_emit|].
  intros _ w1 _. apply emits_bind; [now apply emits_silent|]. intros w0 w2 _.
  destruct (drv_execute drv query params (db w0)) as [r s].
  apply emits_bind; now intros; apply emits_silent.
Qed.

Lemma emits_execute_query query params (w : world store) :
  P (EvExecute query params) -> emits P (execute_query drv query params) w.
Proof.
  intros H. unfold execute_query. apply emits_with_cursor. intros w'.
  apply emits_bind; [apply emits_log|]. intros _ w1 _.
  apply emits_bind; [now apply emits_cursor_execute|]. intros cur w2 _.
  apply emits_bind; [apply emits_log|]. intros; now apply emits_silent.
Qed.

Lemma emits_execute_insert query params (w : world store) :
  P (EvExecute query params) -> emits P (execute_insert drv query params) w.
Proof.
  intros H. unfold execute_insert. apply emits_with_cursor. intros w'.
  apply emits_bind; [apply emits_log|]. intros _ w1 _.
  apply emits_bind; [now apply emits_cursor_execute|]. intros cur w2 _.
  apply emits_bind; [apply emits_log|]. intros; now apply emits_silent.
Qed.

Lemma emits_except_clause name msg e (w : world store) :
  emits P (bind (log Error name (Some e) [])
                (fun _ => ret (failure msg))) w.
Proof.
  apply emits_bind; [apply emits_log|]. intros; now apply emits_silent.
Qed.

End Emits.

Lemma lift_run {store A} (r : res A) (w w' : world store) (a : A) :
  lift r w = (Ret a, w') -> r = Ret a.
Proof. unfold lift. now intros [= -> _]. Qed.

Section Handlers.
Context {store : Type}.
Variable rt : PyRuntime.
Variable cfg : Config.
Variable drv : Driver store.
Variable py_round2 : pyval -> res pyval.

Lemma bound_statement q ps :
  placeholders q = List.length ps -> bound (EvExecute q ps).
Proof. intros H. unfold bound, well_bound. now apply Nat.eqb_eq. Qed.

Ltac other_events := try (intros; reflexivity).

Ltac single_query L :=
  apply emits_try_except;
    [|intros; apply emits_except_clause; other_events];
  apply emits_bind; [now apply emits_silent|]; intros stmt w1 Hs;
  apply lift_run in Hs;
  apply emits_bind;
    [apply emits_execute_query; other_events;
     apply bound_statement; eapply L; exact Hs|];
  intros results w2 _.

Lemma handlers_emit_bound h f params (w : world store) :
  modelled_handler rt cfg drv py_round2 h = Some f ->
  emits bound (f params) w.
Proof.
  intros Hf. destruct h; cbn [modelled_handler] in Hf;
    try discriminate; injection Hf as <-.
  - unfold handle_get_access_logs.
    single_query access_logs_statement_bound. now apply emits_silent.
  - unfold handle_get_error_logs.
    single_query error_logs_statement_bound. now apply emits_silent.
  - unfold handle_store_access_log.
    apply emits_try_except;
      [|intros; apply emits_except_clause; other_events].
    apply emits_bind; [now apply emits_silent|]. intros vs w1 Hs.
    apply lift_run, read_fields_length in Hs.
    apply emits_bind; [|intros; now apply emits_silent].
    apply emits_execute_insert; other_events.
    apply bound_statement. rewrite Hs. vm_compute. reflexivity.
  - unfold handle_store_error_log.
    apply emits_try_except;
      [|intros; apply emits_except_clause; other_events].
    apply emits_bind; [now apply emits_silent|]. intros vs w1 Hs.
    apply lift_run, read_fields_length in Hs.
    apply emits_bind; [|intros; now apply emits_silent].
    apply emits_execute_insert; other_events.
    apply bound_statement. rewrite Hs. vm_compute. reflexivity.
  - unfold handle_get_security_threats.
    apply emits_try_except;
      [|intros; apply emits_except_clause; other_events].
    apply emits_bind; [now apply emits_silent|]. intros cp w1 Hs.
    apply lift_run, threat_statements_bound in Hs. destruct Hs as [Hb Hq].
    apply emits_bind;
      [apply emits_execute_query; other_events; now apply bound_statement|].
    intros rows w2 _. apply emits_bind; [now apply emits_silent|].
    intros brute w3 _.
    apply emits_bind;
      [apply emits_execute_query; other_events; now apply bound_statement|].
    intros rows' w4 _. apply emits_bind; [now apply emits_silent|].
    intros; now apply emits_silent.
  - unfold handle_get_performance_metrics.
    single_query performance_statement_bound.
    apply emits_bind; now intros; apply emits_silent.
  - unfold handle_get_anomalies.
    single_query anomalies_statement_bound.
    apply emits_bind; now intros; apply emits_silent.
Qed.

(** X21: every statement that a handler (any but the traffic summary)
    hands to the driver has as many [%s] placeholders as bound values,
    whatever the params. *)
Theorem handlers_bind_every_placeholder h f params (w : world store) :
  modelled_handler rt cfg drv py_round2 h = Some f ->
  forallb well_bound (new_events w (snd (f params w))) = true.
Proof.
  intros Hf. destruct (handlers_emit_bound h f params w Hf) as (evs & Ht & Hb).
  rewrite (new_events_app _ _ _ Ht). apply forallb_forall.
  intros e He. exact (proj1 (Forall_forall _ _) Hb e He).
Qed.

End Handlers.

Section Returns.
Context {store : Type} {A : Type}.
Variable P : A -> Prop.

Lemma returns_ret (a : A) : P a -> returns P (@ret store A a).
Proof. intros H w a' w' [= <- _]. exact H. Qed.

Lemma returns_bind {B} (c : M store B) (k : B -> M store A) :
  (forall b, returns P (k b)) -> returns P (bind c k).
Proof.
  intros Hk w a w'. unfold bind. destruct (c w) as [[b|e] w1]; [|discriminate].
  apply Hk.
Qed.

Lemma returns_try_except (c : M store A) (h : exn -> M store A) :
  returns P c -> (forall e, returns P (h e)) -> returns P (try_except c h).
Proof.
  intros Hc Hh w a w'. unfold try_except.
  destruct (c w) as [[b|e] w1] eqn:E.
  - intros [= <- <-]. exact (Hc _ _ _ E).
  - apply Hh.
Qed.

Lemma caught_answers (c : M store A) m name kw (a0 : A) (w : world store) :
  returns P c -> P a0 ->
  exists a w',
    try_except c (fun e => bind (log m name (Some e) (kw e))
                                (fun _ => ret a0)) w = (Ret a, w') /\ P a.
Proof.
  intros Hc H0. unfold try_except. destruct (c w) as [[a|e] w1] eqn:E.
  - exists a, w1. split; [reflexivity|exact (Hc _ _ _ E)].
  - eexists _, _. split; [reflexivity|exact H0].
Qed.

End Returns.

Section Schema.
Context {store : Type}.
Variable rt : PyRuntime.
Variable cfg : Config.
Variable drv : Driver store.
Variable py_round2 : pyval -> res pyval.

Ltac schema :=
  apply (caught_answers _ _ _ _ (fun _ => []));
    [|left; reflexivity];
  repeat (apply returns_bind; intros ?);
  apply returns_ret; right; eexists; split; [reflexivity|];
  cbn [data_schema]; eexists; reflexivity.

(** X22: a handler (any but the traffic summary) never raises: it returns
    its data in the shape of its kind (a listing with its count, or the
    id of the stored row), or its own fixed failure text. *)
Theorem handlers_answer_in_their_schema h f params (w : world store) :
  modelled_handler rt cfg drv py_round2 h = Some f ->
  exists r w', f params w = (Ret r, w') /\
    (r = failure (failure_text h) \/
     exists data, r = success data /\ data_schema h data).
Proof.
  intros Hf. destruct h; cbn [modelled_handler] in Hf;
    try discriminate; injection Hf as <-; cbn [failure_text].
  - unfold handle_get_access_logs. schema.
  - unfold handle_get_error_logs. schema.
  - unfold handle_store_access_log. schema.
  - unfold handle_store_error_log. schema.
  - unfold handle_get_security_threats. schema.
  - unfold handle_get_performance_metrics. schema.
  - unfold handle_get_anomalies. schema.
Qed.

End Schema.

Section Answers.
Context {store : Type}.
Variable rt : PyRuntime.
Variable cfg : Config.
Variable drv : Driver store.
Variable rh : handler -> pyval -> M store pydict.
Variable request_id : pystr.

Lemma answer_create_response n b :
  In n statuses -> answer (create_response n b).
Proof. intros H. split; [reflexivity|exact H]. Qed.

Ltac leaf :=
  apply returns_ret, answer_create_response; unfold statuses; cbn; auto 10.

(** X23: [lambda_handler] never raises: every call is answered with status
    200, 400, 401, 405 or 500 and the fixed security headers. *)
Theorem gateway_always_answers event (w : world store) :
  exists r w',
    lambda_handler rt cfg drv rh request_id event w = (Ret r, w') /\
    headers r = default_headers /\ In (statusCode r) statuses.
Proof.
  unfold lambda_handler.
  apply (caught_answers answer _ _ _ (fun _ => [_])).
  2:{ apply answer_create_response. unfold statuses; cbn; auto 10. }
  apply returns_bind. intros config_ok. destruct config_ok; cbn [negb]; [|leaf].
  apply returns_bind. intros _. apply returns_bind. intros [[|] auth_error].
  2:{ apply returns_bind. intros _. leaf. }
  destruct (negb (py_eq_str (request_method event) (lit "POST"))).
  { apply returns_bind. intros _. leaf. }
  apply returns_bind. intros [[[|] parsed] err].
  2:{ apply returns_bind. intros _. leaf. }
  do 4 (apply returns_bind; intros ?).
  apply returns_try_except.
  - apply returns_bind. intros result. apply returns_bind. intros _.
    destruct (truthy _); leaf.
  - intros e. apply returns_bind. intros _. leaf.
Qed.

End Answers.

Section StatementTexts.
Variable rt : PyRuntime.
Variable cfg : Config.

Lemma same_filters p1 p2 fs :
  (forall k, present p1 k = present p2 k) ->
  filter (switched_on p1) fs = filter (switched_on p2) fs.
Proof.
  intros H. apply filter_ext. intros f. unfold switched_on. now rewrite H.
Qed.

Lemma same_conditions p1 p2 fs cp1 cp2 :
  (forall k, present p1 k = present p2 k) ->
  build_filters p1 fs = Ret cp1 -> build_filters p2 fs = Ret cp2 ->
  fst cp1 = fst cp2.
Proof.
  intros H H1 H2. apply build_filters_shape in H1 as [-> _].
  apply build_filters_shape in H2 as [-> _]. now rewrite (same_filters p1 p2).
Qed.

Lemma same_text_of (mk : list pystr -> pystr)
    (r1 r2 : res (list pystr * list pyval))
    (k1 k2 : list pystr * list pyval -> res (pystr * list pyval)) :
  match r1, r2 with Ret c1, Ret c2 => fst c1 = fst c2 | _, _ => True end ->
  (forall cp s, k1 cp = Ret s -> fst s = mk (fst cp)) ->
  (forall cp s, k2 cp = Ret s -> fst s = mk (fst cp)) ->
  same_text (rbind r1 k1) (rbind r2 k2).
Proof.
  intros Hc H1 H2. unfold same_text.
  destruct r1 as [c1|]; [|exact I]. destruct r2 as [c2|]; cbn [rbind].
  - destruct (k1 c1) as [s1|] eqn:E1; [|exact I].
    destruct (k2 c2) as [s2|] eqn:E2; [|exact I].
    now rewrite (H1 _ _ E1), (H2 _ _ E2), Hc.
  - now destruct (k1 c1).
Qed.

Lemma same_conditions_res p1 p2 fs :
  (forall k, present p1 k = present p2 k) ->
  match build_filters p1 fs, build_filters p2 fs with
  | Ret c1, Ret c2 => fst c1 = fst c2
  | _, _ => True
  end.
Proof.
  intros H. destruct (build_filters p1 fs) eqn:E1; [|exact I].
  destruct (build_filters p2 fs) eqn:E2; [|exact I].
  exact (same_conditions _ _ _ _ _ H E1 E2).
Qed.

Ltac texts H mk :=
  apply (same_text_of mk); [apply same_conditions_res, H| |];
  intros cp s E; try (apply rbind_ret in E as (v & _ & E));
  injection E as <-; reflexivity.

(** X24: the text of a read statement depends on which filters the params
    switch on, never on their values. *)
Theorem statement_text_ignores_values p1 p2 :
  (forall k, present p1 k = present p2 k) ->
  Forall2 same_text (read_statements rt cfg p1) (read_statements rt cfg p2).
Proof.
  intros H. unfold read_statements.
  constructor; [texts H (fun cs => access_logs_query (where_clause_of cs))|].
  constructor; [texts H (fun cs => error_logs_query (where_clause_of cs))|].
  constructor;
    [texts H (fun cs => brute_force_query (where_clause_of cs)
                                          (and_or_where cs))|].
  constructor;
    [texts H (fun cs => sql_injection_query (where_clause_of cs)
                                            (and_or_where cs))|].
  constructor;
    [texts H (fun cs => performance_query
                (lit "WHERE " ++
                 join (lit " AND ") (cs ++ [lit "response_time_ms > %s"])))|].
  constructor;
    [texts H (fun cs => anomalies_query
                (lit "WHERE " ++
                 join (lit " AND ") (cs ++ [lit "severity_score >= %s"])))|].
  constructor.
Qed.

Lemma handler_limit_range params v :
  handler_limit rt cfg params = Ret v ->
  exists n, v = VInt n /\ (n = 100 \/ 1 <= n <= MAX_QUERY_LIMIT cfg).
Proof.
  unfold handler_limit. intros H. apply rbind_ret in H as (limit & _ & H).
  apply rbind_ret in H as (t & Ht & H). unfold validate_limit in Ht.
  assert (Hdefault : forall t', Ret t' = Ret t -> fst (fst t') = false ->
            exists n, v = VInt n /\
                      (n = 100 \/ 1 <= n <= MAX_QUERY_LIMIT cfg)).
  { intros t' [= <-] Hf. rewrite Hf in H. injection H as <-. eauto. }
  destruct limit as [|b|m|f|s|l|d];
    [ injection Ht as <-; injection H as <-; eauto | .. ];
    (destruct (py_int rt _) as [i|e];
     [ destruct (i <? 1) eqn:E1; [exact (Hdefault _ Ht eq_refl)|];
       destruct (i >? MAX_QUERY_LIMIT cfg) eqn:E2;
       [exact (Hdefault _ Ht eq_refl)|];
       injection Ht as <-; injection H as <-; exists i; split; [easy|];
       right; lia
     | destruct e; try discriminate; exact (Hdefault _ Ht eq_refl) ]).
Qed.

(** X25: the last value bound by a retrieval statement is its row limit: an
    integer that is 100 or lies between 1 and [MAX_QUERY_LIMIT]. *)
Theorem retrieval_limit_is_bounded h statement params stmt :
  logs_statement rt cfg h = Some statement ->
  statement params = Ret stmt ->
  exists front n,
    snd stmt = front ++ [VInt n] /\
    (n = 100 \/ 1 <= n <= MAX_QUERY_LIMIT cfg).
Proof.
  intros Hh H. destruct h; cbn [logs_statement] in Hh; try discriminate;
    injection Hh as <-;
    [unfold access_logs_statement in H | unfold error_logs_statement in H];
    apply rbind_ret in H as (cp & _ & H);
    apply rbind_ret in H as (v & Hv & H); injection H as <-;
    destruct (handler_limit_range _ _ Hv) as (n & -> & Hn);
    exists (snd cp), n; (split; [reflexivity|exact Hn]).
Qed.

End StatementTexts.

Section Store.
Context {store : Type}.
Variable rt : PyRuntime.
Variable cfg : Config.
Variable drv : Driver store.
Variable py_round2 : pyval -> res pyval.

(** X26: when the store accepts the statement and the commit, a retrieval
    handler executes its one statement and returns exactly the rows of
    the cursor, with their count. *)
Theorem retrieval_returns_the_rows h statement f params q ps cur s s'
    (w : world store) :
  logs_statement rt cfg h = Some statement ->
  modelled_handler rt cfg drv py_round2 h = Some f ->
  statement params = Ret (q, ps) ->
  connects drv w = true ->
  drv_execute drv q ps (db w) = (Ret cur, s) ->
  drv_commit drv s = (None, s') ->
  exists w',
    f params w = (Ret (success (logs_data (fetchall cur))), w') /\
    db w' = s' /\
    executed (new_events w w') = [(q, ps)].
Proof.
  intros Hs Hf Hstmt Hc He Hk.
  destruct (execute_query_committed drv q ps w cur s s' Hc He Hk)
    as (w' & Hq & Htr & Hdb & _).
  assert (Hex : executed (new_events w w') = [(q, ps)]).
  { rewrite (new_events_app _ _ _ Htr). unfold connection_events.
    destruct (connection w && drv_ping drv (db w)); reflexivity. }
  destruct h; cbn [logs_statement] in Hs; try discriminate;
    injection Hs as <-; injection Hf as <-;
    [unfold handle_get_access_logs | unfold handle_get_error_logs];
    unfold try_except, bind, lift; rewrite Hstmt; cbn [fst snd];
    rewrite Hq; exists w'; auto.
Qed.

Lemma refused_handler {X Y} (r : res X) (run : X -> M store Y)
    (k : X -> Y -> M store pydict) name msg (w : world store) (e : exn) :
  connection w && drv_ping drv (db w) = false ->
  drv_connect drv (db w) = Some e ->
  (forall x w1, _get_connection drv w = (Raise e, w1) ->
                run x w = (Raise e, w1)) ->
  exists w',
    try_except (bind (lift r) (fun x => bind (run x) (k x)))
      (fun e => bind (log Error name (Some e) [])
                     (fun _ => ret (failure msg))) w =
      (Ret (failure msg), w') /\
    db w' = db w /\
    executed (new_events w w') = [].
Proof.
  intros Hl Hc Hrun.
  destruct (_get_connection_refused drv w e Hl Hc)
    as (w1 & Hw1 & Htr & Hdb & _).
  unfold try_except, bind at 1, lift. destruct r as [x|e'].
  - unfold bind at 1. rewrite (Hrun x w1 Hw1).
    unfold bind, log, emit, ret. cbn.
    eexists. split; [reflexivity|]. cbn [db]. split; [exact Hdb|].
    erewrite new_events_app; [|cbn [trace]; rewrite Htr, <- app_assoc;
                                reflexivity].
    reflexivity.
  - unfold bind, log, emit, ret. cbn.
    eexists. split; [reflexivity|]. cbn [db]. split; [reflexivity|].
    erewrite new_events_app; [|reflexivity]. reflexivity.
Qed.

(** X27: when the store refuses the connection, every handler but the
    traffic summary answers with its fixed failure text; nothing is
    executed and the store is left as it was. *)
Theorem database_down_fails_every_handler h f params (w : world store)
    (e : exn) :
  modelled_handler rt cfg drv py_round2 h = Some f ->
  connection w && drv_ping drv (db w) = false ->
  drv_connect drv (db w) = Some e ->
  exists w',
    f params w = (Ret (failure (failure_text h)), w') /\
    db w' = db w /\
    executed (new_events w w') = [].
Proof.
  intros Hf Hl Hc.
  destruct h; cbn [modelled_handler] in Hf; try discriminate;
    injection Hf as <-; cbn [failure_text];
    apply (refused_handler _ _ _ _ _ w e); try assumption;
    intros x w1 Hw1;
    first [ unfold execute_query | unfold execute_insert ];
    now apply with_cursor_refused.
Qed.

End Store.

(** * Instances *)

Lemma get_api_keys_are_clean_witness :
  lit "beta-key" <> [] /\ ~ In 44%N (lit "beta-key") /\
  strip (lit "beta-key") = lit "beta-key".
Proof.
  apply (get_api_keys_are_clean Sample.config (lit "beta-key")).
  right. left. reflexivity.
Defined.

Lemma configured_keys_authenticate_witness :
  let headers := request_headers (Sample.post None) in
  (authenticated Sample.config headers = Ret (true, None) <->
   exists key, extract_api_key headers = Some key /\
               In key (get_api_keys Sample.config)) /\
  (authenticated Sample.config headers = Ret (true, None) \/
   authenticated Sample.config headers = Ret (false, Some unauthorized)).
Proof.
  intros headers.
  apply (configured_keys_authenticate Sample.config headers).
  - repeat constructor.
  - intros key H. injection H as <-. reflexivity.
Defined.

Lemma stopped_call_leaves_store_alone_witness :
  exists evs,
    snd (Sample.run Sample.anonymous_post) = add_events evs Sample.cold /\
    Forall (fun e => store_event e = false) evs.
Proof.
  apply (stopped_call_leaves_store_alone Sample.runtime Sample.config
           Sample.memory_driver Sample.no_rows Sample.request_id
           Sample.anonymous_post Sample.cold Unauthenticated).
  reflexivity.
Defined.

Lemma missing_required_field_is_named_witness :
  validate_intent_params Sample.runtime Sample.config
    (VStr (lit "store_error_log"))
    (VDict [(lit "timestamp", VStr (lit "2024-05-01 12:00:00"))]) =
  Ret (reject (lit "Missing required field: log_level")).
Proof.
  apply (missing_required_field_is_named Sample.runtime Sample.config
           StoreErrorLog
           [(lit "timestamp", VStr (lit "2024-05-01 12:00:00"))]
           (lit "log_level"));
    reflexivity.
Defined.

Lemma unknown_intent_is_rejected_witness :
  fst (lambda_handler Scenario.runtime Sample.config Sample.memory_driver
         Sample.no_rows Sample.request_id
         (Sample.post (Some Scenario.body_unknown_intent)) Sample.cold) =
  Ret (create_response 400
         [(lit "error",
           VStr (lit "Unknown intent: drop_tables. Allowed intents: " ++
                 allowed_intents_text));
          (lit "request_id", VStr Sample.request_id)]).
Proof.
  apply (unknown_intent_is_rejected_with_allowed_list Scenario.runtime
           Sample.config Sample.memory_driver Sample.no_rows
           Sample.request_id (Sample.post (Some Scenario.body_unknown_intent))
           Scenario.body_unknown_intent
           [(lit "intent", VStr (lit "drop_tables"))] Sample.cold);
    solve [reflexivity | vm_compute; discriminate].
Defined.

Lemma malformed_json_is_answered_400_witness :
  fst (Sample.run (Sample.post (Some (lit "{oops")))) =
  Ret (create_response 400
         [(lit "error", VStr (lit "Invalid JSON: Expecting value"));
          (lit "request_id", VStr Sample.request_id)]).
Proof.
  apply (malformed_json_is_answered_400 Sample.runtime Sample.config
           Sample.memory_driver Sample.no_rows Sample.request_id
           (Sample.post (Some (lit "{oops"))) (lit "{oops")
           (lit "Expecting value") Sample.cold);
    solve [reflexivity | vm_compute; discriminate].
Defined.

Lemma non_object_body_is_answered_500_witness :
  let event := Sample.post (Some (lit "[]")) in
  validated Scenario.runtime Sample.config (request_body event) =
    Raise AttributeError /\
  fst (lambda_handler Scenario.runtime Sample.config Sample.memory_driver
         Sample.no_rows Sample.request_id event Sample.cold) =
  Ret (create_response 500
         (error_body (lit "Internal server error") Sample.request_id)).
Proof.
  intros event.
  apply (non_object_body_is_answered_500 Scenario.runtime Sample.config
           Sample.memory_driver Sample.no_rows Sample.request_id event
           (lit "[]") (VList []) Sample.cold);
    solve [reflexivity | vm_compute; discriminate | discriminate].
Defined.

Lemma sanitize_commutes_with_open_paths_witness :
  let record :=
    VDict [(lit "request", VDict [(lit "path", VStr (lit "/login"));
                                  (lit "password", VStr (lit "hunter2"))])] in
  Logger.resolve [Logger.Key (lit "request"); Logger.Key (lit "path")]
    (Logger._sanitize Sample.runtime record) =
  Some (Logger._sanitize Sample.runtime (VStr (lit "/login"))).
Proof.
  intros record.
  apply (SanitizeFacts.sanitize_commutes_with_open_paths Sample.runtime);
    reflexivity.
Defined.

Lemma rejected_statement_is_rolled_back_witness :
  let e := DriverError (lit "syntax error") in
  Forall (fun o =>
            fst o = Some e /\
            db (snd o) = [] /\
            executed (new_events Sample.cold (snd o)) =
              [(Scenario.query, Scenario.values)] /\
            In EvRollback (new_events Sample.cold (snd o)) /\
            ~ In EvCommit (new_events Sample.cold (snd o)))
         (statement_runs Scenario.rejecting_driver Scenario.query
            Scenario.values Sample.cold).
Proof.
  intros e.
  apply (rejected_statement_is_rolled_back Scenario.rejecting_driver
           Scenario.query Scenario.values Sample.cold e []);
    reflexivity.
Defined.

Lemma committed_statement_is_committed_once_witness :
  let cur := {| fetchall := []; lastrowid := 1; rowcount := 1 |} in
  let s := [(Scenario.query, Scenario.values)] in
  fst (execute_query Sample.memory_driver Scenario.query Scenario.values
         Sample.cold) = Ret (fetchall cur) /\
  fst (execute_insert Sample.memory_driver Scenario.query Scenario.values
         Sample.cold) = Ret (lastrowid cur) /\
  fst (execute_update Sample.memory_driver Scenario.query Scenario.values
         Sample.cold) = Ret (rowcount cur) /\
  Forall (fun o =>
            fst o = None /\
            db (snd o) = s /\
            connection (snd o) = true /\
            executed (new_events Sample.cold (snd o)) =
              [(Scenario.query, Scenario.values)] /\
            List.length (filter is_commit (new_events Sample.cold (snd o))) =
              1%nat /\
            ~ In EvRollback (new_events Sample.cold (snd o)))
         (statement_runs Sample.memory_driver Scenario.query Scenario.values
            Sample.cold).
Proof.
  intros cur s.
  apply (committed_statement_is_committed_once Sample.memory_driver
           Scenario.query Scenario.values Sample.cold cur s s);
    reflexivity.
Defined.

Lemma failed_commit_is_rolled_back_witness :
  let e := DriverError (lit "lock wait timeout") in
  Forall (fun o =>
            fst o = Some e /\
            db (snd o) = [] /\
            In EvRollback (new_events Sample.cold (snd o)))
         (statement_runs Scenario.uncommitted_driver Scenario.query
            Scenario.values Sample.cold).
Proof.
  intros e.
  apply (failed_commit_is_rolled_back Scenario.uncommitted_driver
           Scenario.query Scenario.values Sample.cold
           {| fetchall := []; lastrowid := 1; rowcount := 1 |}
           [(Scenario.query, Scenario.values)]
           [(Scenario.query, Scenario.values)] e);
    reflexivity.
Defined.

Lemma refused_connection_executes_nothing_witness :
  let e := DriverError (lit "connection refused") in
  Forall (fun o =>
            fst o = Some e /\
            db (snd o) = [] /\
            connection (snd o) = false /\
            Forall (fun ev => match ev with
                              | EvExecute _ _ | EvCommit | EvRollback => False
                              | _ => True
                              end) (new_events Sample.cold (snd o)))
         (statement_runs Scenario.down_driver Scenario.query Scenario.values
            Sample.cold).
Proof.
  intros e.
  apply (refused_connection_executes_nothing Scenario.down_driver
           Scenario.query Scenario.values Sample.cold e);
    reflexivity.
Defined.

Lemma handlers_bind_every_placeholder_witness :
  let params := Scenario.by_address "203.0.113.7" in
  forallb well_bound
    (new_events Sample.cold
       (snd (handle_get_access_logs Sample.runtime Sample.config
               Sample.memory_driver params Sample.cold))) = true.
Proof.
  intros params.
  apply (handlers_bind_every_placeholder Sample.runtime Sample.config
           Sample.memory_driver Scenario.round2 H_get_access_logs).
  reflexivity.
Defined.

Lemma handlers_answer_in_their_schema_witness :
  exists r w',
    handle_store_error_log Sample.memory_driver (VDict Sample.error_record)
      Sample.cold = (Ret r, w') /\
    (r = failure (failure_text H_store_error_log) \/
     exists data, r = success data /\ data_schema H_store_error_log data).
Proof.
  apply (handlers_answer_in_their_schema Sample.runtime Sample.config
           Sample.memory_driver Scenario.round2 H_store_error_log).
  reflexivity.
Defined.

Lemma statement_text_ignores_values_witness :
  Forall2 same_text
    (read_statements Sample.runtime Sample.config
       (Scenario.by_address "203.0.113.7"))
    (read_statements Sample.runtime Sample.config
       (Scenario.by_address "x' OR '1'='1")).
Proof.
  apply (statement_text_ignores_values Sample.runtime Sample.config).
  intros k. unfold present, Scenario.by_address, py_contains, py_getitem,
    dict_has. cbn [dict_get].
  destruct (str_eqb (lit "ip_address") (lit k)); reflexivity.
Defined.

Lemma retrieval_limit_is_bounded_witness :
  let params := VDict [(lit "limit", VInt 0)] in
  exists front n,
    [VInt 100] = front ++ [VInt n] /\
    (n = 100 \/ 1 <= n <= MAX_QUERY_LIMIT Sample.config).
Proof.
  intros params.
  apply (retrieval_limit_is_bounded Sample.runtime Sample.config
           H_get_error_logs
           (error_logs_statement Sample.runtime Sample.config) params
           (error_logs_query [], [VInt 100]));
    reflexivity.
Defined.

Lemma retrieval_returns_the_rows_witness :
  let params := Scenario.by_address "203.0.113.7" in
  let q := access_logs_query (lit "WHERE ip_address = %s") in
  let ps := [VStr (lit "203.0.113.7"); VInt 100] in
  exists w',
    handle_get_access_logs Sample.runtime Sample.config Sample.memory_driver
      params Sample.cold = (Ret (success (logs_data [])), w') /\
    db w' = [(q, ps)] /\
    executed (new_events Sample.cold w') = [(q, ps)].
Proof.
  intros params q ps.
  apply (retrieval_returns_the_rows Sample.runtime Sample.config
           Sample.memory_driver Scenario.round2 H_get_access_logs
           (access_logs_statement Sample.runtime Sample.config)
           (handle_get_access_logs Sample.runtime Sample.config
              Sample.memory_driver)
           params q ps
           {| fetchall := []; lastrowid := 1; rowcount := 1 |}
           [(q, ps)] [(q, ps)] Sample.cold);
    reflexivity.
Defined.

Lemma database_down_fails_every_handler_witness :
  exists w',
    handle_get_anomalies Sample.runtime Scenario.down_driver (VDict [])
      Sample.cold =
      (Ret (failure (lit "Failed to detect anomalies")), w') /\
    db w' = [] /\
    executed (new_events Sample.cold w') = [].
Proof.
  apply (database_down_fails_every_handler Sample.runtime Sample.config
           Scenario.down_driver Scenario.round2 H_get_anomalies
           (handle_get_anomalies Sample.runtime Scenario.down_driver)
           (VDict []) Sample.cold
           (DriverError (lit "connection refused")));
    reflexivity.
Defined.
